(** * Ladybug scanner: a shallow embedding of [4steppergui_re-comment.py]

    The development follows the Python source function by function: the four
    axis drivers ([MoveX] .. [MoveR]), the absolute moves ([XGoTo] ..
    [RGoTo]), the homing procedures, the grid generator [DefineScan] and the
    scan loop [GridScan] with its checkpoint and the start-up resume block.

    Python integers are [Z].  The module-level position variables
    [GlobalX] .. [GlobalR] form the record [rig].  Every function that touches
    the hardware is a computation in the monad [M]: it reads and writes the
    [rig], emits the list of externally visible [event]s it performs (GPIO
    writes, console messages, camera invocations, the checkpoint write, the
    reboot command) and ends by returning or by raising.  What the outside
    world answers (limit switch levels, the clock, the camera) is read from
    an [environment] of oracles. *)

From Stdlib Require Import String Ascii DecimalString.
From Stdlib Require Import ZArith List Bool Arith Lia.
Import ListNotations.
Open Scope Z_scope.

(** ** Python helpers *)

(** [str(n)] for an integer. *)
Definition str (n : Z) : string := NilZero.string_of_int (Z.to_int n).

Fixpoint zeros (n : nat) : string :=
  match n with
  | O => EmptyString
  | S k => String "0"%char (zeros k)
  end.

(** [s.zfill(width)]: left padding with zeros, inserted after a leading sign. *)
Definition zfill (width : nat) (s : string) : string :=
  let fill := (width - String.length s)%nat in
  match s with
  | String c rest =>
      if (Ascii.eqb c "-"%char || Ascii.eqb c "+"%char)%bool
      then String c (zeros fill ++ rest)
      else (zeros fill ++ s)
  | EmptyString => zeros fill
  end%string.

(** [range(n)] for a natural bound. *)
Definition range (n : nat) : list nat := seq 0 n.

(** [enumerate(l)]. *)
Definition enumerate {A : Type} (l : list A) : list (nat * A) :=
  combine (seq 0 (length l)) l.

(** ** Constants of the rig (lines 71-99 of the source) *)

Definition XMax : Z := 1800.
Definition YMax : Z := 2000.
Definition ZMax : Z := 3000.
Definition StepsPerRotation : Z := 160.

Definition XFORWARD : Z := 1.
Definition XBACKWARD : Z := 0.
Definition YFORWARD : Z := 1.
Definition YBACKWARD : Z := 0.
Definition ZFORWARD : Z := 1.
Definition ZBACKWARD : Z := 0.
Definition RFORWARD : Z := 1.
Definition RBACKWARD : Z := 0.

(** The speed presets are float delays in the source; only their identity
    matters here. *)
Inductive speed : Type :=
  FASTERER | FASTER | FAST | SLOW | SLOWER | SLOWERER.

Inductive axis : Type := AxX | AxY | AxZ | AxR.

(** The three limit inputs [XLimit], [YLimit], [ZLimit]. *)
Inductive pin : Type := XLimit | YLimit | ZLimit.

(** ** Scan data *)

(** The dictionary returned by [DefineScan]: four lists under the keys
    ['X'], ['Y'], ['Z'], ['R']. *)
Record ScanLocations : Type := mkLocations {
  locX : list Z;
  locY : list Z;
  locZ : list Z;
  locR : list Z
}.

(** The [conditions] dictionary pickled on an unrecoverable capture failure.
    Clock readings are kept as opaque integers. *)
Record conditions : Type := mkConditions {
  save_location : string;
  R_Location : Z;
  filetype : string;
  resolution : string;
  num_failures : Z;
  original_pics : nat;
  original_time : Z;
  original_locations : ScanLocations;
  failed_pics : list string;
  failure_times : list Z
}.

(** [scan_params = [UpdatedScanLocations, conditions]]. *)
Definition scan_params : Type := (ScanLocations * conditions)%type.

(** ** Observable effects *)

(** One constructor per [print] call of the modelled functions. *)
Inductive message : Type :=
| DestinationOutOfRange
| RotationOutOfRange (RMin SPR : Z)
| ButtonPressedAfter (i : nat)
| AlreadyHomedCheck (j : nat)
| RestartedSoFar (n : Z)
| PicturesRemaining (remaining : nat) (original : nat)
| ReconnectedThanks (name : string)
| UsbUnplugged (timeallowed : Z)
| CheckIfFailed (name : string)
| ShowScanParams (p : scan_params)
| RestartingSorry
| ShutdownOutput                       (* print(output) of restart() *)
| CaptureTimedOut (name : string)
| ScanCompleted (elapsed : Z) (pics : nat) (restarts : Z)
| NoInterruptedScans.

Inductive event : Type :=
| SetDir (a : axis) (level : Z)        (* GPIO.output(<axis>DIR, direction) *)
| Step (a : axis) (delay : speed)      (* one HIGH / sleep / LOW pulse     *)
| Readout (a : axis) (pos : Z)         (* <axis>Position.configure(...)    *)
| Print (m : message)
| Beep (tenths : Z)                    (* BEEP high, sleep, BEEP low; the
                                          sleep in tenths of a second      *)
| MakeDirs (folder : string)
| Settle                               (* time.sleep(0.2) before a capture *)
| Fswebcam (path : string) (res : string)
| Terminate                            (* proc.terminate()                 *)
| PickleDump (p : scan_params)         (* write of scandata.pkl            *)
| Shutdown                             (* shutdown -r now, run and waited for *)
| RenameCheckpoint
| AskExit.

(** ** Machine state and the monad *)

Record rig : Type := mkRig {
  GlobalX : Z;
  GlobalY : Z;
  GlobalZ : Z;
  GlobalR : Z;
  gpio_reads : nat;     (* how many times GPIO.input has been called *)
  clock_reads : nat     (* how many times time.time() has been called *)
}.

Definition set_GlobalX (v : Z) (s : rig) : rig :=
  mkRig v (GlobalY s) (GlobalZ s) (GlobalR s) (gpio_reads s) (clock_reads s).
Definition set_GlobalY (v : Z) (s : rig) : rig :=
  mkRig (GlobalX s) v (GlobalZ s) (GlobalR s) (gpio_reads s) (clock_reads s).
Definition set_GlobalZ (v : Z) (s : rig) : rig :=
  mkRig (GlobalX s) (GlobalY s) v (GlobalR s) (gpio_reads s) (clock_reads s).
Definition set_GlobalR (v : Z) (s : rig) : rig :=
  mkRig (GlobalX s) (GlobalY s) (GlobalZ s) v (gpio_reads s) (clock_reads s).
Definition tick_gpio (s : rig) : rig :=
  mkRig (GlobalX s) (GlobalY s) (GlobalZ s) (GlobalR s)
        (S (gpio_reads s)) (clock_reads s).
Definition tick_clock (s : rig) : rig :=
  mkRig (GlobalX s) (GlobalY s) (GlobalZ s) (GlobalR s)
        (gpio_reads s) (S (clock_reads s)).

Inductive exn : Type :=
| IndexError          (* list index out of range          *)
| ValueError          (* max() / concatenate of nothing   *)
| ZeroStepError       (* numpy.arange with a zero step    *)
| TimeoutExpired.     (* subprocess communicate(timeout=) *)

(** How a call ends: it returns a value or raises. *)
Inductive outcome (A : Type) : Type :=
| Ret (a : A)
| Raise (e : exn).
Arguments Ret {A} a.
Arguments Raise {A} e.

Definition M (A : Type) : Type := rig -> outcome A * rig * list event.

Definition ret {A : Type} (a : A) : M A := fun s => (Ret a, s, []).

Definition bind {A B : Type} (m : M A) (k : A -> M B) : M B :=
  fun s =>
    match m s with
    | (Ret a, s1, ev1) =>
        match k a s1 with
        | (r, s2, ev2) => (r, s2, ev1 ++ ev2)
        end
    | (Raise e, s1, ev1) => (Raise e, s1, ev1)
    end.

Notation "x <- m ;; k" := (bind m (fun x => k))
  (at level 61, m at next level, right associativity).
Notation "m ;; k" := (bind m (fun _ => k))
  (at level 61, right associativity).

Definition get : M rig := fun s => (Ret s, s, []).
Definition modify (f : rig -> rig) : M unit := fun s => (Ret tt, f s, []).
Definition emit (e : event) : M unit := fun s => (Ret tt, s, [e]).
Definition emits (l : list event) : M unit := fun s => (Ret tt, s, l).
Definition raise {A : Type} (e : exn) : M A := fun s => (Raise e, s, []).
Definition print (m : message) : M unit := emit (Print m).

(** [try: body except <caught>: handler]. *)
Definition try_except {A : Type} (body : M A) (caught : exn -> bool)
    (handler : M A) : M A :=
  fun s =>
    match body s with
    | (Raise e, s1, ev1) =>
        if caught e
        then match handler s1 with
             | (r, s2, ev2) => (r, s2, ev1 ++ ev2)
             end
        else (Raise e, s1, ev1)
    | other => other
    end.

(** Projections of a finished run. *)
Definition result_of {A : Type} (x : outcome A * rig * list event) : outcome A :=
  fst (fst x).
Definition state_of {A : Type} (x : outcome A * rig * list event) : rig :=
  snd (fst x).
Definition events_of {A : Type} (x : outcome A * rig * list event) : list event :=
  snd x.

Definition is_step (a : axis) (e : event) : bool :=
  match e, a with
  | Step AxX _, AxX | Step AxY _, AxY | Step AxZ _, AxZ | Step AxR _, AxR => true
  | _, _ => false
  end.

(** Number of step pulses sent to one axis. *)
Definition pulses (a : axis) (l : list event) : nat :=
  length (filter (is_step a) l).

(** ** Axis drivers (lines 220-324) *)

Definition MoveX (direction numsteps : Z) (delay : speed) : M unit :=
  emit (SetDir AxX direction) ;;
  emits (repeat (Step AxX delay) (Z.to_nat numsteps)) ;;
  s <- get ;;
  (if direction =? XFORWARD
   then modify (set_GlobalX (GlobalX s + numsteps))
   else modify (set_GlobalX (GlobalX s - numsteps))) ;;
  s' <- get ;;
  emit (Readout AxX (GlobalX s')).

Definition MoveY (direction numsteps : Z) (delay : speed) : M unit :=
  emit (SetDir AxY direction) ;;
  emits (repeat (Step AxY delay) (Z.to_nat numsteps)) ;;
  s <- get ;;
  (if direction =? YFORWARD
   then modify (set_GlobalY (GlobalY s + numsteps))
   else modify (set_GlobalY (GlobalY s - numsteps))) ;;
  s' <- get ;;
  emit (Readout AxY (GlobalY s')).

Definition MoveZ (direction numsteps : Z) (delay : speed) : M unit :=
  emit (SetDir AxZ direction) ;;
  emits (repeat (Step AxZ delay) (Z.to_nat numsteps)) ;;
  s <- get ;;
  (if direction =? ZFORWARD
   then modify (set_GlobalZ (GlobalZ s + numsteps))
   else modify (set_GlobalZ (GlobalZ s - numsteps))) ;;
  s' <- get ;;
  emit (Readout AxZ (GlobalZ s')).

(** [MoveR] sets the direction and pulses; the source has no position update
    and no readout after the loop. *)
Definition MoveR (direction numsteps : Z) (delay : speed) : M unit :=
  emit (SetDir AxR direction) ;;
  emits (repeat (Step AxR delay) (Z.to_nat numsteps)).

(** ** Absolute moves (lines 327-428) *)

(** The argument of a GoTo: an [int], or anything else
    ([isinstance(dest, int)] is false). *)
Inductive pyarg : Type :=
| PyInt (n : Z)
| PyOther.

Definition XGoTo (XDest : pyarg) (XMin : Z) : M (option string) :=
  match XDest with
  | PyOther => ret (Some "Please input an integer for X destination"%string)
  | PyInt d =>
      if ((d <=? XMax) && (d >=? XMin))%bool
      then
        s <- get ;;
        let distance := d - GlobalX s in
        (if distance >? 0
         then MoveX XFORWARD distance FASTER
         else MoveX XBACKWARD (Z.abs distance) FASTER) ;;
        ret None
      else print DestinationOutOfRange ;; ret None
  end.

Definition YGoTo (YDest : pyarg) (YMin : Z) : M (option string) :=
  match YDest with
  | PyOther => ret (Some "Please input an integer for Y destination"%string)
  | PyInt d =>
      if ((d <=? YMax) && (d >=? YMin))%bool
      then
        s <- get ;;
        let distance := d - GlobalY s in
        (if distance >? 0
         then MoveY YFORWARD distance FASTER
         else MoveY YBACKWARD (Z.abs distance) FASTER) ;;
        ret None
      else print DestinationOutOfRange ;; ret None
  end.

Definition ZGoTo (ZDest : pyarg) (ZMin : Z) : M (option string) :=
  match ZDest with
  | PyOther => ret (Some "Please input an integer for Z destination"%string)
  | PyInt d =>
      if ((d <=? ZMax) && (d >=? ZMin))%bool
      then
        s <- get ;;
        let numsteps := d - GlobalZ s in
        (if numsteps >? 0
         then MoveZ ZFORWARD numsteps FASTERER
         else MoveZ ZBACKWARD (Z.abs numsteps) FASTERER) ;;
        ret None
      else print DestinationOutOfRange ;; ret None
  end.

Definition RGoTo (RDest : pyarg) (RMin : Z) : M (option string) :=
  match RDest with
  | PyOther => ret (Some "Please input an integer for R destination"%string)
  | PyInt d =>
      if ((d <=? StepsPerRotation) && (d >=? RMin))%bool
      then
        s <- get ;;
        let distance := d - GlobalR s in
        (if distance >? 0
         then MoveR RFORWARD distance FAST
         else MoveR RBACKWARD (Z.abs distance) FAST) ;;
        ret None
      else print (RotationOutOfRange RMin StepsPerRotation) ;; ret None
  end.

(** The out-of-range report of a GoTo is its console message. *)
Definition is_out_of_range_report (e : event) : bool :=
  match e with
  | Print DestinationOutOfRange => true
  | Print (RotationOutOfRange _ _) => true
  | _ => false
  end.

Definition reports_out_of_range (l : list event) : bool :=
  existsb is_out_of_range_report l.

(** A rig fresh after start-up: every position variable is 0. *)
Definition rig0 : rig := mkRig 0 0 0 0 0 0.

(** ** The outside world *)

(** What one [fswebcam] invocation leads to: the process ends and the image
    file is there, the process ends and it is not, or [communicate] does not
    come back within its 10 second timeout. *)
Inductive capture : Type := FileWritten | NoFile | Hangs.

Record environment : Type := mkEnv {
  gpio_level : pin -> nat -> bool;   (* GPIO.input at the k-th read; [false] is a pressed switch *)
  clock : nat -> Z;                  (* time.time() at its k-th call *)
  askdirectory : string;             (* the folder picked in the dialog *)
  camera : nat -> nat -> capture     (* coordinate index, attempt number *)
}.

Definition GPIO_input (env : environment) (p : pin) : M bool :=
  fun s => (Ret (gpio_level env p (gpio_reads s)), tick_gpio s, []).

Definition time_time (env : environment) : M Z :=
  fun s => (Ret (clock env (clock_reads s)), tick_clock s, []).

(** [l[i]] on a Python list. *)
Definition index (l : list Z) (i : nat) : M Z :=
  match nth_error l i with
  | Some v => ret v
  | None => raise IndexError
  end.

(** A [for] loop whose body has no [return] or [break]. *)
Fixpoint for_each {A : Type} (l : list A) (body : A -> M unit) : M unit :=
  match l with
  | [] => ret tt
  | a :: l' => body a ;; for_each l' body
  end.

(** A [for] loop whose body updates local variables: [acc] holds them on
    entry of an iteration, the body returns them as they are at its end. *)
Fixpoint for_fold {A S : Type} (l : list A) (body : S -> A -> M S) (acc : S)
  : M S :=
  match l with
  | [] => ret acc
  | a :: l' => acc' <- body acc a ;; for_fold l' body acc'
  end.

(** ** Homing (lines 431-513) *)

(** [CheckPress]: pressed, and still pressed after the debounce sleep.  The
    source returns [True] or falls off the end ([None], falsy). *)
Definition CheckPress (env : environment) (p : pin) : M bool :=
  input_state <- GPIO_input env p ;;
  if negb input_state
  then
    input_state' <- GPIO_input env p ;;
    if negb input_state' then ret true else ret false
  else ret false.

(** The inner loop [for j in range(350)] of [HomeX]; [Some i] is
    [return (i)], [None] is the loop running out. *)
Fixpoint HomeX_bounce (env : environment) (i : nat) (js : list nat)
  : M (option nat) :=
  match js with
  | [] => ret None
  | j :: js' =>
      pressed <- CheckPress env XLimit ;;
      if pressed
      then
        print (ButtonPressedAfter i) ;;
        print (AlreadyHomedCheck j) ;;
        modify (set_GlobalX 0) ;;
        emit (Readout AxX 0) ;;
        ret (Some i)
      else MoveX XBACKWARD 1 SLOW ;; HomeX_bounce env i js'
  end.

(** The outer loop [for i in range(XMax + 200)]; [None] is the function
    falling off its end, which in Python returns [None]. *)
Fixpoint HomeX_seek (env : environment) (l : list nat) : M (option nat) :=
  match l with
  | [] => ret None
  | i :: l' =>
      pressed <- CheckPress env XLimit ;;
      r <- (if pressed
            then MoveX XFORWARD 300 SLOW ;; HomeX_bounce env i (range 350)
            else ret None) ;;
      match r with
      | Some v => ret (Some v)
      | None => MoveX XBACKWARD 1 FASTER ;; HomeX_seek env l'
      end
  end.

Definition HomeX (env : environment) : M (option nat) :=
  HomeX_seek env (range (Z.to_nat (XMax + 200))).

Fixpoint HomeY_bounce (env : environment) (i : nat) (js : list nat)
  : M (option nat) :=
  match js with
  | [] => ret None
  | j :: js' =>
      pressed <- CheckPress env YLimit ;;
      if pressed
      then
        print (ButtonPressedAfter i) ;;
        print (AlreadyHomedCheck j) ;;
        modify (set_GlobalY 0) ;;
        emit (Readout AxY 0) ;;
        ret (Some i)
      else MoveY YBACKWARD 1 SLOW ;; HomeY_bounce env i js'
  end.

Fixpoint HomeY_seek (env : environment) (l : list nat) : M (option nat) :=
  match l with
  | [] => ret None
  | i :: l' =>
      pressed <- CheckPress env YLimit ;;
      r <- (if pressed
            then MoveY YFORWARD 300 SLOW ;; HomeY_bounce env i (range 350)
            else ret None) ;;
      match r with
      | Some v => ret (Some v)
      | None => MoveY YBACKWARD 1 FASTER ;; HomeY_seek env l'
      end
  end.

Definition HomeY (env : environment) : M (option nat) :=
  HomeY_seek env (range (Z.to_nat (YMax + 200))).

(** [HomeZ]: the optical switch trips about a thousand steps above the true
    bottom, hence the 1200 forward, the 1400 bound and the 1000 back. *)
Fixpoint HomeZ_bounce (env : environment) (i : nat) (js : list nat)
  : M (option nat) :=
  match js with
  | [] => ret None
  | j :: js' =>
      pressed <- CheckPress env ZLimit ;;
      if pressed
      then
        MoveZ ZBACKWARD 1000 FAST ;;
        print (ButtonPressedAfter i) ;;
        print (AlreadyHomedCheck j) ;;
        modify (set_GlobalZ 0) ;;
        emit (Readout AxZ 0) ;;
        ret (Some i)
      else MoveZ ZBACKWARD 1 FAST ;; HomeZ_bounce env i js'
  end.

Fixpoint HomeZ_seek (env : environment) (l : list nat) : M (option nat) :=
  match l with
  | [] => ret None
  | i :: l' =>
      pressed <- CheckPress env ZLimit ;;
      r <- (if pressed
            then MoveZ ZFORWARD 1200 FAST ;; HomeZ_bounce env i (range 1400)
            else ret None) ;;
      match r with
      | Some v => ret (Some v)
      | None => MoveZ ZBACKWARD 1 FAST ;; HomeZ_seek env l'
      end
  end.

Definition HomeZ (env : environment) : M (option nat) :=
  HomeZ_seek env (range (Z.to_nat (ZMax + 500))).

(** Coarse seeking steps of [HomeX]: the single backward steps at [FASTER]
    (the bounce check steps at [SLOW]). *)
Definition is_coarse_X (e : event) : bool :=
  match e with
  | Step AxX FASTER => true
  | _ => false
  end.

Definition coarse_steps_X (l : list event) : nat :=
  length (filter is_coarse_X l).

(** ** The grid generator (lines 515-586) *)

(** [numpy.arange(start, stop, step)] on integers: [ceil((stop-start)/step)]
    values [start + k*step]; a zero step is refused. *)
Definition arange_len (start stop step : Z) : nat :=
  Z.to_nat (- ((start - stop) / step)).

Definition arange (start stop step : Z) : outcome (list Z) :=
  if step =? 0 then Raise ZeroStepError
  else Ret (map (fun k => start + Z.of_nat k * step)
                (range (arange_len start stop step))).

(** [l[::s]] for the two strides the source uses, [(-1)**i] being 1 or -1. *)
Definition stride (s : Z) (l : list Z) : list Z :=
  if 0 <? s then l else rev l.

Definition ones_like (l : list Z) : list Z := map (fun _ => 1) l.

(** [numpy.concatenate]: at least one array is needed. *)
Definition concatenate (ls : list (list Z)) : outcome (list Z) :=
  match ls with
  | [] => Raise ValueError
  | _ => Ret (concat ls)
  end.

(** Sequencing of the pure, possibly raising steps of [DefineScan]. *)
Definition and_then {A B : Type} (r : outcome A) (k : A -> outcome B)
  : outcome B :=
  match r with
  | Ret a => k a
  | Raise e => Raise e
  end.

(** Lines 537-586 of [DefineScan]: the raster over the four grids, repeated
    per Z value and then per R value. *)
Definition build_scan (xgrid ygrid zgrid rgrid : list Z)
  : outcome ScanLocations :=
  let xrows :=
    map (fun iy => stride ((-1) ^ Z.of_nat (fst iy)) xgrid) (enumerate ygrid) in
  let yrows :=
    map (fun iy => map (fun one => one * snd iy) (ones_like xgrid))
        (enumerate ygrid) in
  and_then (concatenate xrows) (fun xscan =>
  and_then (concatenate yrows) (fun yscan =>
  let NewXScan :=
    flat_map (fun i => map (fun j => nth j xscan 0) (range (length xscan)))
             (range (length zgrid)) in
  let NewYScan :=
    flat_map (fun i => map (fun j => nth j yscan 0) (range (length xscan)))
             (range (length zgrid)) in
  let NewZScan :=
    flat_map (fun i => map (fun j => nth i zgrid 0) (range (length xscan)))
             (range (length zgrid)) in
  let NewNewXScan :=
    flat_map (fun i => map (fun j => nth j NewXScan 0) (range (length NewXScan)))
             (range (length rgrid)) in
  let NewNewYScan :=
    flat_map (fun i => map (fun j => nth j NewYScan 0) (range (length NewXScan)))
             (range (length rgrid)) in
  let NewNewZScan :=
    flat_map (fun i => map (fun j => nth j NewZScan 0) (range (length NewXScan)))
             (range (length rgrid)) in
  let NewNewRScan :=
    flat_map (fun i => map (fun j => nth i rgrid 0) (range (length NewXScan)))
             (range (length rgrid)) in
  Ret (mkLocations NewNewXScan NewNewYScan NewNewZScan NewNewRScan))).

(** Lines 524-535: the inclusive bounds and the four grids. *)
Definition DefineScan (XMin XMax YMin YMax ZMin ZMax RMin RMax
                       XSteps YSteps ZSteps RSteps : Z)
  : outcome ScanLocations :=
  let XMax := XMax + 1 in
  let YMax := YMax + 1 in
  let ZMax := ZMax + 1 in
  let RMax := RMax + 1 in
  and_then (arange XMin XMax XSteps) (fun xgrid =>
  and_then (arange YMin YMax YSteps) (fun ygrid =>
  and_then (arange ZMin ZMax ZSteps) (fun zgrid =>
  and_then (arange RMin RMax RSteps) (fun rgrid =>
  build_scan xgrid ygrid zgrid rgrid)))).

(** The number of grid points of one axis for bounds [lo <= hi] and a
    positive step: [lo, lo+step, ...] up to [hi] inclusive. *)
Definition point_count (lo hi step : Z) : nat :=
  Z.to_nat ((hi - lo) / step + 1).

(** The (X, Y) projection of a plan. *)
Definition XY (loc : ScanLocations) : list (Z * Z) :=
  combine (locX loc) (locY loc).

(** ** The scan loop (lines 589-761) *)

(** The local variables [GridScan] sets up before its loop, either fresh or
    from the pickled [conditions]. *)
Record session : Type := mkSession {
  s_save_location : string;
  s_filetype : string;
  s_resolution : string;
  s_timeallowed : Z;
  s_num_failures : Z;
  s_original_pics : nat;
  s_original_time : Z;
  s_original_locations : ScanLocations;
  s_failed_pics : list string;
  s_failure_times : list Z
}.

Definition fresh_session (env : environment) (loc : ScanLocations)
    (start_time : Z) : session :=
  mkSession (askdirectory env) ".jpg" "640x480" 30 0
            (length (locX loc)) start_time loc [] [].

Definition restored_session (c : conditions) : session :=
  mkSession (save_location c) (filetype c) (resolution c) 0
            (num_failures c) (original_pics c) (original_time c)
            (original_locations c) (failed_pics c) (failure_times c).

(** The [if conditions == 'default'] block; [None] is ['default']. *)
Definition open_session (env : environment) (loc : ScanLocations)
    (conditions : option conditions) (start_time : Z) : session :=
  match conditions with
  | None => fresh_session env loc start_time
  | Some c => restored_session c
  end.

(** [len(set(RCoord))]. *)
Definition count_distinct (l : list Z) : nat := length (nodup Z.eq_dec l).

Definition folder_name (ss : session) (z r : Z) : string :=
  (s_save_location ss ++ "/Z" ++ zfill 4 (str z) ++ "R" ++ zfill 3 (str r))%string.

Definition picture_name (ss : session) (NumberOfRotations : nat)
    (x y z r : Z) : string :=
  ("X" ++ zfill 4 (str x) ++ "Y" ++ zfill 4 (str y) ++
   "Z" ++ zfill 4 (str z) ++ "R" ++ zfill 3 (str r) ++
   "of" ++ zfill 3 (str (Z.of_nat NumberOfRotations)) ++ s_filetype ss)%string.

(** [restart()] (lines 209-215): the reboot command is run and waited for,
    its output is printed, and the call returns. *)
Definition restart : M unit :=
  emit Shutdown ;;
  print ShutdownOutput.

(** [XCoord[i:]] and its three siblings. *)
Definition suffix (i : nat) (loc : ScanLocations) : ScanLocations :=
  mkLocations (skipn i (locX loc)) (skipn i (locY loc))
              (skipn i (locZ loc)) (skipn i (locR loc)).

(** The [else] branch of the third attempt (lines 695-733): [num_failures],
    [failed_pics] and [failure_times] are updated, the rest of the plan and
    the session are pickled, and [restart()] is called.  The locals as the
    branch leaves them are returned. *)
Definition checkpoint_and_restart (env : environment) (loc : ScanLocations)
    (ss : session) (i : nat) (name : string) : M session :=
  let UpdatedScanLocations := suffix i loc in
  let num_failures := s_num_failures ss + 1 in
  let failed_pics := s_failed_pics ss ++ [name] in
  now <- time_time env ;;
  let failure_times := s_failure_times ss ++ [now] in
  ri <- index (locR loc) i ;;
  let conditions :=
    mkConditions (s_save_location ss) ri (s_filetype ss) (s_resolution ss)
                 num_failures (s_original_pics ss) (s_original_time ss)
                 (s_original_locations ss) failed_pics failure_times in
  let scan_params := (UpdatedScanLocations, conditions) in
  print (ShowScanParams scan_params) ;;
  emit (PickleDump scan_params) ;;
  print RestartingSorry ;;
  restart ;;
  ret (mkSession (s_save_location ss) (s_filetype ss) (s_resolution ss)
                 (s_timeallowed ss) num_failures (s_original_pics ss)
                 (s_original_time ss) (s_original_locations ss)
                 failed_pics failure_times).

(** The body of [for w in range(3)], over the attempts still to make; the
    result is the session as the loop leaves it. *)
Fixpoint attempts (env : environment) (loc : ScanLocations) (ss : session)
    (i : nat) (folder name : string) (ws : list nat) : M session :=
  match ws with
  | [] => ret ss
  | w :: ws' =>
      emit (Fswebcam (folder ++ "/" ++ name)%string (s_resolution ss)) ;;
      match camera env i w with
      | Hangs => raise TimeoutExpired
      | FileWritten =>
          (if (0 <? w)%nat then print (ReconnectedThanks name) else ret tt) ;;
          ret ss
      | NoFile =>
          if (w <=? 1)%nat
          then
            print (UsbUnplugged (s_timeallowed ss)) ;;
            print (CheckIfFailed name) ;;
            emit (Beep (10 * s_timeallowed ss)) ;;
            attempts env loc ss i folder name ws'
          else
            ss' <- checkpoint_and_restart env loc ss i name ;;
            attempts env loc ss' i folder name ws'
      end
  end.

Definition is_TimeoutExpired (e : exn) : bool :=
  match e with
  | TimeoutExpired => true
  | _ => false
  end.

(** The [try] statement of one coordinate (lines 672-738): the three
    attempts and the [except subprocess.TimeoutExpired] handler, whose
    [continue] ends the iteration.  [communicate] raises before its attempt
    has changed any local, and only the last attempt changes them, so the
    handler goes on with the session of the [try]'s entry. *)
Definition capture_with_retries (env : environment) (loc : ScanLocations)
    (ss : session) (i : nat) (folder name : string) : M session :=
  try_except
    (attempts env loc ss i folder name (range 3))
    is_TimeoutExpired
    (print (CaptureTimedOut name) ;; emit Terminate ;; ret ss).

(** One iteration of the main loop; [ss] holds the locals on entry, the
    result holds them at the end of the iteration. *)
Definition scan_body (env : environment) (loc : ScanLocations) (ss : session)
    (num_pictures NumberOfRotations : nat) (i : nat) : M session :=
  (if (i mod 100 =? 0)%nat
   then print (PicturesRemaining (num_pictures - i) (s_original_pics ss)) ;;
        emit (Beep 3)
   else ret tt) ;;
  zf <- index (locZ loc) i ;;
  rf <- index (locR loc) i ;;
  let folder := folder_name ss zf rf in
  emit (MakeDirs folder) ;;
  xi <- index (locX loc) i ;;
  XGoTo (PyInt xi) 0 ;;
  yi <- index (locY loc) i ;;
  YGoTo (PyInt yi) 0 ;;
  zi <- index (locZ loc) i ;;
  ZGoTo (PyInt zi) 0 ;;
  ri <- index (locR loc) i ;;
  RGoTo (PyInt ri) 0 ;;
  emit Settle ;;
  let name := picture_name ss NumberOfRotations xi yi zi ri in
  capture_with_retries env loc ss i folder name.

(** After the loop (lines 741-761): the completion message, the rename of
    the checkpoint file, five beeps and the wait for the operator. *)
Definition finish_scan (env : environment) (ss : session) : M unit :=
  end_time <- time_time env ;;
  print (ScanCompleted (end_time - s_original_time ss) (s_original_pics ss)
                       (s_num_failures ss)) ;;
  emit RenameCheckpoint ;;
  for_each (range 5) (fun _ => emit (Beep 2)) ;;
  emit AskExit.

Definition GridScan (env : environment) (ScanLocations : ScanLocations)
    (conditions : option conditions) : M unit :=
  let XCoord := locX ScanLocations in
  let YCoord := locY ScanLocations in
  let ZCoord := locZ ScanLocations in
  let RCoord := locR ScanLocations in
  start_time <- time_time env ;;
  let ss := open_session env ScanLocations conditions start_time in
  let num_pictures := length XCoord in
  let NumberOfRotations := count_distinct RCoord in
  (* max(RCoord), min(RCoord) *)
  (match RCoord with
   | [] => raise ValueError
   | _ => ret tt
   end) ;;
  print (RestartedSoFar (s_num_failures ss)) ;;
  x0 <- index XCoord 0 ;;
  XGoTo (PyInt x0) 0 ;;
  y0 <- index YCoord 0 ;;
  YGoTo (PyInt y0) 0 ;;
  z0 <- index ZCoord 0 ;;
  ZGoTo (PyInt z0) 0 ;;
  r0 <- index RCoord 0 ;;
  RGoTo (PyInt r0) 0 ;;
  ss' <- for_fold (range num_pictures)
                  (fun ss i =>
                     scan_body env ScanLocations ss num_pictures
                               NumberOfRotations i)
                  ss ;;
  finish_scan env ss'.

(** ** Resume at start-up (lines 1401-1436) *)

(** [disk] is the content of [scandata.pkl], if the file exists. *)
Definition startup (env : environment) (disk : option scan_params) : M unit :=
  emit (Beep 1) ;;
  emit (Beep 1) ;;
  match disk with
  | None => print NoInterruptedScans
  | Some (locations, conditions) =>
      HomeX env ;;
      HomeY env ;;
      HomeZ env ;;
      modify (set_GlobalR (R_Location conditions)) ;;
      GridScan env locations (Some conditions)
  end.

(** ** Reading a run *)

(** The events the recovery claims are about, in the order they happened:
    one [Settle] per coordinate visited, the checkpoint writes and the
    reboot commands. *)
Definition is_milestone (e : event) : bool :=
  match e with
  | Settle | PickleDump _ | Shutdown => true
  | _ => false
  end.

Definition milestones (l : list event) : list event := filter is_milestone l.

Definition is_settle (e : event) : bool :=
  match e with
  | Settle => true
  | _ => false
  end.

(** How many coordinates a run visited. *)
Definition visits (l : list event) : nat := length (filter is_settle l).

(** Three clean failures at coordinate [i]. *)
Definition fails_three_times (env : environment) (i : nat) : Prop :=
  camera env i 0%nat = NoFile /\ camera env i 1%nat = NoFile /\
  camera env i 2%nat = NoFile.

(** The four lists of a plan have one length. *)
Definition same_lengths (loc : ScanLocations) : Prop :=
  length (locY loc) = length (locX loc) /\
  length (locZ loc) = length (locX loc) /\
  length (locR loc) = length (locX loc).

(** The session a run starts from: the counters of the pickled conditions,
    or zero and empty when fresh. *)
Definition prior_failures (c : option conditions) : Z :=
  match c with
  | None => 0
  | Some c => num_failures c
  end.

Definition prior_failed_pics (c : option conditions) : list string :=
  match c with
  | None => []
  | Some c => failed_pics c
  end.

Definition prior_failure_times (c : option conditions) : list Z :=
  match c with
  | None => []
  | Some c => failure_times c
  end.

(** The label of the picture at index [i] of a plan, as [GridScan] builds it
    in a run started with [conditions] at clock reading [start_time]. *)
Definition label_at (env : environment) (loc : ScanLocations)
    (conditions : option conditions) (start_time : Z) (i : nat) : string :=
  picture_name (open_session env loc conditions start_time)
               (count_distinct (locR loc))
               (nth i (locX loc) 0) (nth i (locY loc) 0)
               (nth i (locZ loc) 0) (nth i (locR loc) 0).

Definition is_fswebcam (e : event) : bool :=
  match e with
  | Fswebcam _ _ => true
  | _ => false
  end.

(** How many times the camera was invoked. *)
Definition shots (l : list event) : nat := length (filter is_fswebcam l).

Definition is_terminate (e : event) : bool :=
  match e with
  | Terminate => true
  | _ => false
  end.

(** How many capture processes were killed after a timeout. *)
Definition kills (l : list event) : nat := length (filter is_terminate l).

(** Events of moving, reporting and beeping: everything but the capture and
    recovery events. *)
Definition is_routine (e : event) : bool :=
  match e with
  | SetDir _ _ | Step _ _ | Readout _ _ | Print _ | Beep _ | MakeDirs _ => true
  | _ => false
  end.

(** ** Sample worlds and plans *)

(** Switches never pressed, a camera that always delivers. *)
Definition quiet_world : environment :=
  mkEnv (fun _ _ => true) (fun k => Z.of_nat k) "/scans"
        (fun _ _ => FileWritten).

(** The camera never writes a file at coordinate 1. *)
Definition unplugged_at_1 : environment :=
  mkEnv (fun _ _ => true) (fun k => 1000 + Z.of_nat k) "/scans"
        (fun i _ => if (i =? 1)%nat then NoFile else FileWritten).


(** The camera hangs on every attempt at coordinate 1. *)
Definition hangs_at_1 : environment :=
  mkEnv (fun _ _ => true) (fun k => 1000 + Z.of_nat k) "/scans"
        (fun i _ => if (i =? 1)%nat then Hangs else FileWritten).

(** The switch is pressed from the fifth read of the input on. *)
Definition pressed_after_4 : environment :=
  mkEnv (fun _ k => (k <? 4)%nat) (fun k => Z.of_nat k) "/scans"
        (fun _ _ => FileWritten).

(** The 3 by 2 plan of [DefineScan(0, 2, 0, 1, 0, 0, 0, 0, 1, 1, 1, 1)]. *)
Definition plan_3x2 : ScanLocations :=
  mkLocations [0; 1; 2; 2; 1; 0] [0; 0; 0; 1; 1; 1]
              [0; 0; 0; 0; 0; 0] [0; 0; 0; 0; 0; 0].

(** A checkpoint left on disk by a run whose first capture failed three
    times. *)
Definition checkpoint_3x2 : scan_params :=
  (plan_3x2,
   mkConditions "/scans" 0 ".jpg" "640x480" 1 6 1000 plan_3x2
                ["X0000Y0000Z0000R000of001.jpg"%string] [1001]).

(** ** Computations that only move, report and beep *)

Definition routine_events (l : list event) : Prop :=
  Forall (fun e => is_routine e = true) l.

(** [m] always returns, performs routine events only and does not read
    the clock. *)
Definition routine {A : Type} (m : M A) : Prop :=
  forall s, exists a s1 e1,
    m s = (Ret a, s1, e1) /\ routine_events e1 /\
    clock_reads s1 = clock_reads s.

(** ** The shape of a generated plan *)

(** The grid of one axis: what [arange(lo, hi + 1, step)] holds. *)
Definition grid (lo hi step : Z) : list Z :=
  map (fun k => lo + Z.of_nat k * step) (range (arange_len lo (hi + 1) step)).

(** The X-Y raster of lines 542-550, row after row. *)
Definition raster_x (xgrid ygrid : list Z) : list Z :=
  flat_map (fun iy => stride ((-1) ^ Z.of_nat (fst iy)) xgrid) (enumerate ygrid).

Definition raster_y (xgrid ygrid : list Z) : list Z :=
  flat_map (fun iy => repeat (snd iy) (length xgrid)) (enumerate ygrid).

(** A (min, max, step) triple the generator is meant for. *)
Definition valid_triple (lo hi step : Z) : Prop := lo <= hi /\ 0 < step.

(** The position of column [k] of row [j] of the Z block [z] of the R block
    [r] in a plan of [nx] by [ny] by [nz] points per R value. *)
Definition plan_index (nx ny nz : nat) (r z j k : nat) : nat :=
  (r * (nz * (ny * nx)) + (z * (ny * nx) + (j * nx + k)))%nat.

(** The column visited at step [k] of row [j]: forward on even rows,
    reversed on odd rows. *)
Definition serpentine_column (nx j k : nat) : nat :=
  if Nat.even j then k else (nx - 1 - k)%nat.

(** ** What a capture does to the scan *)

(** [after e x]: the run [x] with the events [e] performed before it. *)
Definition after {A : Type} (e : list event)
    (x : outcome A * rig * list event) : outcome A * rig * list event :=
  (result_of x, state_of x, e ++ events_of x).

(** The [scan_params] a run writes at its first three-fold failure, at
    index [i], the clock having been read [reads] times before the run. *)
Definition checkpoint_at (env : environment) (loc : ScanLocations)
    (conditions : option conditions) (reads : nat) (i : nat) : scan_params :=
  let ss := open_session env loc conditions (clock env reads) in
  (suffix i loc,
   mkConditions (s_save_location ss) (nth i (locR loc) 0) (s_filetype ss)
                (s_resolution ss) (s_num_failures ss + 1) (s_original_pics ss)
                (s_original_time ss) (s_original_locations ss)
                (s_failed_pics ss ++ [label_at env loc conditions (clock env reads) i])
                (s_failure_times ss ++ [clock env (S reads)])).

(** The session after the capture of picture [name] has failed three
    times, the failure being timed [now]. *)
Definition failure_recorded (ss : session) (name : string) (now : Z) : session :=
  mkSession (s_save_location ss) (s_filetype ss) (s_resolution ss)
            (s_timeallowed ss) (s_num_failures ss + 1) (s_original_pics ss)
            (s_original_time ss) (s_original_locations ss)
            (s_failed_pics ss ++ [name]) (s_failure_times ss ++ [now]).

(** The [conditions] dictionary pickled from a session at rotation [ri]. *)
Definition conditions_of (ss : session) (ri : Z) : conditions :=
  mkConditions (s_save_location ss) ri (s_filetype ss) (s_resolution ss)
               (s_num_failures ss) (s_original_pics ss) (s_original_time ss)
               (s_original_locations ss) (s_failed_pics ss)
               (s_failure_times ss).

(** The name [GridScan] gives picture [i] of the plan in a session. *)
Definition name_at (loc : ScanLocations) (ss : session)
    (NumberOfRotations : nat) (i : nat) : string :=
  picture_name ss NumberOfRotations (nth i (locX loc) 0) (nth i (locY loc) 0)
               (nth i (locZ loc) 0) (nth i (locR loc) 0).






(** Coarse seeking steps of [HomeY]: the single backward steps at [FASTER]. *)
Definition is_coarse_Y (e : event) : bool :=
  match e with
  | Step AxY FASTER => true
  | _ => false
  end.

Definition coarse_steps_Y (l : list event) : nat :=
  length (filter is_coarse_Y l).

(** A switch that bounces: its input is low on every other read only. *)
Definition bouncing_switch : environment :=
  mkEnv (fun _ k => Nat.odd k) (fun k => Z.of_nat k) "/scans"
        (fun _ _ => FileWritten).

(** An input that is never low on two reads in a row. *)
Definition never_low_twice (env : environment) (p : pin) : Prop :=
  forall k, gpio_level env p k = false -> gpio_level env p (S k) = true.

(** ** Properties of all the events of a run *)

(** Whatever state [m] starts from and however it ends, its events
    satisfy [Q]. *)
Definition always {A : Type} (Q : list event -> Prop) (m : M A) : Prop :=
  forall s, Q (events_of (m s)).

(** Every coordinate of the plan is a destination the GoTo of its axis
    accepts with the default lower bound 0. *)
Definition within_limits (loc : ScanLocations) : Prop :=
  Forall (fun x => 0 <= x <= XMax) (locX loc) /\
  Forall (fun y => 0 <= y <= YMax) (locY loc) /\
  Forall (fun z => 0 <= z <= ZMax) (locZ loc) /\
  Forall (fun r => 0 <= r <= StepsPerRotation) (locR loc).

(** No out-of-range report among the events. *)
Definition in_range_only (l : list event) : Prop :=
  reports_out_of_range l = false.

(** At most three camera invocations per coordinate visited. *)
Definition three_shots_per_visit (l : list event) : Prop :=
  (shots l <= 3 * visits l)%nat.

(** ** Scan settings (lines 27-44, 900-921 and 994-1047) *)

(** The module-level scan variables the buttons set and [GuiScan] reads. *)
Record scan_settings : Type := mkSettings {
  XScanMin : Z;
  XScanMax : Z;
  YScanMin : Z;
  YScanMax : Z;
  ZScanMin : Z;
  ZScanMax : Z;
  RScanMin : Z;
  RScanMax : Z;
  XScanStep : Z;
  YScanStep : Z;
  ZScanStep : Z;
  RScanNumber : Z
}.

(** Their values when the program starts. *)
Definition initial_settings : scan_settings :=
  mkSettings 0 0 0 0 0 0 0 160 150 150 1 1.

(** The choices of the rotation dropdown. *)
Definition FactorsOf160 : list Z := [1; 2; 4; 5; 8; 10; 16; 20; 32; 40; 80; 160].

(** The buttons that mark the scan volume: each takes the current position
    of its axis.  A button returns the new settings and the line it
    prints. *)
Definition SetXLowerBound (s : rig) (g : scan_settings) : scan_settings * string :=
  let g' := mkSettings (GlobalX s) (XScanMax g) (YScanMin g) (YScanMax g)
                       (ZScanMin g) (ZScanMax g) (RScanMin g) (RScanMax g)
                       (XScanStep g) (YScanStep g) (ZScanStep g) (RScanNumber g) in
  (g', ("Lower Boundary for X Scan has been set to " ++ str (XScanMin g'))%string).

Definition SetXUpperBound (s : rig) (g : scan_settings) : scan_settings * string :=
  let g' := mkSettings (XScanMin g) (GlobalX s) (YScanMin g) (YScanMax g)
                       (ZScanMin g) (ZScanMax g) (RScanMin g) (RScanMax g)
                       (XScanStep g) (YScanStep g) (ZScanStep g) (RScanNumber g) in
  (g', ("Upper Boundary for X Scan has been set to " ++ str (XScanMax g'))%string).

Definition SetYLowerBound (s : rig) (g : scan_settings) : scan_settings * string :=
  let g' := mkSettings (XScanMin g) (XScanMax g) (GlobalY s) (YScanMax g)
                       (ZScanMin g) (ZScanMax g) (RScanMin g) (RScanMax g)
                       (XScanStep g) (YScanStep g) (ZScanStep g) (RScanNumber g) in
  (g', ("Lower Boundary for Y Scan has been set to " ++ str (YScanMin g'))%string).

Definition SetYUpperBound (s : rig) (g : scan_settings) : scan_settings * string :=
  let g' := mkSettings (XScanMin g) (XScanMax g) (YScanMin g) (GlobalY s)
                       (ZScanMin g) (ZScanMax g) (RScanMin g) (RScanMax g)
                       (XScanStep g) (YScanStep g) (ZScanStep g) (RScanNumber g) in
  (g', ("Upper Boundary for Y Scan has been set to " ++ str (YScanMax g'))%string).

Definition SetZLowerBound (s : rig) (g : scan_settings) : scan_settings * string :=
  let g' := mkSettings (XScanMin g) (XScanMax g) (YScanMin g) (YScanMax g)
                       (GlobalZ s) (ZScanMax g) (RScanMin g) (RScanMax g)
                       (XScanStep g) (YScanStep g) (ZScanStep g) (RScanNumber g) in
  (g', ("Lower Boundary for Z Scan has been set to " ++ str (ZScanMin g'))%string).

Definition SetZUpperBound (s : rig) (g : scan_settings) : scan_settings * string :=
  let g' := mkSettings (XScanMin g) (XScanMax g) (YScanMin g) (YScanMax g)
                       (ZScanMin g) (GlobalZ s) (RScanMin g) (RScanMax g)
                       (XScanStep g) (YScanStep g) (ZScanStep g) (RScanNumber g) in
  (g', ("Upper Boundary for Z Scan has been set to " ++ str (ZScanMax g'))%string).

(** The step buttons take the current position as the step size. *)
Definition SetZStep (s : rig) (g : scan_settings) : scan_settings * string :=
  let g' := mkSettings (XScanMin g) (XScanMax g) (YScanMin g) (YScanMax g)
                       (ZScanMin g) (ZScanMax g) (RScanMin g) (RScanMax g)
                       (XScanStep g) (YScanStep g) (GlobalZ s) (RScanNumber g) in
  (g', ("Step size for Z has been set to " ++ str (ZScanStep g'))%string).

(** [SetXStep] prints [YScanStep], as the source does. *)
Definition SetXStep (s : rig) (g : scan_settings) : scan_settings * string :=
  let g' := mkSettings (XScanMin g) (XScanMax g) (YScanMin g) (YScanMax g)
                       (ZScanMin g) (ZScanMax g) (RScanMin g) (RScanMax g)
                       (GlobalX s) (YScanStep g) (ZScanStep g) (RScanNumber g) in
  (g', ("Step size for X has been set to " ++ str (YScanStep g'))%string).

Definition SetYStep (s : rig) (g : scan_settings) : scan_settings * string :=
  let g' := mkSettings (XScanMin g) (XScanMax g) (YScanMin g) (YScanMax g)
                       (ZScanMin g) (ZScanMax g) (RScanMin g) (RScanMax g)
                       (XScanStep g) (GlobalY s) (ZScanStep g) (RScanNumber g) in
  (g', ("Step size for Y has been set to " ++ str (YScanStep g'))%string).

(** [SetR]: the number of rotations chosen in the dropdown. *)
Definition SetR (choice : Z) (g : scan_settings) : scan_settings * string :=
  let g' := mkSettings (XScanMin g) (XScanMax g) (YScanMin g) (YScanMax g)
                       (ZScanMin g) (ZScanMax g) (RScanMin g) (RScanMax g)
                       (XScanStep g) (YScanStep g) (ZScanStep g) choice in
  (g', ("viewing " ++ str (RScanNumber g') ++ " points of view")%string).

(** The plan [GuiScan] builds and hands to [GridScan] (lines 903-912).
    [RScanStep = 160/RScanNumber] is a float in the source; for the dropdown
    choices, the divisors of 160 in [FactorsOf160], it is the whole number
    [160 / RScanNumber], which is what this definition takes.  The upper
    rotation bound passed is [StepsPerRotation], not [RScanMax]. *)
Definition GuiScan_plan (g : scan_settings) : outcome ScanLocations :=
  let RScanStep := 160 / RScanNumber g in
  DefineScan (XScanMin g) (XScanMax g) (YScanMin g) (YScanMax g)
             (ZScanMin g) (ZScanMax g) (RScanMin g) StepsPerRotation
             (XScanStep g) (YScanStep g) (ZScanStep g) RScanStep.

(** ** The repeatability test (lines 768-817) *)

(** The locals of the test loop; [t_ranloc] is [None] while [ranloc] has
    not been assigned. *)
Record trial_state : Type := mkTrial {
  t_total_steps : Z;
  t_ranlocold : Z;
  t_ListOfLoc : list Z;
  t_ranloc : option Z
}.

(** How a call of [XRepeatTest] ends: it prints its report (total steps,
    number of trials, steps to home, last location, imperfection) and
    returns [[total_steps, imperfection, ListOfLoc]], or it stops at
    [imperfection = ranloc - StepsToHome] with [UnboundLocalError] ([ranloc]
    never assigned) or with [TypeError] ([StepsToHome] is [None]). *)
Inductive repeat_result : Type :=
| RepeatReturned (report : Z * nat * nat * Z * Z)
                 (total_steps imperfection : Z) (ListOfLoc : list Z)
| RepeatUnboundLocalError
| RepeatTypeError.

(** The loop [for i in range(num_trials)]; [randrange i] is what
    [random.randrange(100, XMax-100)] returns in iteration [i]. *)
Fixpoint XRepeat_trials (randrange : nat -> Z) (l : list nat) (t : trial_state)
  : M trial_state :=
  match l with
  | [] => ret t
  | i :: l' =>
      let ranloc := randrange i in
      let t' := mkTrial (t_total_steps t + Z.abs (t_ranlocold t - ranloc))
                        ranloc (t_ListOfLoc t ++ [ranloc]) (Some ranloc) in
      XGoTo (PyInt ranloc) 0 ;;
      XRepeat_trials randrange l' t'
  end.

Definition XRepeatTest (env : environment) (randrange : nat -> Z)
    (num_trials : nat) : M repeat_result :=
  HomeX env ;;
  HomeX env ;;
  HomeX env ;;
  t <- XRepeat_trials randrange (range num_trials) (mkTrial 0 0 [0] None) ;;
  StepsToHome <- HomeX env ;;
  match t_ranloc t with
  | None => ret RepeatUnboundLocalError
  | Some ranloc =>
      match StepsToHome with
      | None => ret RepeatTypeError
      | Some h =>
          let imperfection := ranloc - Z.of_nat h in
          ret (RepeatReturned
                 (t_total_steps t, num_trials, h, ranloc, imperfection)
                 (t_total_steps t) imperfection (t_ListOfLoc t))
      end
  end.

(** * Properties *)

(** ** Running sequenced computations *)

Lemma bind_ret_run {A B : Type} (m : M A) (k : A -> M B) s a s1 e1 :
  m s = (Ret a, s1, e1) ->
  bind m k s = (result_of (k a s1), state_of (k a s1), e1 ++ events_of (k a s1)).
Proof.
  intros Hm. unfold bind, result_of, state_of, events_of. rewrite Hm.
  destruct (k a s1) as [[r s2] e2]. reflexivity.
Qed.

Lemma run_eta {A : Type} (x : outcome A * rig * list event) :
  x = (result_of x, state_of x, events_of x).
Proof. destruct x as [[r s] e]. reflexivity. Qed.

Lemma filter_repeat_false {A : Type} (f : A -> bool) (a : A) (n : nat) :
  f a = false -> filter f (repeat a n) = [].
Proof.
  intros Hf. induction n as [|n IH]; simpl; [reflexivity|].
  rewrite Hf. exact IH.
Qed.

Lemma filter_repeat_true {A : Type} (f : A -> bool) (a : A) (n : nat) :
  f a = true -> filter f (repeat a n) = repeat a n.
Proof.
  intros Hf. induction n as [|n IH]; simpl; [reflexivity|].
  rewrite Hf, IH. reflexivity.
Qed.

(** ** Axis drivers *)

Lemma MoveX_run direction numsteps delay s :
  MoveX direction numsteps delay s =
  (Ret tt,
   set_GlobalX (if direction =? XFORWARD then GlobalX s + numsteps
                else GlobalX s - numsteps) s,
   SetDir AxX direction :: repeat (Step AxX delay) (Z.to_nat numsteps) ++
   [Readout AxX (if direction =? XFORWARD then GlobalX s + numsteps
                 else GlobalX s - numsteps)]).
Proof.
  unfold MoveX, bind, emit, emits, get, modify.
  destruct (direction =? XFORWARD); simpl; reflexivity.
Qed.

Lemma MoveY_run direction numsteps delay s :
  MoveY direction numsteps delay s =
  (Ret tt,
   set_GlobalY (if direction =? YFORWARD then GlobalY s + numsteps
                else GlobalY s - numsteps) s,
   SetDir AxY direction :: repeat (Step AxY delay) (Z.to_nat numsteps) ++
   [Readout AxY (if direction =? YFORWARD then GlobalY s + numsteps
                 else GlobalY s - numsteps)]).
Proof.
  unfold MoveY, bind, emit, emits, get, modify.
  destruct (direction =? YFORWARD); simpl; reflexivity.
Qed.

Lemma MoveZ_run direction numsteps delay s :
  MoveZ direction numsteps delay s =
  (Ret tt,
   set_GlobalZ (if direction =? ZFORWARD then GlobalZ s + numsteps
                else GlobalZ s - numsteps) s,
   SetDir AxZ direction :: repeat (Step AxZ delay) (Z.to_nat numsteps) ++
   [Readout AxZ (if direction =? ZFORWARD then GlobalZ s + numsteps
                 else GlobalZ s - numsteps)]).
Proof.
  unfold MoveZ, bind, emit, emits, get, modify.
  destruct (direction =? ZFORWARD); simpl; reflexivity.
Qed.

Lemma MoveR_run direction numsteps delay s :
  MoveR direction numsteps delay s =
  (Ret tt, s,
   SetDir AxR direction :: repeat (Step AxR delay) (Z.to_nat numsteps)).
Proof.
  unfold MoveR, bind, emit, emits. simpl. reflexivity.
Qed.

Lemma pulses_move (a : axis) (d : Z) (delay : speed) (n : nat) (tail : list event) :
  Forall (fun e => is_step a e = false) tail ->
  pulses a (SetDir a d :: repeat (Step a delay) n ++ tail) = n.
Proof.
  intros Htail. unfold pulses. cbn [filter is_step].
  rewrite filter_app, filter_repeat_true by (destruct a; reflexivity).
  replace (filter (is_step a) tail) with (@nil event).
  - rewrite app_nil_r. destruct a; cbn; apply repeat_length.
  - symmetry. induction Htail as [|e l He _ IH]; simpl; [reflexivity|].
    rewrite He. exact IH.
Qed.

(** The three linear axes track their position: forward adds the step
    count, backward subtracts it. *)
Lemma MoveXYZ_tracks_position (n : Z) (delay : speed) (s : rig) :
  GlobalX (state_of (MoveX XFORWARD n delay s)) = GlobalX s + n /\
  GlobalX (state_of (MoveX XBACKWARD n delay s)) = GlobalX s - n /\
  GlobalY (state_of (MoveY YFORWARD n delay s)) = GlobalY s + n /\
  GlobalY (state_of (MoveY YBACKWARD n delay s)) = GlobalY s - n /\
  GlobalZ (state_of (MoveZ ZFORWARD n delay s)) = GlobalZ s + n /\
  GlobalZ (state_of (MoveZ ZBACKWARD n delay s)) = GlobalZ s - n.
Proof.
  rewrite !MoveX_run, !MoveY_run, !MoveZ_run. cbn. repeat split; reflexivity.
Qed.

(** The rotation driver leaves every position variable as it found it,
    whatever the direction and the step count. *)
Lemma MoveR_keeps_state (direction n : Z) (delay : speed) (s : rig) :
  state_of (MoveR direction n delay s) = s.
Proof. rewrite MoveR_run. reflexivity. Qed.

(** C7 (at the input where the code departs from it): [MoveR] forward by 8
    steps from position 0 sends the 8 pulses, yet the tracked rotation
    position is still 0 afterwards, not 8. *)
Theorem MoveR_does_not_track_position :
  pulses AxR (events_of (MoveR RFORWARD 8 SLOW rig0)) = 8%nat /\
  GlobalR (state_of (MoveR RFORWARD 8 SLOW rig0)) = 0 /\
  GlobalR (state_of (MoveR RFORWARD 8 SLOW rig0)) <> GlobalR rig0 + 8.
Proof.
  rewrite MoveR_run. cbn. repeat split. discriminate.
Qed.

(** ** Absolute moves *)

Lemma XGoTo_in_range (d XMin : Z) (s : rig) :
  XMin <= d <= XMax ->
  XGoTo (PyInt d) XMin s =
  (Ret None, set_GlobalX d s,
   SetDir AxX (if d - GlobalX s >? 0 then XFORWARD else XBACKWARD) ::
   repeat (Step AxX FASTER) (Z.abs_nat (d - GlobalX s)) ++ [Readout AxX d]).
Proof.
  intros [Hlo Hhi]. unfold XGoTo.
  replace ((d <=? XMax) && (d >=? XMin))%bool with true
    by (symmetry; apply andb_true_intro; split;
        [apply Z.leb_le | apply Z.geb_le]; assumption).
  unfold bind at 1, get. unfold bind at 1, ret.
  destruct (d - GlobalX s >? 0) eqn:Hd; rewrite MoveX_run; cbn.
  - apply Z.gtb_lt in Hd.
    replace (GlobalX s + (d - GlobalX s)) with d by lia.
    replace (Z.to_nat (d - GlobalX s)) with (Z.abs_nat (d - GlobalX s)) by lia.
    rewrite !app_nil_r. reflexivity.
  - assert (d - GlobalX s <= 0) by (rewrite Z.gtb_ltb in Hd; apply Z.ltb_ge in Hd; lia).
    replace (GlobalX s - Z.abs (d - GlobalX s)) with d by lia.
    replace (Z.to_nat (Z.abs (d - GlobalX s))) with (Z.abs_nat (d - GlobalX s)) by lia.
    rewrite !app_nil_r. reflexivity.
Qed.

Lemma YGoTo_in_range (d YMin : Z) (s : rig) :
  YMin <= d <= YMax ->
  YGoTo (PyInt d) YMin s =
  (Ret None, set_GlobalY d s,
   SetDir AxY (if d - GlobalY s >? 0 then YFORWARD else YBACKWARD) ::
   repeat (Step AxY FASTER) (Z.abs_nat (d - GlobalY s)) ++ [Readout AxY d]).
Proof.
  intros [Hlo Hhi]. unfold YGoTo.
  replace ((d <=? YMax) && (d >=? YMin))%bool with true
    by (symmetry; apply andb_true_intro; split;
        [apply Z.leb_le | apply Z.geb_le]; assumption).
  unfold bind at 1, get. unfold bind at 1, ret.
  destruct (d - GlobalY s >? 0) eqn:Hd; rewrite MoveY_run; cbn.
  - apply Z.gtb_lt in Hd.
    replace (GlobalY s + (d - GlobalY s)) with d by lia.
    replace (Z.to_nat (d - GlobalY s)) with (Z.abs_nat (d - GlobalY s)) by lia.
    rewrite !app_nil_r. reflexivity.
  - assert (d - GlobalY s <= 0) by (rewrite Z.gtb_ltb in Hd; apply Z.ltb_ge in Hd; lia).
    replace (GlobalY s - Z.abs (d - GlobalY s)) with d by lia.
    replace (Z.to_nat (Z.abs (d - GlobalY s))) with (Z.abs_nat (d - GlobalY s)) by lia.
    rewrite !app_nil_r. reflexivity.
Qed.

Lemma ZGoTo_in_range (d ZMin : Z) (s : rig) :
  ZMin <= d <= ZMax ->
  ZGoTo (PyInt d) ZMin s =
  (Ret None, set_GlobalZ d s,
   SetDir AxZ (if d - GlobalZ s >? 0 then ZFORWARD else ZBACKWARD) ::
   repeat (Step AxZ FASTERER) (Z.abs_nat (d - GlobalZ s)) ++ [Readout AxZ d]).
Proof.
  intros [Hlo Hhi]. unfold ZGoTo.
  replace ((d <=? ZMax) && (d >=? ZMin))%bool with true
    by (symmetry; apply andb_true_intro; split;
        [apply Z.leb_le | apply Z.geb_le]; assumption).
  unfold bind at 1, get. unfold bind at 1, ret.
  destruct (d - GlobalZ s >? 0) eqn:Hd; rewrite MoveZ_run; cbn.
  - apply Z.gtb_lt in Hd.
    replace (GlobalZ s + (d - GlobalZ s)) with d by lia.
    replace (Z.to_nat (d - GlobalZ s)) with (Z.abs_nat (d - GlobalZ s)) by lia.
    rewrite !app_nil_r. reflexivity.
  - assert (d - GlobalZ s <= 0) by (rewrite Z.gtb_ltb in Hd; apply Z.ltb_ge in Hd; lia).
    replace (GlobalZ s - Z.abs (d - GlobalZ s)) with d by lia.
    replace (Z.to_nat (Z.abs (d - GlobalZ s))) with (Z.abs_nat (d - GlobalZ s)) by lia.
    rewrite !app_nil_r. reflexivity.
Qed.

Lemma RGoTo_in_range (d RMin : Z) (s : rig) :
  RMin <= d <= StepsPerRotation ->
  RGoTo (PyInt d) RMin s =
  (Ret None, s,
   SetDir AxR (if d - GlobalR s >? 0 then RFORWARD else RBACKWARD) ::
   repeat (Step AxR FAST) (Z.abs_nat (d - GlobalR s))).
Proof.
  intros [Hlo Hhi]. unfold RGoTo.
  replace ((d <=? StepsPerRotation) && (d >=? RMin))%bool with true
    by (symmetry; apply andb_true_intro; split;
        [apply Z.leb_le | apply Z.geb_le]; assumption).
  unfold bind at 1, get. unfold bind at 1, ret.
  destruct (d - GlobalR s >? 0) eqn:Hd; rewrite MoveR_run; cbn.
  - apply Z.gtb_lt in Hd.
    replace (Z.to_nat (d - GlobalR s)) with (Z.abs_nat (d - GlobalR s)) by lia.
    rewrite !app_nil_r. reflexivity.
  - replace (Z.to_nat (Z.abs (d - GlobalR s))) with (Z.abs_nat (d - GlobalR s)) by lia.
    rewrite !app_nil_r. reflexivity.
Qed.

Lemma out_of_range_test (d lo hi : Z) :
  ~ (lo <= d <= hi) -> ((d <=? hi) && (d >=? lo))%bool = false.
Proof.
  intros H. apply andb_false_iff.
  destruct (Z.leb_spec d hi); [right | left; reflexivity].
  rewrite Z.geb_leb. apply Z.leb_gt. lia.
Qed.

Lemma XGoTo_out_of_range (d XMin : Z) (s : rig) :
  ~ (XMin <= d <= XMax) ->
  XGoTo (PyInt d) XMin s = (Ret None, s, [Print DestinationOutOfRange]).
Proof. intros H. unfold XGoTo. rewrite out_of_range_test by exact H. reflexivity. Qed.

Lemma YGoTo_out_of_range (d YMin : Z) (s : rig) :
  ~ (YMin <= d <= YMax) ->
  YGoTo (PyInt d) YMin s = (Ret None, s, [Print DestinationOutOfRange]).
Proof. intros H. unfold YGoTo. rewrite out_of_range_test by exact H. reflexivity. Qed.

Lemma ZGoTo_out_of_range (d ZMin : Z) (s : rig) :
  ~ (ZMin <= d <= ZMax) ->
  ZGoTo (PyInt d) ZMin s = (Ret None, s, [Print DestinationOutOfRange]).
Proof. intros H. unfold ZGoTo. rewrite out_of_range_test by exact H. reflexivity. Qed.

Lemma RGoTo_out_of_range (d RMin : Z) (s : rig) :
  ~ (RMin <= d <= StepsPerRotation) ->
  RGoTo (PyInt d) RMin s =
  (Ret None, s, [Print (RotationOutOfRange RMin StepsPerRotation)]).
Proof. intros H. unfold RGoTo. rewrite out_of_range_test by exact H. reflexivity. Qed.

Lemma move_not_reported (a : axis) (d : Z) (delay : speed) (n : nat)
    (tail : list event) :
  reports_out_of_range tail = false ->
  reports_out_of_range (SetDir a d :: repeat (Step a delay) n ++ tail) = false.
Proof.
  intros Ht. unfold reports_out_of_range in *. cbn [existsb is_out_of_range_report orb].
  rewrite existsb_app, Ht, orb_false_r.
  induction n as [|n IH]; simpl; [reflexivity | exact IH].
Qed.

Lemma readout_not_step (a : axis) (v : Z) :
  Forall (fun e => is_step a e = false) [Readout a v].
Proof. constructor; [destruct a; reflexivity | constructor]. Qed.

(** The linear axes do not move on a repeated GoTo: from any state, once
    [XGoTo d] has run, a second [XGoTo d] sends no pulse and changes no
    position variable; likewise for Y and Z. *)
Lemma linear_goto_twice (d lo : Z) (s : rig) :
  (lo <= d <= XMax ->
   let s1 := state_of (XGoTo (PyInt d) lo s) in
   pulses AxX (events_of (XGoTo (PyInt d) lo s1)) = 0%nat /\
   state_of (XGoTo (PyInt d) lo s1) = s1) /\
  (lo <= d <= YMax ->
   let s1 := state_of (YGoTo (PyInt d) lo s) in
   pulses AxY (events_of (YGoTo (PyInt d) lo s1)) = 0%nat /\
   state_of (YGoTo (PyInt d) lo s1) = s1) /\
  (lo <= d <= ZMax ->
   let s1 := state_of (ZGoTo (PyInt d) lo s) in
   pulses AxZ (events_of (ZGoTo (PyInt d) lo s1)) = 0%nat /\
   state_of (ZGoTo (PyInt d) lo s1) = s1).
Proof.
  repeat split; intros.
  - try subst s1. rewrite !XGoTo_in_range by assumption. cbn [state_of events_of fst snd].
    rewrite pulses_move by apply readout_not_step.
    cbn. rewrite Z.sub_diag. reflexivity.
  - try subst s1. rewrite !XGoTo_in_range by assumption. reflexivity.
  - try subst s1. rewrite !YGoTo_in_range by assumption. cbn [state_of events_of fst snd].
    rewrite pulses_move by apply readout_not_step.
    cbn. rewrite Z.sub_diag. reflexivity.
  - try subst s1. rewrite !YGoTo_in_range by assumption. reflexivity.
  - try subst s1. rewrite !ZGoTo_in_range by assumption. cbn [state_of events_of fst snd].
    rewrite pulses_move by apply readout_not_step.
    cbn. rewrite Z.sub_diag. reflexivity.
  - try subst s1. rewrite !ZGoTo_in_range by assumption. reflexivity.
Qed.

(** C5 (at the input where the code departs from it): on the rotation axis
    a repeated GoTo moves again.  From position 0, [RGoTo(5)] sends 5 pulses
    and leaves [GlobalR] at 0, so the second [RGoTo(5)] sends 5 more pulses
    instead of none. *)
Theorem RGoTo_twice_steps_again :
  let first := RGoTo (PyInt 5) 0 rig0 in
  let second := RGoTo (PyInt 5) 0 (state_of first) in
  pulses AxR (events_of first) = 5%nat /\
  GlobalR (state_of first) = 0 /\
  pulses AxR (events_of second) = 5%nat /\
  pulses AxR (events_of second) <> 0%nat.
Proof. cbv. repeat split. discriminate. Qed.

(** C6, as stated, fails: a GoTo to the axis maximum plus one does not fail
    with an error.  On X, Y and Z it returns normally, with the value a
    carried-out GoTo returns, after printing its message; nothing is
    raised. *)
Lemma goto_past_max_raises_nothing :
  result_of (XGoTo (PyInt (XMax + 1)) 0 rig0) = Ret None /\
  result_of (YGoTo (PyInt (YMax + 1)) 0 rig0) = Ret None /\
  result_of (ZGoTo (PyInt (ZMax + 1)) 0 rig0) = Ret None /\
  result_of (XGoTo (PyInt (XMax + 1)) 0 rig0) =
    result_of (XGoTo (PyInt XMax) 0 rig0) /\
  (forall e : exn, result_of (XGoTo (PyInt (XMax + 1)) 0 rig0) <> Raise e) /\
  events_of (XGoTo (PyInt (XMax + 1)) 0 rig0) = [Print DestinationOutOfRange].
Proof.
  vm_compute. repeat split; try reflexivity. intros e H. discriminate H.
Qed.

(** C6, amended: on each of X, Y and Z a GoTo to exactly the axis maximum
    is carried out (no out-of-range report, the pulses for the distance are
    sent, the position becomes the maximum), and a GoTo to the maximum plus
    one is refused by a message only: it prints that the destination is out
    of range and returns normally, with no pulse and no change of the rig. *)
Theorem goto_axis_max_boundary (xmin ymin zmin : Z) (s : rig) :
  xmin <= XMax -> ymin <= YMax -> zmin <= ZMax ->
  (result_of (XGoTo (PyInt XMax) xmin s) = Ret None /\
   reports_out_of_range (events_of (XGoTo (PyInt XMax) xmin s)) = false /\
   pulses AxX (events_of (XGoTo (PyInt XMax) xmin s)) = Z.abs_nat (XMax - GlobalX s) /\
   GlobalX (state_of (XGoTo (PyInt XMax) xmin s)) = XMax /\
   XGoTo (PyInt (XMax + 1)) xmin s = (Ret None, s, [Print DestinationOutOfRange])) /\
  (result_of (YGoTo (PyInt YMax) ymin s) = Ret None /\
   reports_out_of_range (events_of (YGoTo (PyInt YMax) ymin s)) = false /\
   pulses AxY (events_of (YGoTo (PyInt YMax) ymin s)) = Z.abs_nat (YMax - GlobalY s) /\
   GlobalY (state_of (YGoTo (PyInt YMax) ymin s)) = YMax /\
   YGoTo (PyInt (YMax + 1)) ymin s = (Ret None, s, [Print DestinationOutOfRange])) /\
  (result_of (ZGoTo (PyInt ZMax) zmin s) = Ret None /\
   reports_out_of_range (events_of (ZGoTo (PyInt ZMax) zmin s)) = false /\
   pulses AxZ (events_of (ZGoTo (PyInt ZMax) zmin s)) = Z.abs_nat (ZMax - GlobalZ s) /\
   GlobalZ (state_of (ZGoTo (PyInt ZMax) zmin s)) = ZMax /\
   ZGoTo (PyInt (ZMax + 1)) zmin s = (Ret None, s, [Print DestinationOutOfRange])).
Proof.
  intros Hx Hy Hz.
  assert (HX : xmin <= XMax <= XMax) by lia.
  assert (HY : ymin <= YMax <= YMax) by lia.
  assert (HZ : zmin <= ZMax <= ZMax) by lia.
  rewrite (XGoTo_in_range _ _ s HX), (YGoTo_in_range _ _ s HY),
          (ZGoTo_in_range _ _ s HZ).
  cbn [result_of state_of events_of fst snd].
  rewrite !pulses_move by apply readout_not_step.
  rewrite !move_not_reported by reflexivity.
  repeat split;
    first [ apply XGoTo_out_of_range | apply YGoTo_out_of_range
          | apply ZGoTo_out_of_range ]; lia.
Qed.

Lemma goto_axis_max_boundary_default :
  GlobalX (state_of (XGoTo (PyInt XMax) 0 rig0)) = XMax /\
  XGoTo (PyInt (XMax + 1)) 0 rig0 = (Ret None, rig0, [Print DestinationOutOfRange]).
Proof.
  assert (Hx : 0 <= XMax) by (unfold XMax; lia).
  assert (Hy : 0 <= YMax) by (unfold YMax; lia).
  assert (Hz : 0 <= ZMax) by (unfold ZMax; lia).
  pose proof (goto_axis_max_boundary 0 0 0 rig0 Hx Hy Hz) as H.
  split; apply H.
Defined.




(** ** The grid generator on the scenario of the specification *)

(** C4: [DefineScan(0, 2, 0, 1, 0, 0, 0, 0, 1, 1, 1, 1)] returns 6
    coordinates whose (X, Y) projections are, in order, (0,0), (1,0), (2,0),
    (2,1), (1,1), (0,1); Z and R are 0 throughout. *)
Theorem DefineScan_3x2_scenario :
  DefineScan 0 2 0 1 0 0 0 0 1 1 1 1 = Ret plan_3x2 /\
  length (XY plan_3x2) = 6%nat /\
  XY plan_3x2 = [(0, 0); (1, 0); (2, 0); (2, 1); (1, 1); (0, 1)].
Proof. vm_compute. repeat split. Qed.

(** ** Routine computations *)

Lemma bind_ret_elim {A B : Type} (m : M A) (k : A -> M B) s a s1 e1 r s2 e2 :
  m s = (Ret a, s1, e1) -> k a s1 = (r, s2, e2) ->
  bind m k s = (r, s2, e1 ++ e2).
Proof. intros Hm Hk. unfold bind. rewrite Hm, Hk. reflexivity. Qed.

Lemma routine_ret {A : Type} (a : A) : routine (ret a).
Proof. intros s. exists a, s, []. repeat split. constructor. Qed.

Lemma routine_get : routine get.
Proof. intros s. exists s, s, []. repeat split. constructor. Qed.

Lemma routine_emit (e : event) : is_routine e = true -> routine (emit e).
Proof.
  intros He s. exists tt, s, [e]. repeat split. constructor; [exact He | constructor].
Qed.

Lemma routine_print (m : message) : routine (print m).
Proof. apply routine_emit. reflexivity. Qed.

Lemma routine_emits (l : list event) : routine_events l -> routine (emits l).
Proof. intros Hl s. exists tt, s, l. repeat split. exact Hl. Qed.

Lemma routine_modify (f : rig -> rig) :
  (forall s, clock_reads (f s) = clock_reads s) -> routine (modify f).
Proof. intros Hf s. exists tt, (f s), []. repeat split; [constructor | apply Hf]. Qed.

Lemma routine_bind {A B : Type} (m : M A) (k : A -> M B) :
  routine m -> (forall a, routine (k a)) -> routine (bind m k).
Proof.
  intros Hm Hk s.
  destruct (Hm s) as (a & s1 & e1 & Hrun1 & Hev1 & Hc1).
  destruct (Hk a s1) as (b & s2 & e2 & Hrun2 & Hev2 & Hc2).
  exists b, s2, (e1 ++ e2). split; [|split].
  - eapply bind_ret_elim; eassumption.
  - apply Forall_app. split; assumption.
  - congruence.
Qed.

Lemma routine_if {A : Type} (b : bool) (m1 m2 : M A) :
  routine m1 -> routine m2 -> routine (if b then m1 else m2).
Proof. destruct b; auto. Qed.

Lemma routine_steps (a : axis) (delay : speed) (n : nat) :
  routine_events (repeat (Step a delay) n).
Proof. apply Forall_forall. intros e He. apply repeat_spec in He. subst e. reflexivity. Qed.

Create HintDb routine.
#[local] Hint Resolve routine_ret routine_get routine_print routine_emits
  routine_steps routine_if : routine.
#[local] Hint Extern 1 (routine (bind _ _)) =>
  apply routine_bind; [ | intros ] : routine.
#[local] Hint Extern 1 (routine (emit _)) =>
  apply routine_emit; reflexivity : routine.
#[local] Hint Extern 1 (routine (modify _)) =>
  apply routine_modify; intros; reflexivity : routine.

Lemma routine_MoveX direction numsteps delay : routine (MoveX direction numsteps delay).
Proof. unfold MoveX. auto 20 with routine. Qed.

Lemma routine_MoveY direction numsteps delay : routine (MoveY direction numsteps delay).
Proof. unfold MoveY. auto 20 with routine. Qed.

Lemma routine_MoveZ direction numsteps delay : routine (MoveZ direction numsteps delay).
Proof. unfold MoveZ. auto 20 with routine. Qed.

Lemma routine_MoveR direction numsteps delay : routine (MoveR direction numsteps delay).
Proof. unfold MoveR. auto 20 with routine. Qed.

#[local] Hint Resolve routine_MoveX routine_MoveY routine_MoveZ routine_MoveR : routine.

Lemma routine_XGoTo dest lo : routine (XGoTo dest lo).
Proof.
  unfold XGoTo. destruct dest as [d|]; [|auto with routine].
  destruct ((d <=? XMax) && (d >=? lo))%bool; auto 20 with routine.
Qed.

Lemma routine_YGoTo dest lo : routine (YGoTo dest lo).
Proof.
  unfold YGoTo. destruct dest as [d|]; [|auto with routine].
  destruct ((d <=? YMax) && (d >=? lo))%bool; auto 20 with routine.
Qed.

Lemma routine_ZGoTo dest lo : routine (ZGoTo dest lo).
Proof.
  unfold ZGoTo. destruct dest as [d|]; [|auto with routine].
  destruct ((d <=? ZMax) && (d >=? lo))%bool; auto 20 with routine.
Qed.

Lemma routine_RGoTo dest lo : routine (RGoTo dest lo).
Proof.
  unfold RGoTo. destruct dest as [d|]; [|auto with routine].
  destruct ((d <=? StepsPerRotation) && (d >=? lo))%bool; auto 20 with routine.
Qed.

#[local] Hint Resolve routine_XGoTo routine_YGoTo routine_ZGoTo routine_RGoTo : routine.

Lemma routine_GPIO_input env p : routine (GPIO_input env p).
Proof.
  intros s. exists (gpio_level env p (gpio_reads s)), (tick_gpio s), [].
  repeat split. constructor.
Qed.

#[local] Hint Resolve routine_GPIO_input : routine.

Lemma routine_CheckPress env p : routine (CheckPress env p).
Proof. unfold CheckPress. auto 20 with routine. Qed.

#[local] Hint Resolve routine_CheckPress : routine.

Lemma routine_HomeX_bounce env i js : routine (HomeX_bounce env i js).
Proof. induction js as [|j js IH]; cbn [HomeX_bounce]; auto 20 with routine. Qed.

Lemma routine_HomeY_bounce env i js : routine (HomeY_bounce env i js).
Proof. induction js as [|j js IH]; cbn [HomeY_bounce]; auto 20 with routine. Qed.

Lemma routine_HomeZ_bounce env i js : routine (HomeZ_bounce env i js).
Proof. induction js as [|j js IH]; cbn [HomeZ_bounce]; auto 20 with routine. Qed.

#[local] Hint Resolve routine_HomeX_bounce routine_HomeY_bounce
  routine_HomeZ_bounce : routine.

Lemma routine_HomeX_seek env l : routine (HomeX_seek env l).
Proof.
  induction l as [|i l IH]; cbn [HomeX_seek]; [auto with routine|].
  apply routine_bind; [auto with routine | intros pressed].
  apply routine_bind; [auto 20 with routine | intros [v|]; auto 20 with routine].
Qed.

Lemma routine_HomeY_seek env l : routine (HomeY_seek env l).
Proof.
  induction l as [|i l IH]; cbn [HomeY_seek]; [auto with routine|].
  apply routine_bind; [auto with routine | intros pressed].
  apply routine_bind; [auto 20 with routine | intros [v|]; auto 20 with routine].
Qed.

Lemma routine_HomeZ_seek env l : routine (HomeZ_seek env l).
Proof.
  induction l as [|i l IH]; cbn [HomeZ_seek]; [auto with routine|].
  apply routine_bind; [auto with routine | intros pressed].
  apply routine_bind; [auto 20 with routine | intros [v|]; auto 20 with routine].
Qed.

(** The three homing procedures always return: they raise nothing, whatever
    the switches do. *)
Lemma routine_Home env :
  routine (HomeX env) /\ routine (HomeY env) /\ routine (HomeZ env).
Proof.
  repeat split; [apply routine_HomeX_seek | apply routine_HomeY_seek
                | apply routine_HomeZ_seek].
Qed.

Lemma routine_filter (f : event -> bool) (l : list event) :
  (forall e, is_routine e = true -> f e = false) ->
  routine_events l -> filter f l = [].
Proof.
  intros Hf Hl. induction Hl as [|e l He _ IH]; simpl; [reflexivity|].
  rewrite (Hf e He). exact IH.
Qed.

Lemma routine_milestones (l : list event) :
  routine_events l -> milestones l = [].
Proof. apply routine_filter. intros [] H; try reflexivity; discriminate H. Qed.

Lemma routine_visits (l : list event) : routine_events l -> visits l = 0%nat.
Proof.
  intros H. unfold visits. rewrite routine_filter; [reflexivity| |exact H].
  intros [] He; try reflexivity; discriminate He.
Qed.

Lemma routine_shots (l : list event) : routine_events l -> shots l = 0%nat.
Proof.
  intros H. unfold shots. rewrite routine_filter; [reflexivity| |exact H].
  intros [] He; try reflexivity; discriminate He.
Qed.

Lemma routine_kills (l : list event) : routine_events l -> kills l = 0%nat.
Proof.
  intros H. unfold kills. rewrite routine_filter; [reflexivity| |exact H].
  intros [] He; try reflexivity; discriminate He.
Qed.

(** ** Homing *)

Lemma CheckPress_run env p s :
  exists b s1, CheckPress env p s = (Ret b, s1, []).
Proof.
  unfold CheckPress, bind, GPIO_input, ret.
  destruct (gpio_level env p (gpio_reads s)); cbn; [do 2 eexists; reflexivity|].
  destruct (gpio_level env p (S (gpio_reads s))); cbn;
    do 2 eexists; reflexivity.
Qed.

Lemma coarse_steps_X_app l1 l2 :
  coarse_steps_X (l1 ++ l2) = (coarse_steps_X l1 + coarse_steps_X l2)%nat.
Proof. unfold coarse_steps_X. rewrite filter_app, length_app. reflexivity. Qed.

Lemma pulses_app a l1 l2 :
  pulses a (l1 ++ l2) = (pulses a l1 + pulses a l2)%nat.
Proof. unfold pulses. rewrite filter_app, length_app. reflexivity. Qed.

Lemma coarse_move d delay n v :
  coarse_steps_X (SetDir AxX d :: repeat (Step AxX delay) n ++ [Readout AxX v]) =
  match delay with
  | FASTER => n
  | _ => 0%nat
  end.
Proof.
  unfold coarse_steps_X. cbn [filter is_coarse_X]. rewrite filter_app.
  destruct delay;
    rewrite ?filter_repeat_true, ?filter_repeat_false by reflexivity;
    cbn; rewrite ?app_nil_r, ?repeat_length; reflexivity.
Qed.

(** The bounce check of [HomeX] takes no coarse step and at most one slow
    step per iteration; when it confirms it returns [i] with the position
    reset to 0. *)
Lemma HomeX_bounce_spec env i js s :
  exists r s1 e1,
    HomeX_bounce env i js s = (Ret r, s1, e1) /\
    coarse_steps_X e1 = 0%nat /\
    (pulses AxX e1 <= length js)%nat /\
    (forall v, r = Some v -> v = i /\ GlobalX s1 = 0).
Proof.
  revert s. induction js as [|j js IH]; intros s; cbn [HomeX_bounce].
  - exists None, s, []. repeat split; try discriminate. cbn. lia.
  - destruct (CheckPress_run env XLimit s) as (b & s1 & Hc). destruct b.
    + eexists _, _, _. split; [eapply bind_ret_elim; [exact Hc | reflexivity]|].
      cbn. repeat split; try lia; congruence.
    + destruct (IH (state_of (MoveX XBACKWARD 1 SLOW s1)))
        as (r & s2 & e2 & Hrun & Hcoarse & Hpulses & Hres).
      eexists _, _, _. split.
      * eapply bind_ret_elim; [exact Hc|].
        eapply bind_ret_elim; [apply MoveX_run | exact Hrun].
      * cbn [app].
        split; [|split; [|exact Hres]].
        -- rewrite app_comm_cons, coarse_steps_X_app, coarse_move. exact Hcoarse.
        -- rewrite app_comm_cons, pulses_app, pulses_move
             by apply readout_not_step.
           cbn [length]. lia.
Qed.

(** The seeking loop of [HomeX] over [a, a+1, ..., a+n-1]. *)
Lemma HomeX_seek_spec env n : forall a s,
  exists r s1 e1,
    HomeX_seek env (seq a n) s = (Ret r, s1, e1) /\
    (pulses AxX e1 <= n * 651)%nat /\
    match r with
    | Some v => (a <= v < a + n)%nat /\ GlobalX s1 = 0 /\
                coarse_steps_X e1 = (v - a)%nat
    | None => coarse_steps_X e1 = n
    end.
Proof.
  induction n as [|n IH]; intros a s; cbn [seq HomeX_seek].
  - exists None, s, []. repeat split. cbn. lia.
  - destruct (CheckPress_run env XLimit s) as (b & s1 & Hc).
    assert (Hnext : forall s2, exists r s3 e3,
              (MoveX XBACKWARD 1 FASTER ;; HomeX_seek env (seq (S a) n)) s2 =
                (Ret r, s3, e3) /\
              (pulses AxX e3 <= 1 + n * 651)%nat /\
              match r with
              | Some v => (S a <= v < S a + n)%nat /\ GlobalX s3 = 0 /\
                          coarse_steps_X e3 = (1 + (v - S a))%nat
              | None => coarse_steps_X e3 = S n
              end).
    { intros s2.
      destruct (IH (S a) (state_of (MoveX XBACKWARD 1 FASTER s2)))
        as (r & s3 & e3 & Hrun & Hp & Hr).
      eexists r, s3, _. split.
      - eapply bind_ret_elim; [apply MoveX_run | exact Hrun].
      - rewrite pulses_app, coarse_steps_X_app, coarse_move,
          pulses_move by apply readout_not_step.
        split; [lia|]. destruct r as [v|]; intuition lia. }
    destruct b.
    + destruct (HomeX_bounce_spec env a (range 350)
                  (state_of (MoveX XFORWARD 300 SLOW s1)))
        as (r & s2 & e2 & Hrun & Hcoarse & Hpulses & Hres).
      assert (Hfwd : exists e0,
                (MoveX XFORWARD 300 SLOW ;;
                 HomeX_bounce env a (range 350)) s1 = (Ret r, s2, e0 ++ e2) /\
                coarse_steps_X e0 = 0%nat /\ pulses AxX e0 = 300%nat).
      { eexists. split; [eapply bind_ret_elim; [apply MoveX_run | exact Hrun]|].
        rewrite coarse_move, pulses_move by apply readout_not_step.
        split; [reflexivity | lia]. }
      destruct Hfwd as (e0 & Hfwd & Hfwd_coarse & Hfwd_pulses).
      destruct r as [v|].
      * destruct (Hres v eq_refl) as [-> Hzero].
        eexists _, _, _. split.
        -- eapply bind_ret_elim; [exact Hc|].
           eapply bind_ret_elim; [exact Hfwd | reflexivity].
        -- cbn [app]. rewrite app_nil_r, pulses_app, coarse_steps_X_app.
           rewrite Hfwd_coarse, Hfwd_pulses, Hcoarse.
           unfold range in Hpulses. rewrite length_seq in Hpulses.
           repeat split; lia.
      * destruct (Hnext s2) as (r' & s3 & e3 & Hrun3 & Hp3 & Hr3).
        eexists r', s3, _. split.
        -- eapply bind_ret_elim; [exact Hc|].
           eapply bind_ret_elim; [exact Hfwd | exact Hrun3].
        -- cbn [app]. rewrite !pulses_app, !coarse_steps_X_app.
           rewrite Hfwd_coarse, Hfwd_pulses, Hcoarse.
           unfold range in Hpulses. rewrite length_seq in Hpulses.
           split; [lia|]. destruct r' as [v|]; intuition lia.
    + destruct (Hnext s1) as (r' & s3 & e3 & Hrun3 & Hp3 & Hr3).
      eexists r', s3, _. split.
      * eapply bind_ret_elim; [exact Hc|].
        eapply bind_ret_elim; [reflexivity | exact Hrun3].
      * cbn [app]. split; [lia|]. destruct r' as [v|]; intuition lia.
Qed.

(** A home that succeeds: the switch closes at the fifth read, the first
    check after four coarse steps sees it, the bounce check confirms it at
    once; [HomeX] returns 4 and the position is 0. *)
Example HomeX_confirms_after_4 :
  result_of (HomeX pressed_after_4 rig0) = Ret (Some 4%nat) /\
  GlobalX (state_of (HomeX pressed_after_4 rig0)) = 0 /\
  coarse_steps_X (events_of (HomeX pressed_after_4 rig0)) = 4%nat /\
  pulses AxX (events_of (HomeX pressed_after_4 rig0)) = 304%nat.
Proof. vm_compute. repeat split. Qed.

(** C9, as stated, fails when the switch never trips: [HomeX] runs its
    2000 coarse steps and then returns normally, with the value [None];
    nothing is raised, nothing is reported, and the position is left at
    -2000 instead of being reset.  The caller at start-up goes on: with
    switches that never trip, the resume block still scans the 6 pictures of
    the checkpoint. *)
Lemma HomeX_exhausted_returns_None :
  result_of (HomeX quiet_world rig0) = Ret None /\
  (forall e, result_of (HomeX quiet_world rig0) <> Raise e) /\
  coarse_steps_X (events_of (HomeX quiet_world rig0)) = Z.to_nat (XMax + 200) /\
  existsb (fun e => match e with Print _ => true | _ => false end)
          (events_of (HomeX quiet_world rig0)) = false /\
  GlobalX (state_of (HomeX quiet_world rig0)) = -2000 /\
  result_of (startup quiet_world (Some checkpoint_3x2) rig0) = Ret tt /\
  visits (events_of (startup quiet_world (Some checkpoint_3x2) rig0)) = 6%nat.
Proof.
  assert (H : HomeX quiet_world rig0 =
              (Ret None, state_of (HomeX quiet_world rig0),
               events_of (HomeX quiet_world rig0))).
  { vm_compute. reflexivity. }
  split; [rewrite H; reflexivity|].
  split; [intros e; rewrite H; discriminate|].
  vm_compute. repeat split.
Qed.

(** C9, amended: [HomeX] always terminates by returning, after at most
    [XMax + 200] coarse steps (and at most 651 pulses per coarse
    iteration).  A successful home returns the number [i] of coarse steps
    taken, with [i < XMax + 200], and sets the X position to 0.  When the
    bound is exhausted without the switch confirming, the call returns
    [None] after exactly [XMax + 200] coarse steps: no error is raised, the
    caller tells the two apart by the returned value.  [HomeY] and [HomeZ]
    return in every case as well. *)
Theorem HomeX_bounded (env : environment) (s : rig) :
  (exists r s1 e1,
     HomeX env s = (Ret r, s1, e1) /\
     (coarse_steps_X e1 <= Z.to_nat (XMax + 200))%nat /\
     (pulses AxX e1 <= Z.to_nat (XMax + 200) * 651)%nat /\
     match r with
     | Some i => (i < Z.to_nat (XMax + 200))%nat /\
                 coarse_steps_X e1 = i /\ GlobalX s1 = 0
     | None => coarse_steps_X e1 = Z.to_nat (XMax + 200)
     end) /\
  (exists r s1 e1, HomeY env s = (Ret r, s1, e1)) /\
  (exists r s1 e1, HomeZ env s = (Ret r, s1, e1)).
Proof.
  split; [|split].
  - unfold HomeX, range.
    destruct (HomeX_seek_spec env (Z.to_nat (XMax + 200)) 0%nat s)
      as (r & s1 & e1 & Hrun & Hp & Hr).
    exists r, s1, e1. split; [exact Hrun|].
    destruct r as [i|].
    + destruct Hr as (Hi & Hzero & Hcoarse). rewrite Nat.sub_0_r in Hcoarse.
      repeat split; try assumption; lia.
    + repeat split; try assumption; lia.
  - destruct (routine_Home env) as (_ & RY & _).
    destruct (RY s) as (r & s1 & e1 & Hrun & _). exists r, s1, e1. exact Hrun.
  - destruct (routine_Home env) as (_ & _ & RZ).
    destruct (RZ s) as (r & s1 & e1 & Hrun & _). exists r, s1, e1. exact Hrun.
Qed.

(** ** Lists cut into blocks *)

Section Blocks.
Context {A B : Type}.

Lemma map_nth_range (l : list B) (d : B) :
  map (fun j => nth j l d) (range (length l)) = l.
Proof.
  unfold range. induction l as [|b l IH]; cbn [length seq map nth]; [reflexivity|].
  rewrite <- seq_shift, map_map. cbn [nth]. rewrite IH. reflexivity.
Qed.

Lemma map_nth_range_len (l : list B) (n : nat) (d : B) :
  length l = n -> map (fun j => nth j l d) (range n) = l.
Proof. intros <-. apply map_nth_range. Qed.

Lemma map_const_range (b : B) (n : nat) :
  map (fun _ : nat => b) (range n) = repeat b n.
Proof.
  unfold range. generalize 0%nat. induction n as [|n IH]; intros a; cbn; [reflexivity|].
  rewrite IH. reflexivity.
Qed.

Lemma flat_map_length_blocks (f : A -> list B) (m : nat) (l : list A) :
  (forall a, In a l -> length (f a) = m) ->
  length (flat_map f l) = (length l * m)%nat.
Proof.
  induction l as [|a l IH]; intros Hf; cbn [flat_map length]; [reflexivity|].
  rewrite length_app, Hf, IH by (try intros; auto using in_eq, in_cons).
  reflexivity.
Qed.

Lemma nth_flat_map_blocks (f : A -> list B) (m : nat) (d : B) (a0 : A) :
  forall (l : list A) (i k : nat),
    (forall a, In a l -> length (f a) = m) ->
    (i < length l)%nat -> (k < m)%nat ->
    nth (i * m + k) (flat_map f l) d = nth k (f (nth i l a0)) d.
Proof.
  induction l as [|a l IH]; intros i k Hf Hi Hk; cbn [length] in Hi; [lia|].
  cbn [flat_map]. destruct i as [|i].
  - cbn [Nat.mul Nat.add nth]. apply app_nth1. rewrite Hf by apply in_eq. exact Hk.
  - rewrite app_nth2; rewrite Hf by apply in_eq; [|nia].
    replace (S i * m + k - m)%nat with (i * m + k)%nat by nia.
    cbn [nth]. apply IH; [intros; apply Hf, in_cons; assumption | lia | exact Hk].
Qed.
End Blocks.

Lemma nth_range (n i : nat) : (i < n)%nat -> nth i (range n) 0%nat = i.
Proof. intros Hi. unfold range. rewrite seq_nth by exact Hi. reflexivity. Qed.

Lemma length_range (n : nat) : length (range n) = n.
Proof. apply length_seq. Qed.

Lemma length_enumerate {A : Type} (l : list A) : length (enumerate l) = length l.
Proof. unfold enumerate. rewrite length_combine, length_seq. apply Nat.min_id. Qed.

Lemma nth_enumerate (l : list Z) (j : nat) :
  (j < length l)%nat -> nth j (enumerate l) (0%nat, 0) = (j, nth j l 0).
Proof.
  intros Hj. unfold enumerate.
  rewrite combine_nth by apply length_seq.
  rewrite seq_nth by exact Hj. reflexivity.
Qed.

Lemma length_stride (s : Z) (l : list Z) : length (stride s l) = length l.
Proof. unfold stride. destruct (0 <? s); [reflexivity | apply length_rev]. Qed.

Lemma minus_one_power (j : nat) :
  (-1) ^ Z.of_nat j = if Nat.even j then 1 else -1.
Proof.
  induction j as [|j IH]; [reflexivity|].
  rewrite Nat2Z.inj_succ, Z.pow_succ_r, IH by lia.
  rewrite Nat.even_succ, <- Nat.negb_even.
  destruct (Nat.even j); reflexivity.
Qed.

(** Row [j] of the raster runs forward when [j] is even and backward when
    it is odd. *)
Lemma stride_row (j : nat) (l : list Z) :
  stride ((-1) ^ Z.of_nat j) l = if Nat.even j then l else rev l.
Proof. rewrite minus_one_power. destruct (Nat.even j); reflexivity. Qed.

Lemma ones_like_times (l : list Z) (y : Z) :
  map (fun one => one * y) (ones_like l) = repeat y (length l).
Proof.
  unfold ones_like. rewrite map_map.
  induction l as [|a l IH]; cbn [map length repeat]; [reflexivity|].
  rewrite IH, Z.mul_1_l. reflexivity.
Qed.

Lemma length_raster_x (xgrid ygrid : list Z) :
  length (raster_x xgrid ygrid) = (length ygrid * length xgrid)%nat.
Proof.
  unfold raster_x.
  rewrite (flat_map_length_blocks _ (length xgrid)), length_enumerate;
    [reflexivity | intros; apply length_stride].
Qed.

Lemma length_raster_y (xgrid ygrid : list Z) :
  length (raster_y xgrid ygrid) = (length ygrid * length xgrid)%nat.
Proof.
  unfold raster_y.
  rewrite (flat_map_length_blocks _ (length xgrid)), length_enumerate;
    [reflexivity | intros; apply repeat_length].
Qed.

(** ** The normal form of a generated plan *)

Lemma build_scan_no_rows (xgrid zgrid rgrid : list Z) :
  build_scan xgrid [] zgrid rgrid = Raise ValueError.
Proof. reflexivity. Qed.

Lemma build_scan_normal (xgrid ygrid zgrid rgrid : list Z) :
  ygrid <> [] ->
  let xscan := raster_x xgrid ygrid in
  let yscan := raster_y xgrid ygrid in
  build_scan xgrid ygrid zgrid rgrid =
  Ret (mkLocations
         (flat_map (fun _ => flat_map (fun _ => xscan) (range (length zgrid)))
                   (range (length rgrid)))
         (flat_map (fun _ => flat_map (fun _ => yscan) (range (length zgrid)))
                   (range (length rgrid)))
         (flat_map (fun _ =>
                      flat_map (fun i => repeat (nth i zgrid 0) (length xscan))
                               (range (length zgrid)))
                   (range (length rgrid)))
         (flat_map (fun i => repeat (nth i rgrid 0)
                                    (length zgrid * length xscan))
                   (range (length rgrid)))).
Proof.
  intros Hy xscan yscan. unfold build_scan.
  destruct ygrid as [|y0 ygrid]; [contradiction|].
  change (enumerate (y0 :: ygrid))
    with ((0%nat, y0) :: combine (seq 1 (length ygrid)) ygrid).
  cbn [map concatenate and_then].
  set (e := (0%nat, y0) :: combine (seq 1 (length ygrid)) ygrid).
  assert (He : e = enumerate (y0 :: ygrid)) by reflexivity.
  change (stride ((-1) ^ Z.of_nat (fst (0%nat, y0))) xgrid ::
          map (fun iy => stride ((-1) ^ Z.of_nat (fst iy)) xgrid)
              (combine (seq 1 (length ygrid)) ygrid))
    with (map (fun iy => stride ((-1) ^ Z.of_nat (fst iy)) xgrid) e).
  change (map (fun one => one * snd (0%nat, y0)) (ones_like xgrid) ::
          map (fun iy => map (fun one => one * snd iy) (ones_like xgrid))
              (combine (seq 1 (length ygrid)) ygrid))
    with (map (fun iy => map (fun one => one * snd iy) (ones_like xgrid)) e).
  rewrite <- !flat_map_concat_map.
  replace (flat_map (fun iy => map (fun one => one * snd iy) (ones_like xgrid)) e)
    with yscan
    by (unfold yscan, raster_y; rewrite <- He; apply flat_map_ext;
        intros; symmetry; apply ones_like_times).
  replace (flat_map (fun iy => stride ((-1) ^ Z.of_nat (fst iy)) xgrid) e)
    with xscan by (unfold xscan, raster_x; rewrite He; reflexivity).
  assert (Hlen : length yscan = length xscan)
    by (unfold xscan, yscan; rewrite length_raster_x, length_raster_y; reflexivity).
  rewrite (map_nth_range_len xscan), (map_nth_range_len yscan)
    by (reflexivity || exact Hlen).
  rewrite (flat_map_ext
             (fun i => map (fun _ : nat => nth i zgrid 0) (range (length xscan)))
             (fun i => repeat (nth i zgrid 0) (length xscan)))
    by (intros; apply map_const_range).
  set (NX := flat_map (fun _ : nat => xscan) (range (length zgrid))).
  set (NY := flat_map (fun _ : nat => yscan) (range (length zgrid))).
  set (NZ := flat_map (fun i : nat => repeat (nth i zgrid 0) (length xscan))
                      (range (length zgrid))).
  assert (HNX : length NX = (length zgrid * length xscan)%nat)
    by (unfold NX; rewrite (flat_map_length_blocks _ (length xscan)), length_range;
        auto).
  assert (HNY : length NY = length NX)
    by (unfold NY; rewrite (flat_map_length_blocks _ (length xscan)), length_range;
        auto).
  assert (HNZ : length NZ = length NX)
    by (unfold NZ; rewrite (flat_map_length_blocks _ (length xscan)), length_range;
        [auto | intros; apply repeat_length]).
  rewrite (map_nth_range_len NX), (map_nth_range_len NY), (map_nth_range_len NZ)
    by (reflexivity || assumption).
  rewrite (flat_map_ext
             (fun i => map (fun _ : nat => nth i rgrid 0) (range (length NX)))
             (fun i => repeat (nth i rgrid 0) (length zgrid * length xscan)))
    by (intros; rewrite HNX; apply map_const_range).
  reflexivity.
Qed.

(** ** Grids *)

Lemma arange_grid (lo hi step : Z) :
  step <> 0 -> arange lo (hi + 1) step = Ret (grid lo hi step).
Proof.
  intros Hstep. unfold arange, grid.
  destruct (Z.eqb_spec step 0); [contradiction | reflexivity].
Qed.

Lemma arange_zero_step (lo hi : Z) : arange lo hi 0 = Raise ZeroStepError.
Proof. reflexivity. Qed.

Lemma arange_len_valid (lo hi step : Z) :
  valid_triple lo hi step ->
  arange_len lo (hi + 1) step = point_count lo hi step.
Proof.
  intros [Hle Hstep]. unfold arange_len, point_count. f_equal.
  pose proof (Z.div_mod (hi - lo) step ltac:(lia)) as Hdm.
  pose proof (Z.mod_pos_bound (hi - lo) step Hstep) as Hmod.
  assert (Hq : (lo - (hi + 1)) / step = - ((hi - lo) / step) - 1).
  { symmetry. apply (Z.div_unique _ _ _ (step - 1 - (hi - lo) mod step)); lia. }
  lia.
Qed.

Lemma length_grid (lo hi step : Z) :
  valid_triple lo hi step ->
  length (grid lo hi step) = point_count lo hi step.
Proof.
  intros H. unfold grid. rewrite length_map, length_range. apply arange_len_valid, H.
Qed.

Lemma point_count_positive (lo hi step : Z) :
  valid_triple lo hi step -> (0 < point_count lo hi step)%nat.
Proof.
  intros [Hle Hstep]. unfold point_count.
  pose proof (Z.div_pos (hi - lo) step ltac:(lia) Hstep). lia.
Qed.

Lemma nth_grid (lo hi step : Z) (k : nat) :
  (k < length (grid lo hi step))%nat ->
  nth k (grid lo hi step) 0 = lo + Z.of_nat k * step.
Proof.
  unfold grid. rewrite length_map, length_range. intros Hk.
  rewrite (nth_indep _ 0 (lo + Z.of_nat 0 * step))
    by (rewrite length_map, length_range; exact Hk).
  rewrite (map_nth (fun k => lo + Z.of_nat k * step)), nth_range by exact Hk.
  reflexivity.
Qed.

(** Every point of a grid lies within the bounds it was generated from. *)
Lemma grid_within_bounds (lo hi step : Z) (k : nat) :
  valid_triple lo hi step -> (k < point_count lo hi step)%nat ->
  lo <= lo + Z.of_nat k * step <= hi.
Proof.
  intros [Hle Hstep] Hk. unfold point_count in Hk.
  pose proof (Z.div_pos (hi - lo) step ltac:(lia) Hstep) as Hq.
  pose proof (Z.mul_div_le (hi - lo) step Hstep) as Hm.
  assert (Z.of_nat k <= (hi - lo) / step) by lia.
  nia.
Qed.

(** ** Lengths and positions in a generated plan *)

Lemma build_scan_lengths (xgrid ygrid zgrid rgrid : list Z) (loc : ScanLocations) :
  build_scan xgrid ygrid zgrid rgrid = Ret loc ->
  let n := (length rgrid * (length zgrid * (length ygrid * length xgrid)))%nat in
  length (locX loc) = n /\ length (locY loc) = n /\
  length (locZ loc) = n /\ length (locR loc) = n.
Proof.
  intros Hrun n.
  destruct ygrid as [|y0 ygrid]; [discriminate Hrun|].
  rewrite build_scan_normal in Hrun by discriminate.
  injection Hrun as <-. cbn [locX locY locZ locR].
  set (yg := y0 :: ygrid) in *.
  pose proof (length_raster_x xgrid yg) as Hx.
  pose proof (length_raster_y xgrid yg) as Hy.
  assert (Hin : forall (l : list Z) (m : nat), length l = m ->
            length (flat_map (fun _ : nat => l) (range (length zgrid))) =
            (length zgrid * m)%nat).
  { intros l m Hl.
    rewrite (flat_map_length_blocks _ m), length_range; auto. }
  repeat split.
  - rewrite (flat_map_length_blocks _ (length zgrid * (length yg * length xgrid))),
      length_range; [reflexivity | intros; apply Hin, Hx].
  - rewrite (flat_map_length_blocks _ (length zgrid * (length yg * length xgrid))),
      length_range; [reflexivity | intros; apply Hin, Hy].
  - rewrite (flat_map_length_blocks _ (length zgrid * (length yg * length xgrid))),
      length_range; [reflexivity | intros].
    rewrite (flat_map_length_blocks _ (length yg * length xgrid)), length_range;
      [reflexivity | intros; rewrite repeat_length; exact Hx].
  - rewrite (flat_map_length_blocks _ (length zgrid * (length yg * length xgrid))),
      length_range; [reflexivity | intros; rewrite repeat_length, Hx; reflexivity].
Qed.

Lemma DefineScan_grids (XMin XMax YMin YMax ZMin ZMax RMin RMax
                        XSteps YSteps ZSteps RSteps : Z) (loc : ScanLocations) :
  DefineScan XMin XMax YMin YMax ZMin ZMax RMin RMax
             XSteps YSteps ZSteps RSteps = Ret loc ->
  build_scan (grid XMin XMax XSteps) (grid YMin YMax YSteps)
             (grid ZMin ZMax ZSteps) (grid RMin RMax RSteps) = Ret loc.
Proof.
  unfold DefineScan. cbv zeta. intros H.
  destruct (Z.eq_dec XSteps 0) as [->|HX]; [discriminate H|].
  rewrite arange_grid in H by exact HX. cbn [and_then] in H.
  destruct (Z.eq_dec YSteps 0) as [->|HY]; [discriminate H|].
  rewrite arange_grid in H by exact HY. cbn [and_then] in H.
  destruct (Z.eq_dec ZSteps 0) as [->|HZ]; [discriminate H|].
  rewrite arange_grid in H by exact HZ. cbn [and_then] in H.
  destruct (Z.eq_dec RSteps 0) as [->|HR]; [discriminate H|].
  rewrite arange_grid in H by exact HR. cbn [and_then] in H.
  exact H.
Qed.

(** C10: whenever [DefineScan] returns a plan, its four lists have the same
    length, so any index below that length is in bounds for all four, as the
    single index of the scan loop needs. *)
Theorem DefineScan_lists_same_length
    (XMin XMax YMin YMax ZMin ZMax RMin RMax XSteps YSteps ZSteps RSteps : Z)
    (loc : ScanLocations) :
  DefineScan XMin XMax YMin YMax ZMin ZMax RMin RMax
             XSteps YSteps ZSteps RSteps = Ret loc ->
  same_lengths loc /\
  forall i, (i < length (locX loc))%nat ->
    exists x y z r,
      nth_error (locX loc) i = Some x /\ nth_error (locY loc) i = Some y /\
      nth_error (locZ loc) i = Some z /\ nth_error (locR loc) i = Some r.
Proof.
  intros H. apply DefineScan_grids, build_scan_lengths in H.
  cbv zeta in H. destruct H as (HX & HY & HZ & HR).
  assert (Hsame : same_lengths loc) by (unfold same_lengths; repeat split; congruence).
  split; [exact Hsame|].
  intros i Hi. destruct Hsame as (HY' & HZ' & HR').
  destruct (nth_error (locX loc) i) as [x|] eqn:Ex;
    [|apply nth_error_None in Ex; lia].
  destruct (nth_error (locY loc) i) as [y|] eqn:Ey;
    [|apply nth_error_None in Ey; lia].
  destruct (nth_error (locZ loc) i) as [z|] eqn:Ez;
    [|apply nth_error_None in Ez; lia].
  destruct (nth_error (locR loc) i) as [r|] eqn:Er;
    [|apply nth_error_None in Er; lia].
  exists x, y, z, r. repeat split.
Qed.

Lemma DefineScan_lists_same_length_3x2 :
  same_lengths plan_3x2 /\
  exists x y z r,
    nth_error (locX plan_3x2) 5 = Some x /\ nth_error (locY plan_3x2) 5 = Some y /\
    nth_error (locZ plan_3x2) 5 = Some z /\ nth_error (locR plan_3x2) 5 = Some r.
Proof.
  assert (Hrun : DefineScan 0 2 0 1 0 0 0 0 1 1 1 1 = Ret plan_3x2)
    by (vm_compute; reflexivity).
  destruct (DefineScan_lists_same_length _ _ _ _ _ _ _ _ _ _ _ _ _ Hrun)
    as [Hsame Hidx].
  split; [exact Hsame|]. apply Hidx. cbn. lia.
Defined.

Lemma nth_repeat_lt {A : Type} (c d : A) (m k : nat) :
  (k < m)%nat -> nth k (repeat c m) d = c.
Proof.
  revert k. induction m as [|m IH]; intros k Hk; [lia|].
  destruct k as [|k]; cbn; [reflexivity | apply IH; lia].
Qed.

Lemma nth_raster_x (xgrid ygrid : list Z) (j k : nat) :
  (j < length ygrid)%nat -> (k < length xgrid)%nat ->
  nth (j * length xgrid + k) (raster_x xgrid ygrid) 0 =
  nth (serpentine_column (length xgrid) j k) xgrid 0.
Proof.
  intros Hj Hk. unfold raster_x.
  rewrite (nth_flat_map_blocks _ (length xgrid) 0 (0%nat, 0))
    by (try (intros; apply length_stride); rewrite ?length_enumerate; assumption).
  rewrite nth_enumerate by exact Hj. cbn [fst].
  rewrite stride_row. unfold serpentine_column.
  destruct (Nat.even j); [reflexivity|].
  rewrite rev_nth by exact Hk. f_equal. lia.
Qed.

Lemma nth_raster_y (xgrid ygrid : list Z) (j k : nat) :
  (j < length ygrid)%nat -> (k < length xgrid)%nat ->
  nth (j * length xgrid + k) (raster_y xgrid ygrid) 0 = nth j ygrid 0.
Proof.
  intros Hj Hk. unfold raster_y.
  rewrite (nth_flat_map_blocks _ (length xgrid) 0 (0%nat, 0))
    by (try (intros; apply repeat_length); rewrite ?length_enumerate; assumption).
  rewrite nth_enumerate by exact Hj. cbn [snd].
  apply nth_repeat_lt. exact Hk.
Qed.

(** Where each coordinate of a generated plan comes from: R outermost, then
    Z, then the Y row, then the X column in serpentine order. *)
Lemma build_scan_positions (xgrid ygrid zgrid rgrid : list Z)
    (loc : ScanLocations) (r z j k : nat) :
  build_scan xgrid ygrid zgrid rgrid = Ret loc ->
  (r < length rgrid)%nat -> (z < length zgrid)%nat ->
  (j < length ygrid)%nat -> (k < length xgrid)%nat ->
  let p := plan_index (length xgrid) (length ygrid) (length zgrid) r z j k in
  nth p (locX loc) 0 = nth (serpentine_column (length xgrid) j k) xgrid 0 /\
  nth p (locY loc) 0 = nth j ygrid 0 /\
  nth p (locZ loc) 0 = nth z zgrid 0 /\
  nth p (locR loc) 0 = nth r rgrid 0.
Proof.
  intros Hrun Hr Hz Hj Hk p.
  assert (Hy : ygrid <> []) by (destruct ygrid; [cbn in Hj; lia | discriminate]).
  rewrite build_scan_normal in Hrun by exact Hy.
  injection Hrun as <-. cbn [locX locY locZ locR].
  pose proof (length_raster_x xgrid ygrid) as Hlx.
  pose proof (length_raster_y xgrid ygrid) as Hly.
  set (nx := length xgrid) in *. set (ny := length ygrid) in *.
  set (nz := length zgrid) in *. set (nr := length rgrid) in *.
  assert (Hjk : (j * nx + k < ny * nx)%nat) by nia.
  assert (Hzjk : (z * (ny * nx) + (j * nx + k) < nz * (ny * nx))%nat) by nia.
  assert (Hblock : forall (l : list Z), length l = (ny * nx)%nat ->
            length (flat_map (fun _ : nat => l) (range nz)) = (nz * (ny * nx))%nat).
  { intros l Hl. rewrite (flat_map_length_blocks _ (ny * nx)), length_range; auto. }
  unfold p, plan_index. repeat split.
  - rewrite (nth_flat_map_blocks _ (nz * (ny * nx)) 0 0%nat)
      by (try (intros; apply Hblock, Hlx); rewrite ?length_range; assumption).
    rewrite (nth_flat_map_blocks _ (ny * nx) 0 0%nat)
      by (try (intros; apply Hlx); rewrite ?length_range; assumption).
    apply nth_raster_x; assumption.
  - rewrite (nth_flat_map_blocks _ (nz * (ny * nx)) 0 0%nat)
      by (try (intros; apply Hblock, Hly); rewrite ?length_range; assumption).
    rewrite (nth_flat_map_blocks _ (ny * nx) 0 0%nat)
      by (try (intros; apply Hly); rewrite ?length_range; assumption).
    apply nth_raster_y; assumption.
  - rewrite (nth_flat_map_blocks _ (nz * (ny * nx)) 0 0%nat);
      [ | intros | rewrite length_range; assumption | assumption].
    + rewrite (nth_flat_map_blocks _ (ny * nx) 0 0%nat);
        [ | intros; rewrite repeat_length; exact Hlx
          | rewrite length_range; assumption | assumption].
      rewrite nth_range by exact Hz. apply nth_repeat_lt. rewrite Hlx. exact Hjk.
    + rewrite (flat_map_length_blocks _ (ny * nx)), length_range;
        [reflexivity | intros; rewrite repeat_length; exact Hlx].
  - rewrite (nth_flat_map_blocks _ (nz * (ny * nx)) 0 0%nat);
      [ | intros; rewrite repeat_length, Hlx; reflexivity
        | rewrite length_range; assumption | assumption].
    rewrite nth_range by exact Hr. apply nth_repeat_lt. rewrite Hlx. exact Hzjk.
Qed.

Lemma DefineScan_on_grids (XMin XMax YMin YMax ZMin ZMax RMin RMax
                           XSteps YSteps ZSteps RSteps : Z) :
  XSteps <> 0 -> YSteps <> 0 -> ZSteps <> 0 -> RSteps <> 0 ->
  DefineScan XMin XMax YMin YMax ZMin ZMax RMin RMax
             XSteps YSteps ZSteps RSteps =
  build_scan (grid XMin XMax XSteps) (grid YMin YMax YSteps)
             (grid ZMin ZMax ZSteps) (grid RMin RMax RSteps).
Proof.
  intros HX HY HZ HR. unfold DefineScan. cbv zeta.
  rewrite !arange_grid by assumption. reflexivity.
Qed.

(** C3: for valid (min, max, step) triples [DefineScan] returns a plan
    whose length is the product of the four per-axis point counts; in the
    block of the [z]-th Z value and the [r]-th R value, row [j] holds the
    [j]-th Y value and its X values run forward through the X grid when [j]
    is even and backward when [j] is odd. *)
Theorem DefineScan_serpentine
    (XMin XMax YMin YMax ZMin ZMax RMin RMax XSteps YSteps ZSteps RSteps : Z) :
  valid_triple XMin XMax XSteps -> valid_triple YMin YMax YSteps ->
  valid_triple ZMin ZMax ZSteps -> valid_triple RMin RMax RSteps ->
  let nx := point_count XMin XMax XSteps in
  let ny := point_count YMin YMax YSteps in
  let nz := point_count ZMin ZMax ZSteps in
  let nr := point_count RMin RMax RSteps in
  exists loc,
    DefineScan XMin XMax YMin YMax ZMin ZMax RMin RMax
               XSteps YSteps ZSteps RSteps = Ret loc /\
    length (locX loc) = (nx * ny * nz * nr)%nat /\
    length (locY loc) = (nx * ny * nz * nr)%nat /\
    length (locZ loc) = (nx * ny * nz * nr)%nat /\
    length (locR loc) = (nx * ny * nz * nr)%nat /\
    forall r z j k,
      (r < nr)%nat -> (z < nz)%nat -> (j < ny)%nat -> (k < nx)%nat ->
      let p := plan_index nx ny nz r z j k in
      nth p (locX loc) 0 =
        XMin + Z.of_nat (if Nat.even j then k else nx - 1 - k) * XSteps /\
      nth p (locY loc) 0 = YMin + Z.of_nat j * YSteps /\
      nth p (locZ loc) 0 = ZMin + Z.of_nat z * ZSteps /\
      nth p (locR loc) 0 = RMin + Z.of_nat r * RSteps.
Proof.
  intros HX HY HZ HR nx ny nz nr.
  pose proof (length_grid _ _ _ HX) as Lx. pose proof (length_grid _ _ _ HY) as Ly.
  pose proof (length_grid _ _ _ HZ) as Lz. pose proof (length_grid _ _ _ HR) as Lr.
  fold nx in Lx. fold ny in Ly. fold nz in Lz. fold nr in Lr.
  pose proof (point_count_positive _ _ _ HY) as Hny. fold ny in Hny.
  rewrite DefineScan_on_grids
    by (destruct HX, HY, HZ, HR; lia).
  destruct (build_scan (grid XMin XMax XSteps) (grid YMin YMax YSteps)
              (grid ZMin ZMax ZSteps) (grid RMin RMax RSteps)) as [loc|e] eqn:Hrun.
  - exists loc. split; [reflexivity|].
    pose proof (build_scan_lengths _ _ _ _ _ Hrun) as Hlen. cbv zeta in Hlen.
    rewrite Lx, Ly, Lz, Lr in Hlen. destruct Hlen as (H1 & H2 & H3 & H4).
    repeat (split; [lia|]).
    intros r z j k Hr Hz Hj Hk p.
    pose proof (build_scan_positions _ _ _ _ loc r z j k Hrun) as Hpos.
    rewrite Lx, Ly, Lz, Lr in Hpos. specialize (Hpos Hr Hz Hj Hk).
    cbv zeta in Hpos. fold p in Hpos. destruct Hpos as (P1 & P2 & P3 & P4).
    rewrite P1, P2, P3, P4. unfold serpentine_column.
    rewrite !nth_grid by (rewrite ?Lx, ?Ly, ?Lz, ?Lr; destruct (Nat.even j); lia).
    repeat split.
  - exfalso. destruct (grid YMin YMax YSteps) as [|y0 yg] eqn:Eg;
      [cbn in Ly; lia|].
    rewrite build_scan_normal in Hrun by discriminate. discriminate Hrun.
Qed.

Lemma DefineScan_serpentine_3x2 :
  exists loc,
    DefineScan 0 2 0 1 0 0 0 0 1 1 1 1 = Ret loc /\
    length (locX loc) = 6%nat /\
    nth 3 (locX loc) 0 = 2 /\ nth 3 (locY loc) 0 = 1.
Proof.
  assert (V2 : valid_triple 0 2 1) by (unfold valid_triple; lia).
  assert (V1 : valid_triple 0 1 1) by (unfold valid_triple; lia).
  assert (V0 : valid_triple 0 0 1) by (unfold valid_triple; lia).
  destruct (DefineScan_serpentine 0 2 0 1 0 0 0 0 1 1 1 1 V2 V1 V0 V0)
    as (loc & Hrun & HlenX & _ & _ & _ & Hpos).
  exists loc. split; [exact Hrun|]. split; [exact HlenX|].
  destruct (Hpos 0%nat 0%nat 1%nat 0%nat) as (PX & PY & _ & _);
    try (vm_compute; lia).
  split; [exact PX | exact PY].
Defined.

(** ** One capture *)

Lemma after_after {A : Type} (e1 e2 : list event)
    (x : outcome A * rig * list event) :
  after e1 (after e2 x) = after (e1 ++ e2) x.
Proof. unfold after. cbn. rewrite app_assoc. reflexivity. Qed.

Lemma ret_bind {A B : Type} (a : A) (k : A -> M B) (s : rig) :
  bind (ret a) k s = k a s.
Proof. unfold bind, ret. destruct (k a s) as [[r s2] e2]. reflexivity. Qed.

Lemma emit_bind {B : Type} (e : event) (k : M B) (s : rig) :
  (emit e ;; k) s = after [e] (k s).
Proof. unfold bind, emit, after. destruct (k s) as [[r s2] e2]. reflexivity. Qed.

Lemma routine_then {A : Type} (m : M A) :
  routine m ->
  forall s, exists s1 e1,
    routine_events e1 /\ clock_reads s1 = clock_reads s /\
    forall (B : Type) (k : M B), (m ;; k) s = after e1 (k s1).
Proof.
  intros Hm s. destruct (Hm s) as (a & s1 & e1 & Hrun & Hev & Hc).
  exists s1, e1. repeat split; try assumption.
  intros B k. unfold bind, after. rewrite Hrun.
  destruct (k s1) as [[r s2] e2]. reflexivity.
Qed.

Lemma index_run (l : list Z) (i : nat) (v : Z) :
  nth_error l i = Some v -> index l i = ret v.
Proof. intros H. unfold index. rewrite H. reflexivity. Qed.

(** Three clean failures: the third attempt pickles the rest of the plan
    with the updated session, runs the reboot command and returns the
    updated session. *)
Lemma capture_gives_up env loc ss i folder name ri s :
  fails_three_times env i ->
  nth_error (locR loc) i = Some ri ->
  exists ev,
    capture_with_retries env loc ss i folder name s =
      (Ret (failure_recorded ss name (clock env (clock_reads s))),
       tick_clock s, ev) /\
    milestones ev =
      [PickleDump
         (suffix i loc,
          conditions_of (failure_recorded ss name (clock env (clock_reads s))) ri);
       Shutdown] /\
    shots ev = 3%nat.
Proof.
  intros (H0 & H1 & H2) HR.
  unfold capture_with_retries, try_except, range. cbn [seq attempts].
  unfold checkpoint_and_restart, index. rewrite H0, H1, H2, HR.
  eexists. split; [reflexivity|]. split; reflexivity.
Qed.

(** Anything but three clean failures: the scan goes on to the next
    coordinate with its session unchanged, with no checkpoint and no reboot
    command. *)
Lemma capture_goes_on env loc ss i folder name s :
  ~ fails_three_times env i ->
  exists ev,
    capture_with_retries env loc ss i folder name s = (Ret ss, s, ev) /\
    milestones ev = [] /\ visits ev = 0%nat.
Proof.
  intros Hnot.
  unfold capture_with_retries, try_except, range. cbn [seq attempts].
  destruct (camera env i 0) eqn:H0; [| |];
    try (eexists; split; [reflexivity|]; split; reflexivity).
  destruct (camera env i 1) eqn:H1; [| |];
    try (eexists; split; [reflexivity|]; split; reflexivity).
  destruct (camera env i 2) eqn:H2; [| |];
    try (eexists; split; [reflexivity|]; split; reflexivity).
  exfalso. apply Hnot. repeat split; assumption.
Qed.

(** A hang at attempt [w], after clean failures only: the camera has been
    invoked [w + 1] times, the capture process is killed, and the scan goes
    on to the next coordinate. *)
Lemma capture_hang_skips env loc ss i folder name s (w : nat) :
  (w < 3)%nat ->
  (forall w', (w' < w)%nat -> camera env i w' = NoFile) ->
  camera env i w = Hangs ->
  exists ev,
    capture_with_retries env loc ss i folder name s = (Ret ss, s, ev) /\
    milestones ev = [] /\ shots ev = S w /\ kills ev = 1%nat.
Proof.
  intros Hw Hbefore Hhang.
  unfold capture_with_retries, try_except, range. cbn [seq attempts].
  destruct w as [|[|[|w]]]; [| | |lia].
  - rewrite Hhang. eexists. split; [reflexivity|]. repeat split.
  - rewrite (Hbefore 0%nat), Hhang by lia.
    eexists. split; [reflexivity|]. repeat split.
  - rewrite (Hbefore 0%nat), (Hbefore 1%nat), Hhang by lia.
    eexists. split; [reflexivity|]. repeat split.
Qed.

(** File names as the source builds them: zero padded, sign first. *)
Example picture_name_example :
  picture_name (fresh_session quiet_world plan_3x2 0) 1 150 0 (-5) 40 =
  "X0150Y0000Z-005R040of001.jpg"%string /\
  folder_name (fresh_session quiet_world plan_3x2 0) (-5) 40 =
  "/scans/Z-005R040"%string.
Proof. vm_compute. split; reflexivity. Qed.

(** ** One iteration of the scan loop *)

Lemma routine_progress (b : bool) (m : message) (e : event) :
  is_routine e = true ->
  routine (if b then print m ;; emit e else ret tt).
Proof. intros He. destruct b; [|apply routine_ret]. apply routine_bind; [apply routine_print|]. intros _. apply routine_emit, He. Qed.

(** Up to the capture, an iteration only moves and reports; it then settles
    and tries to capture. *)
Lemma scan_body_run env loc ss num_pictures NumberOfRotations i xi yi zi ri s :
  nth_error (locX loc) i = Some xi -> nth_error (locY loc) i = Some yi ->
  nth_error (locZ loc) i = Some zi -> nth_error (locR loc) i = Some ri ->
  exists s1 e1,
    routine_events e1 /\ clock_reads s1 = clock_reads s /\
    scan_body env loc ss num_pictures NumberOfRotations i s =
    after (e1 ++ [Settle])
          (capture_with_retries env loc ss i (folder_name ss zi ri)
             (picture_name ss NumberOfRotations xi yi zi ri) s1).
Proof.
  intros HX HY HZ HR.
  destruct (routine_then _ (routine_progress (i mod 100 =? 0)%nat
              (PicturesRemaining (num_pictures - i) (s_original_pics ss))
              (Beep 3) eq_refl) s) as (s1 & e1 & R1 & C1 & E1).
  destruct (routine_then _ (routine_emit (MakeDirs (folder_name ss zi ri)) eq_refl) s1)
    as (s2 & e2 & R2 & C2 & E2).
  destruct (routine_then _ (routine_XGoTo (PyInt xi) 0) s2)
    as (s3 & e3 & R3 & C3 & E3).
  destruct (routine_then _ (routine_YGoTo (PyInt yi) 0) s3)
    as (s4 & e4 & R4 & C4 & E4).
  destruct (routine_then _ (routine_ZGoTo (PyInt zi) 0) s4)
    as (s5 & e5 & R5 & C5 & E5).
  destruct (routine_then _ (routine_RGoTo (PyInt ri) 0) s5)
    as (s6 & e6 & R6 & C6 & E6).
  exists s6, (e1 ++ e2 ++ e3 ++ e4 ++ e5 ++ e6).
  split; [repeat (apply Forall_app; split); assumption|].
  split; [congruence|].
  unfold scan_body.
  rewrite (index_run _ _ _ HX), (index_run _ _ _ HY),
          (index_run _ _ _ HZ), (index_run _ _ _ HR).
  rewrite E1, !ret_bind, E2, ret_bind, E3, ret_bind, E4, ret_bind, E5,
          ret_bind, E6, emit_bind.
  rewrite !after_after, <- !app_assoc. reflexivity.
Qed.

Lemma milestones_app (l1 l2 : list event) :
  milestones (l1 ++ l2) = milestones l1 ++ milestones l2.
Proof. apply filter_app. Qed.

Lemma in_bounds (loc : ScanLocations) (i : nat) :
  same_lengths loc -> (i < length (locX loc))%nat ->
  nth_error (locX loc) i = Some (nth i (locX loc) 0) /\
  nth_error (locY loc) i = Some (nth i (locY loc) 0) /\
  nth_error (locZ loc) i = Some (nth i (locZ loc) 0) /\
  nth_error (locR loc) i = Some (nth i (locR loc) 0).
Proof.
  intros (HY & HZ & HR) Hi. repeat split; apply nth_error_nth'; lia.
Qed.

Lemma scan_body_goes_on env loc ss num_pictures NumberOfRotations i s :
  same_lengths loc -> (i < length (locX loc))%nat ->
  ~ fails_three_times env i ->
  exists s1 ev,
    scan_body env loc ss num_pictures NumberOfRotations i s = (Ret ss, s1, ev) /\
    milestones ev = [Settle] /\ clock_reads s1 = clock_reads s.
Proof.
  intros Hsame Hi Hnot.
  destruct (in_bounds loc i Hsame Hi) as (HX & HY & HZ & HR).
  destruct (scan_body_run env loc ss num_pictures NumberOfRotations i _ _ _ _ s
              HX HY HZ HR) as (s1 & e1 & R1 & C1 & E1).
  destruct (capture_goes_on env loc ss i
              (folder_name ss (nth i (locZ loc) 0) (nth i (locR loc) 0))
              (picture_name ss NumberOfRotations (nth i (locX loc) 0)
                 (nth i (locY loc) 0) (nth i (locZ loc) 0) (nth i (locR loc) 0))
              s1 Hnot) as (ev & Hrun & Hm & _).
  exists s1, ((e1 ++ [Settle]) ++ ev). split; [|split; [|exact C1]].
  - rewrite E1, Hrun. reflexivity.
  - rewrite !milestones_app, Hm, (routine_milestones e1 R1). reflexivity.
Qed.

(** An iteration whose capture fails three times: one checkpoint, one
    reboot command, and the iteration returns with the failure recorded in
    the session. *)
Lemma scan_body_gives_up env loc ss num_pictures NumberOfRotations i s :
  same_lengths loc -> (i < length (locX loc))%nat ->
  fails_three_times env i ->
  let ss' := failure_recorded ss (name_at loc ss NumberOfRotations i)
                              (clock env (clock_reads s)) in
  exists s1 ev,
    scan_body env loc ss num_pictures NumberOfRotations i s = (Ret ss', s1, ev) /\
    milestones ev =
      [Settle; PickleDump (suffix i loc, conditions_of ss' (nth i (locR loc) 0));
       Shutdown] /\
    clock_reads s1 = S (clock_reads s).
Proof.
  intros Hsame Hi Hfail ss'.
  destruct (in_bounds loc i Hsame Hi) as (HX & HY & HZ & HR).
  destruct (scan_body_run env loc ss num_pictures NumberOfRotations i _ _ _ _ s
              HX HY HZ HR) as (s1 & e1 & R1 & C1 & E1).
  destruct (capture_gives_up env loc ss i
              (folder_name ss (nth i (locZ loc) 0) (nth i (locR loc) 0))
              (name_at loc ss NumberOfRotations i)
              _ s1 Hfail HR) as (ev & Hrun & Hm & _).
  exists (tick_clock s1), ((e1 ++ [Settle]) ++ ev). split; [|split].
  - rewrite E1. unfold name_at in Hrun. rewrite Hrun. unfold ss', name_at.
    rewrite C1. reflexivity.
  - rewrite !milestones_app, Hm, (routine_milestones e1 R1), C1. reflexivity.
  - cbn [tick_clock clock_reads]. rewrite C1. reflexivity.
Qed.

Lemma fails_three_times_dec env i :
  {fails_three_times env i} + {~ fails_three_times env i}.
Proof.
  unfold fails_three_times.
  destruct (camera env i 0); try (right; intros (H & _); discriminate H).
  destruct (camera env i 1); try (right; intros (_ & H & _); discriminate H).
  destruct (camera env i 2); try (right; intros (_ & _ & H); discriminate H).
  left. repeat split.
Qed.

Lemma visits_app (l1 l2 : list event) :
  visits (l1 ++ l2) = (visits l1 + visits l2)%nat.
Proof. unfold visits. rewrite filter_app, length_app. reflexivity. Qed.

Lemma shots_app (l1 l2 : list event) :
  shots (l1 ++ l2) = (shots l1 + shots l2)%nat.
Proof. unfold shots. rewrite filter_app, length_app. reflexivity. Qed.

Lemma kills_app (l1 l2 : list event) :
  kills (l1 ++ l2) = (kills l1 + kills l2)%nat.
Proof. unfold kills. rewrite filter_app, length_app. reflexivity. Qed.

Lemma visits_of_milestones (l : list event) : visits (milestones l) = visits l.
Proof.
  unfold visits, milestones. induction l as [|e l IH]; [reflexivity|].
  cbn [filter]. destruct e; cbn [is_milestone is_settle filter length];
    solve [exact IH | f_equal; exact IH].
Qed.

Lemma visits_repeat_settle (n : nat) : visits (repeat Settle n) = n.
Proof.
  unfold visits. rewrite filter_repeat_true by reflexivity. apply repeat_length.
Qed.

(** Whatever the camera does, an iteration over an index of the plan
    returns, having settled once. *)
Lemma scan_body_returns env loc ss num_pictures NumberOfRotations i s :
  same_lengths loc -> (i < length (locX loc))%nat ->
  exists ss1 s1 ev,
    scan_body env loc ss num_pictures NumberOfRotations i s = (Ret ss1, s1, ev) /\
    visits ev = 1%nat.
Proof.
  intros Hsame Hi.
  destruct (fails_three_times_dec env i) as [Hfail|Hnot].
  - destruct (scan_body_gives_up env loc ss num_pictures NumberOfRotations i s
                Hsame Hi Hfail) as (s1 & ev & Hrun & Hm & _).
    eexists _, s1, ev. split; [exact Hrun|].
    rewrite <- visits_of_milestones, Hm. reflexivity.
  - destruct (scan_body_goes_on env loc ss num_pictures NumberOfRotations i s
                Hsame Hi Hnot) as (s1 & ev & Hrun & Hm & _).
    exists ss, s1, ev. split; [exact Hrun|].
    rewrite <- visits_of_milestones, Hm. reflexivity.
Qed.

(** ** The scan loop *)

Section Loop.
Variable env : environment.
Variable loc : ScanLocations.
Variables num_pictures NumberOfRotations : nat.
Hypothesis Hsame : same_lengths loc.

Let body := fun (ss : session) (i : nat) =>
  scan_body env loc ss num_pictures NumberOfRotations i.

(** Over indices that are in bounds and do not fail three times the loop
    runs to its end, settling once per index and leaving the session as it
    was. *)
Lemma loop_goes_on (l : list nat) : forall ss s,
  (forall k, In k l -> (k < length (locX loc))%nat /\ ~ fails_three_times env k) ->
  exists s1 ev,
    for_fold l body ss s = (Ret ss, s1, ev) /\
    milestones ev = repeat Settle (length l) /\
    clock_reads s1 = clock_reads s.
Proof.
  induction l as [|a l IH]; intros ss s Hl; cbn [for_fold length repeat].
  - exists s, []. repeat split.
  - destruct (Hl a (in_eq a l)) as [Ha Hnot].
    destruct (scan_body_goes_on env loc ss num_pictures NumberOfRotations a s
                Hsame Ha Hnot) as (s1 & e1 & Hrun1 & Hm1 & Hc1).
    destruct (IH ss s1 (fun k Hk => Hl k (in_cons a k l Hk)))
      as (s2 & e2 & Hrun2 & Hm2 & Hc2).
    exists s2, (e1 ++ e2). split; [|split; [|congruence]].
    + eapply bind_ret_elim; [exact Hrun1 | exact Hrun2].
    + rewrite milestones_app, Hm1, Hm2. reflexivity.
Qed.

(** Over indices that are in bounds the loop always runs to its end,
    settling once per index. *)
Lemma loop_returns (l : list nat) : forall ss s,
  (forall k, In k l -> (k < length (locX loc))%nat) ->
  exists ss1 s1 ev,
    for_fold l body ss s = (Ret ss1, s1, ev) /\ visits ev = length l.
Proof.
  induction l as [|a l IH]; intros ss s Hl; cbn [for_fold length].
  - exists ss, s, []. split; reflexivity.
  - destruct (scan_body_returns env loc ss num_pictures NumberOfRotations a s
                Hsame (Hl a (in_eq a l))) as (ss1 & s1 & e1 & Hrun1 & Hv1).
    destruct (IH ss1 s1 (fun k Hk => Hl k (in_cons a k l Hk)))
      as (ss2 & s2 & e2 & Hrun2 & Hv2).
    exists ss2, s2, (e1 ++ e2). split.
    + eapply bind_ret_elim; [exact Hrun1 | exact Hrun2].
    + rewrite visits_app, Hv1, Hv2. reflexivity.
Qed.

(** The first index that fails three times: the loop has settled at every
    index up to and including that one, writes one checkpoint, runs the
    reboot command, and goes on with the indices that follow. *)
Lemma loop_first_failure (l1 l2 : list nat) (i : nat) : forall ss s,
  (forall k, In k l1 -> (k < length (locX loc))%nat /\ ~ fails_three_times env k) ->
  (i < length (locX loc))%nat -> fails_three_times env i ->
  (forall k, In k l2 -> (k < length (locX loc))%nat) ->
  exists ss1 s1 ev rest,
    for_fold (l1 ++ i :: l2) body ss s = (Ret ss1, s1, ev) /\
    milestones ev =
      repeat Settle (S (length l1)) ++
      PickleDump
        (suffix i loc,
         conditions_of
           (failure_recorded ss (name_at loc ss NumberOfRotations i)
                             (clock env (clock_reads s)))
           (nth i (locR loc) 0)) ::
      Shutdown :: rest /\
    visits ev = (S (length l1) + length l2)%nat.
Proof.
  induction l1 as [|a l1 IH]; intros ss s Hl Hi Hfail Hl2;
    cbn [app for_fold length repeat].
  - destruct (scan_body_gives_up env loc ss num_pictures NumberOfRotations i s
                Hsame Hi Hfail) as (s1 & e1 & Hrun1 & Hm1 & _).
    destruct (loop_returns l2
                (failure_recorded ss (name_at loc ss NumberOfRotations i)
                                  (clock env (clock_reads s))) s1 Hl2)
      as (ss2 & s2 & e2 & Hrun2 & Hv2).
    exists ss2, s2, (e1 ++ e2), (milestones e2). split; [|split].
    + eapply bind_ret_elim; [exact Hrun1 | exact Hrun2].
    + rewrite milestones_app, Hm1. reflexivity.
    + rewrite visits_app, Hv2, <- visits_of_milestones, Hm1. reflexivity.
  - destruct (Hl a (in_eq a l1)) as [Ha Hnot].
    destruct (scan_body_goes_on env loc ss num_pictures NumberOfRotations a s
                Hsame Ha Hnot) as (s1 & e1 & Hrun1 & Hm1 & Hc1).
    destruct (IH ss s1 (fun k Hk => Hl k (in_cons a k l1 Hk)) Hi Hfail Hl2)
      as (ss2 & s2 & e2 & rest & Hrun2 & Hm2 & Hv2).
    exists ss2, s2, (e1 ++ e2), rest. split; [|split].
    + eapply bind_ret_elim; [exact Hrun1 | exact Hrun2].
    + rewrite milestones_app, Hm1, Hm2, Hc1. reflexivity.
    + rewrite visits_app, Hv2, <- visits_of_milestones, Hm1. reflexivity.
Qed.
End Loop.

(** ** A whole run *)

Lemma time_time_bind {B : Type} env (k : Z -> M B) (s : rig) :
  bind (time_time env) k s = k (clock env (clock_reads s)) (tick_clock s).
Proof.
  unfold bind, time_time.
  destruct (k (clock env (clock_reads s)) (tick_clock s)) as [[r s2] e2].
  reflexivity.
Qed.

Lemma rotation_check_passes (l : list Z) (v : Z) :
  nth_error l 0 = Some v ->
  match l with
  | [] => @raise unit ValueError
  | _ => ret tt
  end = ret tt.
Proof. destruct l; [discriminate | reflexivity]. Qed.

Lemma finish_scan_run env ss s :
  exists ev,
    finish_scan env ss s = (Ret tt, tick_clock s, ev) /\ milestones ev = [].
Proof. eexists. split; reflexivity. Qed.

(** Before its loop [GridScan] reads the clock once, then only reports and
    moves to the first coordinate. *)
Lemma GridScan_prelude env loc cond s :
  same_lengths loc -> (0 < length (locX loc))%nat ->
  let ss := open_session env loc cond (clock env (clock_reads s)) in
  exists s1 e1,
    routine_events e1 /\ clock_reads s1 = S (clock_reads s) /\
    GridScan env loc cond s =
    after e1
      ((ss' <- for_fold (range (length (locX loc)))
                        (fun ss i =>
                           scan_body env loc ss (length (locX loc))
                                     (count_distinct (locR loc)) i)
                        ss ;;
        finish_scan env ss') s1).
Proof.
  intros Hsame Hpos ss.
  destruct (in_bounds loc 0 Hsame Hpos) as (HX & HY & HZ & HR).
  destruct (routine_then _ (routine_print (RestartedSoFar (s_num_failures ss)))
              (tick_clock s)) as (s1 & e1 & R1 & C1 & E1).
  destruct (routine_then _ (routine_XGoTo (PyInt (nth 0 (locX loc) 0)) 0) s1)
    as (s2 & e2 & R2 & C2 & E2).
  destruct (routine_then _ (routine_YGoTo (PyInt (nth 0 (locY loc) 0)) 0) s2)
    as (s3 & e3 & R3 & C3 & E3).
  destruct (routine_then _ (routine_ZGoTo (PyInt (nth 0 (locZ loc) 0)) 0) s3)
    as (s4 & e4 & R4 & C4 & E4).
  destruct (routine_then _ (routine_RGoTo (PyInt (nth 0 (locR loc) 0)) 0) s4)
    as (s5 & e5 & R5 & C5 & E5).
  exists s5, (e1 ++ e2 ++ e3 ++ e4 ++ e5).
  split; [repeat (apply Forall_app; split); assumption|].
  split; [cbn in C1; congruence|].
  unfold GridScan. rewrite time_time_bind. cbv zeta. fold ss.
  rewrite (rotation_check_passes _ _ HR), ret_bind.
  rewrite (index_run _ _ _ HX), (index_run _ _ _ HY),
          (index_run _ _ _ HZ), (index_run _ _ _ HR).
  rewrite E1, ret_bind, E2, ret_bind, E3, ret_bind, E4, ret_bind, E5.
  rewrite !after_after, <- !app_assoc. reflexivity.
Qed.

Lemma range_split (n i : nat) :
  (i < n)%nat -> range n = range i ++ i :: seq (S i) (n - S i).
Proof.
  intros Hi. unfold range.
  replace n with (i + S (n - S i))%nat at 1 by lia.
  rewrite seq_app. reflexivity.
Qed.

Lemma in_range (n k : nat) : In k (range n) -> (k < n)%nat.
Proof. unfold range. rewrite in_seq. lia. Qed.

(** A run in which no coordinate fails three times visits every coordinate
    and ends normally, without checkpoint or reboot command. *)
Lemma GridScan_goes_on env loc cond s :
  same_lengths loc -> (0 < length (locX loc))%nat ->
  (forall k, (k < length (locX loc))%nat -> ~ fails_three_times env k) ->
  exists s1 ev,
    GridScan env loc cond s = (Ret tt, s1, ev) /\
    milestones ev = repeat Settle (length (locX loc)).
Proof.
  intros Hsame Hpos Hnot.
  destruct (GridScan_prelude env loc cond s Hsame Hpos)
    as (s1 & e1 & R1 & C1 & E1).
  destruct (loop_goes_on env loc
              (length (locX loc)) (count_distinct (locR loc)) Hsame
              (range (length (locX loc)))
              (open_session env loc cond (clock env (clock_reads s))) s1)
    as (s2 & e2 & Hrun2 & Hm2 & C2).
  { intros k Hk. apply in_range in Hk. split; [exact Hk | apply Hnot, Hk]. }
  destruct (finish_scan_run env
              (open_session env loc cond (clock env (clock_reads s))) s2)
    as (e3 & Hrun3 & Hm3).
  exists (tick_clock s2), (e1 ++ e2 ++ e3). split.
  - rewrite E1. erewrite bind_ret_elim by eassumption. reflexivity.
  - rewrite !milestones_app, Hm2, Hm3, (routine_milestones e1 R1), length_range.
    cbn [app]. apply app_nil_r.
Qed.

(** A run whose first three-fold failure is at index [i] writes its first
    checkpoint there, runs the reboot command, and goes on to the end of
    the plan. *)
Lemma GridScan_first_failure env loc cond s i :
  same_lengths loc -> (i < length (locX loc))%nat ->
  (forall k, (k < i)%nat -> ~ fails_three_times env k) ->
  fails_three_times env i ->
  exists s1 ev rest,
    GridScan env loc cond s = (Ret tt, s1, ev) /\
    milestones ev =
      repeat Settle (S i) ++
      PickleDump (checkpoint_at env loc cond (clock_reads s) i) ::
      Shutdown :: rest /\
    visits ev = length (locX loc).
Proof.
  intros Hsame Hi Hbefore Hfail.
  destruct (GridScan_prelude env loc cond s Hsame ltac:(lia))
    as (s1 & e1 & R1 & C1 & E1).
  destruct (loop_first_failure env loc
              (length (locX loc)) (count_distinct (locR loc)) Hsame
              (range i) (seq (S i) (length (locX loc) - S i)) i
              (open_session env loc cond (clock env (clock_reads s))) s1)
    as (ss2 & s2 & e2 & rest & Hrun2 & Hm2 & Hv2); [|exact Hi|exact Hfail| |].
  { intros k Hk. apply in_range in Hk. split; [lia | apply Hbefore, Hk]. }
  { intros k Hk. apply in_seq in Hk. lia. }
  destruct (finish_scan_run env ss2 s2) as (e3 & Hrun3 & Hm3).
  exists (tick_clock s2), (e1 ++ e2 ++ e3), rest. split; [|split].
  - rewrite E1, (range_split _ i Hi).
    erewrite bind_ret_elim by eassumption. reflexivity.
  - rewrite !milestones_app, Hm2, Hm3, (routine_milestones e1 R1), length_range, C1.
    cbn [app]. rewrite app_nil_r. reflexivity.
  - rewrite !visits_app, Hv2, (routine_visits e1 R1), length_range, length_seq.
    rewrite <- (visits_of_milestones e3), Hm3. cbn [visits filter length]. lia.
Qed.

Lemma length_suffix (loc : ScanLocations) (i : nat) :
  same_lengths loc ->
  same_lengths (suffix i loc) /\
  length (locX (suffix i loc)) = (length (locX loc) - i)%nat.
Proof.
  intros (HY & HZ & HR). unfold same_lengths, suffix. cbn [locX locY locZ locR].
  rewrite !length_skipn. repeat split; congruence.
Qed.

(** Start-up with a checkpoint on disk: the three linear axes are homed,
    the rotation position is taken from the checkpoint, and the pickled plan
    is scanned. *)
Lemma startup_scans env (locations : ScanLocations) (c : conditions) s :
  exists s1 e1,
    routine_events e1 /\ clock_reads s1 = clock_reads s /\
    startup env (@Some scan_params (locations, c)) s =
    after e1 (GridScan env locations (Some c) s1).
Proof.
  destruct (routine_Home env) as (RX & RY & RZ).
  destruct (routine_then _ (routine_emit (Beep 1) eq_refl) s)
    as (s1 & e1 & R1 & C1 & E1).
  destruct (routine_then _ (routine_emit (Beep 1) eq_refl) s1)
    as (s2 & e2 & R2 & C2 & E2).
  destruct (routine_then _ RX s2) as (s3 & e3 & R3 & C3 & E3).
  destruct (routine_then _ RY s3) as (s4 & e4 & R4 & C4 & E4).
  destruct (routine_then _ RZ s4) as (s5 & e5 & R5 & C5 & E5).
  destruct (routine_then _ (routine_modify (set_GlobalR (R_Location c))
              (fun _ => eq_refl)) s5) as (s6 & e6 & R6 & C6 & E6).
  exists s6, (e1 ++ e2 ++ e3 ++ e4 ++ e5 ++ e6).
  split; [repeat (apply Forall_app; split); assumption|].
  split; [congruence|].
  unfold startup. rewrite E1, E2, E3, E4, E5, E6.
  rewrite !after_after, <- !app_assoc. reflexivity.
Qed.

Lemma startup_resumes env (p : scan_params) s :
  same_lengths (fst p) -> (0 < length (locX (fst p)))%nat ->
  (forall k, (k < length (locX (fst p)))%nat -> ~ fails_three_times env k) ->
  exists s1 ev,
    startup env (Some p) s = (Ret tt, s1, ev) /\
    milestones ev = repeat Settle (length (locX (fst p))).
Proof.
  intros Hsame Hpos Hnot. destruct p as [locations c]. cbn [fst] in *.
  destruct (startup_scans env locations c s) as (s1 & e1 & R1 & C1 & E1).
  destruct (GridScan_goes_on env locations (Some c) s1 Hsame Hpos Hnot)
    as (s2 & e2 & Hrun & Hm).
  exists s2, (e1 ++ e2). split.
  - rewrite E1, Hrun. reflexivity.
  - rewrite milestones_app, Hm, (routine_milestones e1 R1). reflexivity.
Qed.



(** ** Hangs *)

Lemma scan_body_hang_skips env loc ss num_pictures NumberOfRotations i w s :
  same_lengths loc -> (i < length (locX loc))%nat -> (w < 3)%nat ->
  (forall w', (w' < w)%nat -> camera env i w' = NoFile) ->
  camera env i w = Hangs ->
  exists s1 ev,
    scan_body env loc ss num_pictures NumberOfRotations i s = (Ret ss, s1, ev) /\
    milestones ev = [Settle] /\ shots ev = S w /\ kills ev = 1%nat.
Proof.
  intros Hsame Hi Hw Hclean Hhang.
  destruct (in_bounds loc i Hsame Hi) as (HX & HY & HZ & HR).
  destruct (scan_body_run env loc ss num_pictures NumberOfRotations i _ _ _ _ s
              HX HY HZ HR) as (s1 & e1 & R1 & C1 & E1).
  destruct (capture_hang_skips env loc ss i
              (folder_name ss (nth i (locZ loc) 0) (nth i (locR loc) 0))
              (picture_name ss NumberOfRotations (nth i (locX loc) 0)
                 (nth i (locY loc) 0) (nth i (locZ loc) 0) (nth i (locR loc) 0))
              s1 w Hw Hclean Hhang) as (ev & Hrun & Hm & Hshots & Hkills).
  exists s1, ((e1 ++ [Settle]) ++ ev). split; [|split; [|split]].
  - rewrite E1, Hrun. reflexivity.
  - rewrite !milestones_app, Hm, (routine_milestones e1 R1). reflexivity.
  - rewrite !shots_app, Hshots, (routine_shots e1 R1). reflexivity.
  - rewrite !kills_app, Hkills, (routine_kills e1 R1). reflexivity.
Qed.

(** C2, as stated, fails: with a camera that hangs on every attempt at
    coordinate 1 the run does not escalate.  It makes one attempt per
    coordinate (6 in all), kills one capture process, visits all 6
    coordinates and ends normally, with no checkpoint and no reboot. *)
Lemma three_hangs_do_not_escalate :
  (forall w, camera hangs_at_1 1 w = Hangs) /\
  result_of (GridScan hangs_at_1 plan_3x2 None rig0) = Ret tt /\
  milestones (events_of (GridScan hangs_at_1 plan_3x2 None rig0)) =
    repeat Settle 6 /\
  shots (events_of (GridScan hangs_at_1 plan_3x2 None rig0)) = 6%nat /\
  kills (events_of (GridScan hangs_at_1 plan_3x2 None rig0)) = 1%nat.
Proof. split; [intros w; reflexivity|]. vm_compute. repeat split. Qed.

(** C2, amended: a capture attempt that exceeds its bounded wait is not
    retried and not counted.  At the first hang at a coordinate, after [w]
    clean failures ([w < 3]), the camera has been invoked [w + 1] times, the
    capture process is killed and the iteration ends normally: the
    coordinate is skipped.  A run in which no other coordinate fails three
    times cleanly visits every coordinate and ends without checkpoint and
    without reboot. *)
Theorem hang_skips_coordinate env loc cond s i w :
  same_lengths loc -> (i < length (locX loc))%nat -> (w < 3)%nat ->
  (forall w', (w' < w)%nat -> camera env i w' = NoFile) ->
  camera env i w = Hangs ->
  (forall k, (k < length (locX loc))%nat -> k <> i -> ~ fails_three_times env k) ->
  (forall ss num_pictures NumberOfRotations s0,
     exists s1 ev,
       scan_body env loc ss num_pictures NumberOfRotations i s0 = (Ret ss, s1, ev) /\
       milestones ev = [Settle] /\ shots ev = S w /\ kills ev = 1%nat) /\
  result_of (GridScan env loc cond s) = Ret tt /\
  milestones (events_of (GridScan env loc cond s)) =
    repeat Settle (length (locX loc)).
Proof.
  intros Hsame Hi Hw Hclean Hhang Hothers.
  split.
  - intros ss num_pictures NumberOfRotations s0.
    apply (scan_body_hang_skips env loc ss num_pictures NumberOfRotations i w s0);
      assumption.
  - assert (Hnot : forall k, (k < length (locX loc))%nat -> ~ fails_three_times env k).
    { intros k Hk. destruct (Nat.eq_dec k i) as [->|Hne]; [|apply Hothers; assumption].
      intros (H0 & H1 & H2).
      destruct w as [|[|[|w]]]; [| | |lia]; congruence. }
    destruct (GridScan_goes_on env loc cond s Hsame ltac:(lia) Hnot)
      as (s1 & ev & Hrun & Hm).
    rewrite Hrun. split; [reflexivity | exact Hm].
Qed.

Lemma hang_skips_coordinate_at_1 :
  result_of (GridScan hangs_at_1 plan_3x2 None rig0) = Ret tt /\
  milestones (events_of (GridScan hangs_at_1 plan_3x2 None rig0)) =
    repeat Settle 6.
Proof.
  assert (Hsame : same_lengths plan_3x2) by (repeat split).
  assert (Hi : (1 < length (locX plan_3x2))%nat) by (cbn; lia).
  assert (Hw : (0 < 3)%nat) by lia.
  assert (Hclean : forall w', (w' < 0)%nat -> camera hangs_at_1 1 w' = NoFile)
    by (intros w' Hw'; lia).
  assert (Hhang : camera hangs_at_1 1 0 = Hangs) by reflexivity.
  assert (Hothers : forall k, (k < length (locX plan_3x2))%nat -> k <> 1%nat ->
                      ~ fails_three_times hangs_at_1 k).
  { intros k _ Hk (H0 & _). destruct k as [|[|k]];
      [discriminate H0 | contradiction | discriminate H0]. }
  apply (hang_skips_coordinate hangs_at_1 plan_3x2 None rig0 1 0
           Hsame Hi Hw Hclean Hhang Hothers).
Defined.

(** * Further properties of the generator *)

Lemma grid_empty (lo hi step : Z) :
  0 < step -> hi < lo -> grid lo hi step = [].
Proof.
  intros Hstep Hlt. unfold grid, arange_len.
  pose proof (Z.div_pos (lo - (hi + 1)) step ltac:(lia) Hstep) as Hq.
  replace (Z.to_nat (- ((lo - (hi + 1)) / step))) with 0%nat by lia.
  reflexivity.
Qed.

Lemma grid_nonempty (lo hi step : Z) :
  valid_triple lo hi step -> grid lo hi step <> [].
Proof.
  intros H Hnil. pose proof (length_grid lo hi step H) as Hlen.
  pose proof (point_count_positive lo hi step H). rewrite Hnil in Hlen.
  cbn in Hlen. lia.
Qed.

Lemma zero_step_rejected
    (XMin XMax YMin YMax ZMin ZMax RMin RMax XSteps YSteps ZSteps RSteps : Z) :
  XSteps = 0 \/ YSteps = 0 \/ ZSteps = 0 \/ RSteps = 0 ->
  DefineScan XMin XMax YMin YMax ZMin ZMax RMin RMax
             XSteps YSteps ZSteps RSteps = Raise ZeroStepError.
Proof.
  intros Hzero. unfold DefineScan. cbv zeta.
  destruct (Z.eq_dec XSteps 0) as [->|HX]; [reflexivity|].
  rewrite arange_grid by exact HX. cbn [and_then].
  destruct (Z.eq_dec YSteps 0) as [->|HY]; [reflexivity|].
  rewrite arange_grid by exact HY. cbn [and_then].
  destruct (Z.eq_dec ZSteps 0) as [->|HZ]; [reflexivity|].
  rewrite arange_grid by exact HZ. cbn [and_then].
  destruct (Z.eq_dec RSteps 0) as [->|HR]; [reflexivity|].
  exfalso. destruct Hzero as [H|[H|[H|H]]]; contradiction.
Qed.

(** X1: a zero step on any axis makes [DefineScan] fail with the zero-step
    error of [arange], whatever the bounds and the other steps are. *)
Theorem DefineScan_zero_step
    (XMin XMax YMin YMax ZMin ZMax RMin RMax XSteps YSteps ZSteps RSteps : Z) :
  XSteps = 0 \/ YSteps = 0 \/ ZSteps = 0 \/ RSteps = 0 ->
  DefineScan XMin XMax YMin YMax ZMin ZMax RMin RMax
             XSteps YSteps ZSteps RSteps = Raise ZeroStepError.
Proof. apply zero_step_rejected. Qed.

Lemma DefineScan_zero_step_z :
  DefineScan 0 2 0 1 0 0 0 0 1 1 0 1 = Raise ZeroStepError.
Proof.
  apply (DefineScan_zero_step 0 2 0 1 0 0 0 0 1 1 0 1).
  right. right. left. reflexivity.
Defined.

Lemma DefineScan_no_columns
    (XMin XMax YMin YMax ZMin ZMax RMin RMax XSteps YSteps ZSteps RSteps : Z) :
  0 < XSteps -> 0 < YSteps -> 0 < ZSteps -> 0 < RSteps ->
  XMax < XMin -> YMin <= YMax ->
  DefineScan XMin XMax YMin YMax ZMin ZMax RMin RMax
             XSteps YSteps ZSteps RSteps = Ret (mkLocations [] [] [] []).
Proof.
  intros HX HY HZ HR Hx Hy.
  rewrite DefineScan_on_grids by lia.
  rewrite (grid_empty XMin XMax XSteps) by assumption.
  destruct (build_scan [] (grid YMin YMax YSteps) (grid ZMin ZMax ZSteps)
              (grid RMin RMax RSteps)) as [loc|e] eqn:Hrun.
  - pose proof (build_scan_lengths _ _ _ _ _ Hrun) as Hlen. cbv zeta in Hlen.
    cbn [length] in Hlen. rewrite !Nat.mul_0_r in Hlen.
    destruct Hlen as (H1 & H2 & H3 & H4). destruct loc as [lx ly lz lr].
    cbn [locX locY locZ locR] in *.
    apply length_zero_iff_nil in H1, H2, H3, H4. subst. reflexivity.
  - rewrite build_scan_normal in Hrun
      by (apply grid_nonempty; split; assumption).
    discriminate Hrun.
Qed.

(** X2: with positive steps, a Y range whose maximum is below its minimum
    makes [DefineScan] fail with [ValueError] (nothing to concatenate),
    whereas an X range whose maximum is below its minimum, the Y range being
    valid, gives a plan with four empty lists. *)
Theorem DefineScan_inverted_bounds
    (XMin XMax YMin YMax ZMin ZMax RMin RMax XSteps YSteps ZSteps RSteps : Z) :
  0 < XSteps -> 0 < YSteps -> 0 < ZSteps -> 0 < RSteps ->
  (YMax < YMin ->
   DefineScan XMin XMax YMin YMax ZMin ZMax RMin RMax
              XSteps YSteps ZSteps RSteps = Raise ValueError) /\
  (XMax < XMin -> YMin <= YMax ->
   DefineScan XMin XMax YMin YMax ZMin ZMax RMin RMax
              XSteps YSteps ZSteps RSteps = Ret (mkLocations [] [] [] [])).
Proof.
  intros HX HY HZ HR. split.
  - intros Hy. rewrite DefineScan_on_grids by lia.
    rewrite (grid_empty YMin YMax YSteps) by assumption.
    apply build_scan_no_rows.
  - intros Hx Hy. apply DefineScan_no_columns; assumption.
Qed.

Lemma DefineScan_inverted_bounds_example :
  DefineScan 0 2 5 1 0 0 0 0 1 1 1 1 = Raise ValueError /\
  DefineScan 5 2 0 1 0 0 0 0 1 1 1 1 = Ret (mkLocations [] [] [] []).
Proof.
  split.
  - apply (DefineScan_inverted_bounds 0 2 5 1 0 0 0 0 1 1 1 1); lia.
  - apply (DefineScan_inverted_bounds 5 2 0 1 0 0 0 0 1 1 1 1); lia.
Defined.

Lemma Forall_grid (lo hi step : Z) :
  valid_triple lo hi step ->
  Forall (fun v => lo <= v <= hi) (grid lo hi step).
Proof.
  intros H. apply Forall_forall. intros v Hv. unfold grid in Hv.
  apply in_map_iff in Hv. destruct Hv as (k & <- & Hk).
  apply in_range in Hk. rewrite arange_len_valid in Hk by exact H.
  apply grid_within_bounds; assumption.
Qed.

Lemma Forall_stride (P : Z -> Prop) (s : Z) (l : list Z) :
  Forall P l -> Forall P (stride s l).
Proof. intros H. unfold stride. destruct (0 <? s); [exact H | apply Forall_rev, H]. Qed.

Lemma Forall_repeat {A : Type} (P : A -> Prop) (a : A) (n : nat) :
  P a -> Forall P (repeat a n).
Proof. intros H. apply Forall_forall. intros x Hx. apply repeat_spec in Hx. subst. exact H. Qed.

Lemma Forall_nth_range (P : Z -> Prop) (l : list Z) (i : nat) :
  Forall P l -> In i (range (length l)) -> P (nth i l 0).
Proof.
  intros H Hi. apply in_range in Hi.
  rewrite Forall_forall in H. apply H, nth_In, Hi.
Qed.

(** The values of a built plan are values of its grids. *)
Lemma build_scan_values (PX PY PZ PR : Z -> Prop)
    (xgrid ygrid zgrid rgrid : list Z) (loc : ScanLocations) :
  build_scan xgrid ygrid zgrid rgrid = Ret loc ->
  Forall PX xgrid -> Forall PY ygrid -> Forall PZ zgrid -> Forall PR rgrid ->
  Forall PX (locX loc) /\ Forall PY (locY loc) /\
  Forall PZ (locZ loc) /\ Forall PR (locR loc).
Proof.
  intros Hrun HX HY HZ HR.
  destruct ygrid as [|y0 ygrid]; [discriminate Hrun|].
  rewrite build_scan_normal in Hrun by discriminate.
  injection Hrun as <-. cbn [locX locY locZ locR].
  set (yg := y0 :: ygrid) in *.
  assert (Hxs : Forall PX (raster_x xgrid yg)).
  { unfold raster_x. apply Forall_flat_map, Forall_forall.
    intros iy _. apply Forall_stride, HX. }
  assert (Hys : Forall PY (raster_y xgrid yg)).
  { unfold raster_y. apply Forall_flat_map, Forall_forall.
    intros [i y] Hiy. apply Forall_repeat. cbn [snd].
    unfold enumerate in Hiy. apply in_combine_r in Hiy.
    rewrite Forall_forall in HY. apply HY, Hiy. }
  repeat split.
  - apply Forall_flat_map, Forall_forall. intros _ _.
    apply Forall_flat_map, Forall_forall. intros _ _. exact Hxs.
  - apply Forall_flat_map, Forall_forall. intros _ _.
    apply Forall_flat_map, Forall_forall. intros _ _. exact Hys.
  - apply Forall_flat_map, Forall_forall. intros _ _.
    apply Forall_flat_map, Forall_forall. intros i Hi.
    apply Forall_repeat, Forall_nth_range; assumption.
  - apply Forall_flat_map, Forall_forall. intros i Hi.
    apply Forall_repeat, Forall_nth_range; assumption.
Qed.

(** X3: for valid (min, max, step) triples every coordinate of the plan
    lies within the bounds given for its axis: the generated scan never
    leaves the requested volume. *)
Theorem DefineScan_within_bounds
    (XMin XMax YMin YMax ZMin ZMax RMin RMax XSteps YSteps ZSteps RSteps : Z)
    (loc : ScanLocations) :
  valid_triple XMin XMax XSteps -> valid_triple YMin YMax YSteps ->
  valid_triple ZMin ZMax ZSteps -> valid_triple RMin RMax RSteps ->
  DefineScan XMin XMax YMin YMax ZMin ZMax RMin RMax
             XSteps YSteps ZSteps RSteps = Ret loc ->
  Forall (fun x => XMin <= x <= XMax) (locX loc) /\
  Forall (fun y => YMin <= y <= YMax) (locY loc) /\
  Forall (fun z => ZMin <= z <= ZMax) (locZ loc) /\
  Forall (fun r => RMin <= r <= RMax) (locR loc).
Proof.
  intros HX HY HZ HR Hrun. apply DefineScan_grids in Hrun.
  apply (build_scan_values _ _ _ _ _ _ _ _ _ Hrun); apply Forall_grid; assumption.
Qed.

Lemma DefineScan_within_bounds_3x2 :
  Forall (fun x => 0 <= x <= 2) (locX plan_3x2) /\
  Forall (fun y => 0 <= y <= 1) (locY plan_3x2).
Proof.
  assert (V2 : valid_triple 0 2 1) by (unfold valid_triple; lia).
  assert (V1 : valid_triple 0 1 1) by (unfold valid_triple; lia).
  assert (V0 : valid_triple 0 0 1) by (unfold valid_triple; lia).
  assert (Hrun : DefineScan 0 2 0 1 0 0 0 0 1 1 1 1 = Ret plan_3x2)
    by (vm_compute; reflexivity).
  destruct (DefineScan_within_bounds 0 2 0 1 0 0 0 0 1 1 1 1 plan_3x2
              V2 V1 V0 V0 Hrun) as (HX & HY & _).
  split; assumption.
Defined.

(** The coordinate at each position of a plan generated from valid
    triples. *)
Lemma valid_plan_positions
    (XMin XMax YMin YMax ZMin ZMax RMin RMax XSteps YSteps ZSteps RSteps : Z)
    (loc : ScanLocations) (r z j k : nat) :
  valid_triple XMin XMax XSteps -> valid_triple YMin YMax YSteps ->
  valid_triple ZMin ZMax ZSteps -> valid_triple RMin RMax RSteps ->
  DefineScan XMin XMax YMin YMax ZMin ZMax RMin RMax
             XSteps YSteps ZSteps RSteps = Ret loc ->
  let nx := point_count XMin XMax XSteps in
  let ny := point_count YMin YMax YSteps in
  let nz := point_count ZMin ZMax ZSteps in
  let nr := point_count RMin RMax RSteps in
  (r < nr)%nat -> (z < nz)%nat -> (j < ny)%nat -> (k < nx)%nat ->
  let p := plan_index nx ny nz r z j k in
  nth p (locX loc) 0 = XMin + Z.of_nat (serpentine_column nx j k) * XSteps /\
  nth p (locY loc) 0 = YMin + Z.of_nat j * YSteps /\
  nth p (locZ loc) 0 = ZMin + Z.of_nat z * ZSteps /\
  nth p (locR loc) 0 = RMin + Z.of_nat r * RSteps.
Proof.
  intros HX HY HZ HR Hrun nx ny nz nr Hr Hz Hj Hk p.
  apply DefineScan_grids in Hrun.
  pose proof (length_grid _ _ _ HX) as Lx. pose proof (length_grid _ _ _ HY) as Ly.
  pose proof (length_grid _ _ _ HZ) as Lz. pose proof (length_grid _ _ _ HR) as Lr.
  fold nx in Lx. fold ny in Ly. fold nz in Lz. fold nr in Lr.
  pose proof (build_scan_positions _ _ _ _ loc r z j k Hrun) as Hpos.
  rewrite Lx, Ly, Lz, Lr in Hpos. specialize (Hpos Hr Hz Hj Hk).
  cbv zeta in Hpos. fold p in Hpos. destruct Hpos as (P1 & P2 & P3 & P4).
  rewrite P1, P2, P3, P4.
  rewrite !nth_grid
    by (rewrite ?Lx, ?Ly, ?Lz, ?Lr; unfold serpentine_column;
        destruct (Nat.even j); lia).
  repeat split.
Qed.

(** X4: the serpentine order moves one axis by one step at a time.  Inside
    a (Z, R) block of a plan generated from valid triples, the coordinate
    after column [k] of row [j] keeps Z and R and either stays in the row,
    with X one step further in the direction of the row (up on even rows,
    down on odd rows) and Y unchanged, or, at the end of the row, keeps X and
    moves Y up by one step. *)
Theorem DefineScan_one_step_at_a_time
    (XMin XMax YMin YMax ZMin ZMax RMin RMax XSteps YSteps ZSteps RSteps : Z)
    (loc : ScanLocations) (r z j k : nat) :
  valid_triple XMin XMax XSteps -> valid_triple YMin YMax YSteps ->
  valid_triple ZMin ZMax ZSteps -> valid_triple RMin RMax RSteps ->
  DefineScan XMin XMax YMin YMax ZMin ZMax RMin RMax
             XSteps YSteps ZSteps RSteps = Ret loc ->
  let nx := point_count XMin XMax XSteps in
  let ny := point_count YMin YMax YSteps in
  let nz := point_count ZMin ZMax ZSteps in
  let nr := point_count RMin RMax RSteps in
  (r < nr)%nat -> (z < nz)%nat -> (j < ny)%nat -> (k < nx)%nat ->
  (j * nx + k + 1 < ny * nx)%nat ->
  let p := plan_index nx ny nz r z j k in
  nth (S p) (locZ loc) 0 = nth p (locZ loc) 0 /\
  nth (S p) (locR loc) 0 = nth p (locR loc) 0 /\
  ((k + 1 < nx)%nat ->
   nth (S p) (locY loc) 0 = nth p (locY loc) 0 /\
   nth (S p) (locX loc) 0 =
     nth p (locX loc) 0 + (if Nat.even j then XSteps else - XSteps)) /\
  ((k + 1 = nx)%nat ->
   nth (S p) (locX loc) 0 = nth p (locX loc) 0 /\
   nth (S p) (locY loc) 0 = nth p (locY loc) 0 + YSteps).
Proof.
  intros HX HY HZ HR Hrun nx ny nz nr Hr Hz Hj Hk Hnext p.
  destruct (valid_plan_positions _ _ _ _ _ _ _ _ _ _ _ _ loc r z j k
              HX HY HZ HR Hrun Hr Hz Hj Hk) as (PX & PY & PZ & PR).
  fold nx ny nz nr in PX, PY, PZ, PR. fold p in PX, PY, PZ, PR.
  destruct (Nat.eq_dec (k + 1) nx) as [Hlast|Hin].
  - assert (Hj' : (S j < ny)%nat) by nia.
    assert (Hp : S p = plan_index nx ny nz r z (S j) 0)
      by (unfold p, plan_index; nia).
    destruct (valid_plan_positions _ _ _ _ _ _ _ _ _ _ _ _ loc r z (S j) 0%nat
                HX HY HZ HR Hrun Hr Hz Hj' ltac:(lia)) as (QX & QY & QZ & QR).
    fold nx ny nz nr in QX, QY, QZ, QR. rewrite <- Hp in QX, QY, QZ, QR.
    rewrite PX, PY, PZ, PR, QX, QY, QZ, QR.
    split; [reflexivity|]. split; [reflexivity|]. split; [intros; lia|].
    intros _. split; [|lia].
    unfold serpentine_column. rewrite Nat.even_succ, <- Nat.negb_even.
    destruct (Nat.even j); cbn [negb]; f_equal; f_equal; lia.
  - assert (Hk' : (S k < nx)%nat) by lia.
    assert (Hp : S p = plan_index nx ny nz r z j (S k))
      by (unfold p, plan_index; lia).
    destruct (valid_plan_positions _ _ _ _ _ _ _ _ _ _ _ _ loc r z j (S k)
                HX HY HZ HR Hrun Hr Hz Hj Hk') as (QX & QY & QZ & QR).
    fold nx ny nz nr in QX, QY, QZ, QR. rewrite <- Hp in QX, QY, QZ, QR.
    rewrite PX, PY, PZ, PR, QX, QY, QZ, QR.
    split; [reflexivity|]. split; [reflexivity|]. split; [|intros; lia].
    intros _. split; [reflexivity|].
    unfold serpentine_column. destruct (Nat.even j).
    + rewrite Nat2Z.inj_succ. lia.
    + replace (nx - 1 - k)%nat with (S (nx - 1 - S k)) by lia.
      rewrite Nat2Z.inj_succ. lia.
Qed.

Lemma DefineScan_one_step_at_a_time_3x2 :
  nth 3 (locX plan_3x2) 0 = nth 2 (locX plan_3x2) 0 /\
  nth 3 (locY plan_3x2) 0 = nth 2 (locY plan_3x2) 0 + 1.
Proof.
  assert (V2 : valid_triple 0 2 1) by (unfold valid_triple; lia).
  assert (V1 : valid_triple 0 1 1) by (unfold valid_triple; lia).
  assert (V0 : valid_triple 0 0 1) by (unfold valid_triple; lia).
  assert (Hrun : DefineScan 0 2 0 1 0 0 0 0 1 1 1 1 = Ret plan_3x2)
    by (vm_compute; reflexivity).
  assert (H1 : (0 < point_count 0 0 1)%nat) by (vm_compute; lia).
  assert (Hj : (0 < point_count 0 1 1)%nat) by (vm_compute; lia).
  assert (Hk : (2 < point_count 0 2 1)%nat) by (vm_compute; lia).
  assert (Hnext : (0 * point_count 0 2 1 + 2 + 1 <
                   point_count 0 1 1 * point_count 0 2 1)%nat)
    by (vm_compute; lia).
  destruct (DefineScan_one_step_at_a_time 0 2 0 1 0 0 0 0 1 1 1 1 plan_3x2
              0 0 0 2 V2 V1 V0 V0 Hrun H1 H1 Hj Hk Hnext) as (_ & _ & _ & Hrow).
  apply Hrow. vm_compute. reflexivity.
Defined.

(** * Further properties of the axis drivers *)

(** X5: a GoTo on X, Y or Z to a destination within its bounds arrives
    there from any position: the tracked position becomes the destination,
    exactly |destination - position| pulses are sent to that axis and
    nothing is reported. *)
Theorem goto_arrives (dx dy dz xmin ymin zmin : Z) (s : rig) :
  xmin <= dx <= XMax -> ymin <= dy <= YMax -> zmin <= dz <= ZMax ->
  (state_of (XGoTo (PyInt dx) xmin s) = set_GlobalX dx s /\
   pulses AxX (events_of (XGoTo (PyInt dx) xmin s)) = Z.abs_nat (dx - GlobalX s) /\
   reports_out_of_range (events_of (XGoTo (PyInt dx) xmin s)) = false) /\
  (state_of (YGoTo (PyInt dy) ymin s) = set_GlobalY dy s /\
   pulses AxY (events_of (YGoTo (PyInt dy) ymin s)) = Z.abs_nat (dy - GlobalY s) /\
   reports_out_of_range (events_of (YGoTo (PyInt dy) ymin s)) = false) /\
  (state_of (ZGoTo (PyInt dz) zmin s) = set_GlobalZ dz s /\
   pulses AxZ (events_of (ZGoTo (PyInt dz) zmin s)) = Z.abs_nat (dz - GlobalZ s) /\
   reports_out_of_range (events_of (ZGoTo (PyInt dz) zmin s)) = false).
Proof.
  intros HX HY HZ.
  rewrite (XGoTo_in_range _ _ s HX), (YGoTo_in_range _ _ s HY),
          (ZGoTo_in_range _ _ s HZ).
  cbn [state_of events_of fst snd].
  rewrite !pulses_move by apply readout_not_step.
  rewrite !move_not_reported by reflexivity.
  repeat split.
Qed.

Lemma goto_arrives_example :
  GlobalX (state_of (XGoTo (PyInt 150) 0 rig0)) = 150 /\
  pulses AxX (events_of (XGoTo (PyInt 150) 0 rig0)) = 150%nat.
Proof.
  assert (HX : 0 <= 150 <= XMax) by (unfold XMax; lia).
  assert (HY : 0 <= 0 <= YMax) by (unfold YMax; lia).
  assert (HZ : 0 <= 0 <= ZMax) by (unfold ZMax; lia).
  destruct (goto_arrives 150 0 0 0 0 0 rig0 HX HY HZ) as ((Hs & Hp & _) & _).
  split; [rewrite Hs; reflexivity | rewrite Hp; reflexivity].
Defined.

Lemma XGoTo_cases (dest : pyarg) (lo : Z) (s : rig) :
  (exists d, dest = PyInt d /\ lo <= d <= XMax /\
             state_of (XGoTo dest lo s) = set_GlobalX d s /\
             pulses AxX (events_of (XGoTo dest lo s)) = Z.abs_nat (d - GlobalX s)) \/
  (state_of (XGoTo dest lo s) = s /\
   pulses AxX (events_of (XGoTo dest lo s)) = 0%nat).
Proof.
  destruct dest as [d|]; [|right; split; reflexivity].
  assert (Hdec : lo <= d <= XMax \/ ~ (lo <= d <= XMax)) by lia.
  destruct Hdec as [H|H].
  - left. exists d. rewrite XGoTo_in_range by exact H.
    cbn [state_of events_of fst snd].
    rewrite pulses_move by apply readout_not_step. repeat split; apply H.
  - right. rewrite XGoTo_out_of_range by exact H. split; reflexivity.
Qed.

Lemma YGoTo_cases (dest : pyarg) (lo : Z) (s : rig) :
  (exists d, dest = PyInt d /\ lo <= d <= YMax /\
             state_of (YGoTo dest lo s) = set_GlobalY d s /\
             pulses AxY (events_of (YGoTo dest lo s)) = Z.abs_nat (d - GlobalY s)) \/
  (state_of (YGoTo dest lo s) = s /\
   pulses AxY (events_of (YGoTo dest lo s)) = 0%nat).
Proof.
  destruct dest as [d|]; [|right; split; reflexivity].
  assert (Hdec : lo <= d <= YMax \/ ~ (lo <= d <= YMax)) by lia.
  destruct Hdec as [H|H].
  - left. exists d. rewrite YGoTo_in_range by exact H.
    cbn [state_of events_of fst snd].
    rewrite pulses_move by apply readout_not_step. repeat split; apply H.
  - right. rewrite YGoTo_out_of_range by exact H. split; reflexivity.
Qed.

Lemma ZGoTo_cases (dest : pyarg) (lo : Z) (s : rig) :
  (exists d, dest = PyInt d /\ lo <= d <= ZMax /\
             state_of (ZGoTo dest lo s) = set_GlobalZ d s /\
             pulses AxZ (events_of (ZGoTo dest lo s)) = Z.abs_nat (d - GlobalZ s)) \/
  (state_of (ZGoTo dest lo s) = s /\
   pulses AxZ (events_of (ZGoTo dest lo s)) = 0%nat).
Proof.
  destruct dest as [d|]; [|right; split; reflexivity].
  assert (Hdec : lo <= d <= ZMax \/ ~ (lo <= d <= ZMax)) by lia.
  destruct Hdec as [H|H].
  - left. exists d. rewrite ZGoTo_in_range by exact H.
    cbn [state_of events_of fst snd].
    rewrite pulses_move by apply readout_not_step. repeat split; apply H.
  - right. rewrite ZGoTo_out_of_range by exact H. split; reflexivity.
Qed.

(** X6: the GoTo of X, Y and Z keep the position of their axis within
    [0, max].  Whatever the argument (in range, out of range, not an
    integer) and for any lower bound that is not negative, a position
    within [0, max] is within [0, max] afterwards, and the number of pulses
    sent always equals the distance the tracked position has moved. *)
Theorem goto_keeps_range (dest : pyarg) (lo : Z) (s : rig) :
  0 <= lo ->
  (0 <= GlobalX s <= XMax ->
   0 <= GlobalX (state_of (XGoTo dest lo s)) <= XMax) /\
  (0 <= GlobalY s <= YMax ->
   0 <= GlobalY (state_of (YGoTo dest lo s)) <= YMax) /\
  (0 <= GlobalZ s <= ZMax ->
   0 <= GlobalZ (state_of (ZGoTo dest lo s)) <= ZMax) /\
  pulses AxX (events_of (XGoTo dest lo s)) =
    Z.abs_nat (GlobalX (state_of (XGoTo dest lo s)) - GlobalX s) /\
  pulses AxY (events_of (YGoTo dest lo s)) =
    Z.abs_nat (GlobalY (state_of (YGoTo dest lo s)) - GlobalY s) /\
  pulses AxZ (events_of (ZGoTo dest lo s)) =
    Z.abs_nat (GlobalZ (state_of (ZGoTo dest lo s)) - GlobalZ s).
Proof.
  intros Hlo.
  destruct (XGoTo_cases dest lo s) as [(dx & _ & Hdx & -> & ->)|[-> ->]];
  destruct (YGoTo_cases dest lo s) as [(dy & _ & Hdy & -> & ->)|[-> ->]];
  destruct (ZGoTo_cases dest lo s) as [(dz & _ & Hdz & -> & ->)|[-> ->]];
  cbn [set_GlobalX set_GlobalY set_GlobalZ GlobalX GlobalY GlobalZ];
  rewrite ?Z.sub_diag; repeat split; intros; try lia; reflexivity.
Qed.

Lemma goto_keeps_range_example :
  0 <= GlobalX (state_of (XGoTo (PyInt 5000) 0 rig0)) <= XMax.
Proof.
  destruct (goto_keeps_range (PyInt 5000) 0 rig0 (Z.le_refl 0)) as (HX & _).
  apply HX. unfold XMax. cbn. lia.
Defined.

(** X7: on X, Y and Z a move forward by [n] followed by a move backward by
    [n] brings the rig back to the state it started from, after
    [2 * max(n, 0)] pulses: for a negative [n] no pulse is sent at all,
    although each of the two moves shifts the tracked position. *)
Theorem move_there_and_back (n : Z) (d1 d2 : speed) (s : rig) :
  (state_of ((MoveX XFORWARD n d1 ;; MoveX XBACKWARD n d2) s) = s /\
   pulses AxX (events_of ((MoveX XFORWARD n d1 ;; MoveX XBACKWARD n d2) s)) =
     (2 * Z.to_nat n)%nat /\
   GlobalX (state_of (MoveX XFORWARD n d1 s)) = GlobalX s + n) /\
  (state_of ((MoveY YFORWARD n d1 ;; MoveY YBACKWARD n d2) s) = s /\
   pulses AxY (events_of ((MoveY YFORWARD n d1 ;; MoveY YBACKWARD n d2) s)) =
     (2 * Z.to_nat n)%nat /\
   GlobalY (state_of (MoveY YFORWARD n d1 s)) = GlobalY s + n) /\
  (state_of ((MoveZ ZFORWARD n d1 ;; MoveZ ZBACKWARD n d2) s) = s /\
   pulses AxZ (events_of ((MoveZ ZFORWARD n d1 ;; MoveZ ZBACKWARD n d2) s)) =
     (2 * Z.to_nat n)%nat /\
   GlobalZ (state_of (MoveZ ZFORWARD n d1 s)) = GlobalZ s + n).
Proof.
  repeat split.
  - erewrite bind_ret_elim; [ | apply MoveX_run | apply MoveX_run ]. cbn.
    destruct s; unfold set_GlobalX, set_GlobalY, set_GlobalZ; cbn; f_equal; lia.
  - erewrite bind_ret_elim; [ | apply MoveX_run | apply MoveX_run ]. cbn [events_of snd].
    rewrite pulses_app, !pulses_move by apply readout_not_step. lia.
  - erewrite bind_ret_elim; [ | apply MoveY_run | apply MoveY_run ]. cbn.
    destruct s; unfold set_GlobalX, set_GlobalY, set_GlobalZ; cbn; f_equal; lia.
  - erewrite bind_ret_elim; [ | apply MoveY_run | apply MoveY_run ]. cbn [events_of snd].
    rewrite pulses_app, !pulses_move by apply readout_not_step. lia.
  - erewrite bind_ret_elim; [ | apply MoveZ_run | apply MoveZ_run ]. cbn.
    destruct s; unfold set_GlobalX, set_GlobalY, set_GlobalZ; cbn; f_equal; lia.
  - erewrite bind_ret_elim; [ | apply MoveZ_run | apply MoveZ_run ]. cbn [events_of snd].
    rewrite pulses_app, !pulses_move by apply readout_not_step. lia.
Qed.

(** * Further properties of homing *)

Lemma coarse_steps_Y_app l1 l2 :
  coarse_steps_Y (l1 ++ l2) = (coarse_steps_Y l1 + coarse_steps_Y l2)%nat.
Proof. unfold coarse_steps_Y. rewrite filter_app, length_app. reflexivity. Qed.

Lemma coarse_move_Y d delay n v :
  coarse_steps_Y (SetDir AxY d :: repeat (Step AxY delay) n ++ [Readout AxY v]) =
  match delay with
  | FASTER => n
  | _ => 0%nat
  end.
Proof.
  unfold coarse_steps_Y. cbn [filter is_coarse_Y]. rewrite filter_app.
  destruct delay;
    rewrite ?filter_repeat_true, ?filter_repeat_false by reflexivity;
    cbn; rewrite ?app_nil_r, ?repeat_length; reflexivity.
Qed.

(** The bounce check of [HomeY] takes no coarse step and at most one slow
    step per iteration; when it confirms it returns [i] with the position
    reset to 0. *)
Lemma HomeY_bounce_spec env i js s :
  exists r s1 e1,
    HomeY_bounce env i js s = (Ret r, s1, e1) /\
    coarse_steps_Y e1 = 0%nat /\
    (pulses AxY e1 <= length js)%nat /\
    (forall v, r = Some v -> v = i /\ GlobalY s1 = 0).
Proof.
  revert s. induction js as [|j js IH]; intros s; cbn [HomeY_bounce].
  - exists None, s, []. repeat split; try discriminate. cbn. lia.
  - destruct (CheckPress_run env YLimit s) as (b & s1 & Hc). destruct b.
    + eexists _, _, _. split; [eapply bind_ret_elim; [exact Hc | reflexivity]|].
      cbn. repeat split; try lia; congruence.
    + destruct (IH (state_of (MoveY YBACKWARD 1 SLOW s1)))
        as (r & s2 & e2 & Hrun & Hcoarse & Hpulses & Hres).
      eexists _, _, _. split.
      * eapply bind_ret_elim; [exact Hc|].
        eapply bind_ret_elim; [apply MoveY_run | exact Hrun].
      * cbn [app].
        split; [|split; [|exact Hres]].
        -- rewrite app_comm_cons, coarse_steps_Y_app, coarse_move_Y. exact Hcoarse.
        -- rewrite app_comm_cons, pulses_app, pulses_move
             by apply readout_not_step.
           cbn [length]. lia.
Qed.

(** The seeking loop of [HomeY] over [a, a+1, ..., a+n-1]. *)
Lemma HomeY_seek_spec env n : forall a s,
  exists r s1 e1,
    HomeY_seek env (seq a n) s = (Ret r, s1, e1) /\
    (pulses AxY e1 <= n * 651)%nat /\
    match r with
    | Some v => (a <= v < a + n)%nat /\ GlobalY s1 = 0 /\
                coarse_steps_Y e1 = (v - a)%nat
    | None => coarse_steps_Y e1 = n
    end.
Proof.
  induction n as [|n IH]; intros a s; cbn [seq HomeY_seek].
  - exists None, s, []. repeat split. cbn. lia.
  - destruct (CheckPress_run env YLimit s) as (b & s1 & Hc).
    assert (Hnext : forall s2, exists r s3 e3,
              (MoveY YBACKWARD 1 FASTER ;; HomeY_seek env (seq (S a) n)) s2 =
                (Ret r, s3, e3) /\
              (pulses AxY e3 <= 1 + n * 651)%nat /\
              match r with
              | Some v => (S a <= v < S a + n)%nat /\ GlobalY s3 = 0 /\
                          coarse_steps_Y e3 = (1 + (v - S a))%nat
              | None => coarse_steps_Y e3 = S n
              end).
    { intros s2.
      destruct (IH (S a) (state_of (MoveY YBACKWARD 1 FASTER s2)))
        as (r & s3 & e3 & Hrun & Hp & Hr).
      eexists r, s3, _. split.
      - eapply bind_ret_elim; [apply MoveY_run | exact Hrun].
      - rewrite pulses_app, coarse_steps_Y_app, coarse_move_Y,
          pulses_move by apply readout_not_step.
        split; [lia|]. destruct r as [v|]; intuition lia. }
    destruct b.
    + destruct (HomeY_bounce_spec env a (range 350)
                  (state_of (MoveY YFORWARD 300 SLOW s1)))
        as (r & s2 & e2 & Hrun & Hcoarse & Hpulses & Hres).
      assert (Hfwd : exists e0,
                (MoveY YFORWARD 300 SLOW ;;
                 HomeY_bounce env a (range 350)) s1 = (Ret r, s2, e0 ++ e2) /\
                coarse_steps_Y e0 = 0%nat /\ pulses AxY e0 = 300%nat).
      { eexists. split; [eapply bind_ret_elim; [apply MoveY_run | exact Hrun]|].
        rewrite coarse_move_Y, pulses_move by apply readout_not_step.
        split; [reflexivity | lia]. }
      destruct Hfwd as (e0 & Hfwd & Hfwd_coarse & Hfwd_pulses).
      destruct r as [v|].
      * destruct (Hres v eq_refl) as [-> Hzero].
        eexists _, _, _. split.
        -- eapply bind_ret_elim; [exact Hc|].
           eapply bind_ret_elim; [exact Hfwd | reflexivity].
        -- cbn [app]. rewrite app_nil_r, pulses_app, coarse_steps_Y_app.
           rewrite Hfwd_coarse, Hfwd_pulses, Hcoarse.
           unfold range in Hpulses. rewrite length_seq in Hpulses.
           repeat split; lia.
      * destruct (Hnext s2) as (r' & s3 & e3 & Hrun3 & Hp3 & Hr3).
        eexists r', s3, _. split.
        -- eapply bind_ret_elim; [exact Hc|].
           eapply bind_ret_elim; [exact Hfwd | exact Hrun3].
        -- cbn [app]. rewrite !pulses_app, !coarse_steps_Y_app.
           rewrite Hfwd_coarse, Hfwd_pulses, Hcoarse.
           unfold range in Hpulses. rewrite length_seq in Hpulses.
           split; [lia|]. destruct r' as [v|]; intuition lia.
    + destruct (Hnext s1) as (r' & s3 & e3 & Hrun3 & Hp3 & Hr3).
      eexists r', s3, _. split.
      * eapply bind_ret_elim; [exact Hc|].
        eapply bind_ret_elim; [reflexivity | exact Hrun3].
      * cbn [app]. split; [lia|]. destruct r' as [v|]; intuition lia.
Qed.

(** X9: [HomeY] always terminates by returning, after at most [YMax + 200]
    coarse steps and at most 651 pulses per coarse iteration.  When it
    confirms the switch it returns the number of coarse steps taken, below
    [YMax + 200], with the Y position reset to 0; when the bound runs out it
    returns [None] after exactly [YMax + 200] coarse steps. *)
Theorem HomeY_bounded (env : environment) (s : rig) :
  exists r s1 e1,
    HomeY env s = (Ret r, s1, e1) /\
    (coarse_steps_Y e1 <= Z.to_nat (YMax + 200))%nat /\
    (pulses AxY e1 <= Z.to_nat (YMax + 200) * 651)%nat /\
    match r with
    | Some i => (i < Z.to_nat (YMax + 200))%nat /\
                coarse_steps_Y e1 = i /\ GlobalY s1 = 0
    | None => coarse_steps_Y e1 = Z.to_nat (YMax + 200)
    end.
Proof.
  unfold HomeY, range.
  destruct (HomeY_seek_spec env (Z.to_nat (YMax + 200)) 0%nat s)
    as (r & s1 & e1 & Hrun & Hp & Hr).
  exists r, s1, e1. split; [exact Hrun|].
  destruct r as [i|].
  - destruct Hr as (Hi & Hzero & Hcoarse). rewrite Nat.sub_0_r in Hcoarse.
    repeat split; try assumption; lia.
  - repeat split; try assumption; lia.
Qed.

(** The bounce check of [HomeZ]: at most one step per iteration, and the
    1000 steps back to the bottom of the range when it confirms. *)
Lemma HomeZ_bounce_spec env i js s :
  exists r s1 e1,
    HomeZ_bounce env i js s = (Ret r, s1, e1) /\
    match r with
    | Some v => v = i /\ GlobalZ s1 = 0 /\
                (1000 <= pulses AxZ e1 <= length js + 1000)%nat
    | None => (pulses AxZ e1 <= length js)%nat
    end.
Proof.
  revert s. induction js as [|j js IH]; intros s; cbn [HomeZ_bounce].
  - exists None, s, []. split; [reflexivity|]. cbn. lia.
  - destruct (CheckPress_run env ZLimit s) as (b & s1 & Hc). destruct b.
    + eexists _, _, _. split.
      * eapply bind_ret_elim; [exact Hc|].
        eapply bind_ret_elim; [apply MoveZ_run | reflexivity].
      * cbn [app]. rewrite app_comm_cons, pulses_app, pulses_move
          by apply readout_not_step.
        cbn. repeat split; lia.
    + destruct (IH (state_of (MoveZ ZBACKWARD 1 FAST s1)))
        as (r & s2 & e2 & Hrun & Hres).
      eexists _, _, _. split.
      * eapply bind_ret_elim; [exact Hc|].
        eapply bind_ret_elim; [apply MoveZ_run | exact Hrun].
      * cbn [app]. rewrite app_comm_cons, pulses_app, pulses_move
          by apply readout_not_step.
        cbn [length]. destruct r as [v|]; intuition lia.
Qed.

Lemma HomeZ_seek_spec env n : forall a s,
  exists r s1 e1,
    HomeZ_seek env (seq a n) s = (Ret r, s1, e1) /\
    (pulses AxZ e1 <= n * 2601 + 1000)%nat /\
    match r with
    | Some v => (a <= v < a + n)%nat /\ GlobalZ s1 = 0 /\
                (2200 <= pulses AxZ e1)%nat
    | None => (n <= pulses AxZ e1 <= n * 2601)%nat
    end.
Proof.
  induction n as [|n IH]; intros a s; cbn [seq HomeZ_seek].
  - exists None, s, []. repeat split; cbn; lia.
  - destruct (CheckPress_run env ZLimit s) as (b & s1 & Hc).
    assert (Hnext : forall s2, exists r s3 e3,
              (MoveZ ZBACKWARD 1 FAST ;; HomeZ_seek env (seq (S a) n)) s2 =
                (Ret r, s3, e3) /\
              (pulses AxZ e3 <= 1 + n * 2601 + 1000)%nat /\
              match r with
              | Some v => (S a <= v < S a + n)%nat /\ GlobalZ s3 = 0 /\
                          (2200 <= pulses AxZ e3)%nat
              | None => (S n <= pulses AxZ e3 <= 1 + n * 2601)%nat
              end).
    { intros s2.
      destruct (IH (S a) (state_of (MoveZ ZBACKWARD 1 FAST s2)))
        as (r & s3 & e3 & Hrun & Hp & Hr).
      eexists r, s3, _. split.
      - eapply bind_ret_elim; [apply MoveZ_run | exact Hrun].
      - rewrite pulses_app, pulses_move by apply readout_not_step.
        split; [lia|]. destruct r as [v|]; intuition lia. }
    destruct b.
    + destruct (HomeZ_bounce_spec env a (range 1400)
                  (state_of (MoveZ ZFORWARD 1200 FAST s1)))
        as (r & s2 & e2 & Hrun & Hres).
      assert (Hfwd : exists e0,
                (MoveZ ZFORWARD 1200 FAST ;;
                 HomeZ_bounce env a (range 1400)) s1 = (Ret r, s2, e0 ++ e2) /\
                pulses AxZ e0 = 1200%nat).
      { eexists. split; [eapply bind_ret_elim; [apply MoveZ_run | exact Hrun]|].
        rewrite pulses_move by apply readout_not_step. lia. }
      destruct Hfwd as (e0 & Hfwd & Hfwd_pulses).
      unfold range in Hres. rewrite length_seq in Hres.
      destruct r as [v|].
      * destruct Hres as (-> & Hzero & Hp2).
        eexists _, _, _. split.
        -- eapply bind_ret_elim; [exact Hc|].
           eapply bind_ret_elim; [exact Hfwd | reflexivity].
        -- cbn [app]. rewrite app_nil_r, pulses_app, Hfwd_pulses.
           repeat split; lia.
      * destruct (Hnext s2) as (r' & s3 & e3 & Hrun3 & Hp3 & Hr3).
        eexists r', s3, _. split.
        -- eapply bind_ret_elim; [exact Hc|].
           eapply bind_ret_elim; [exact Hfwd | exact Hrun3].
        -- cbn [app]. rewrite !pulses_app, Hfwd_pulses.
           split; [lia|]. destruct r' as [v|]; intuition lia.
    + destruct (Hnext s1) as (r' & s3 & e3 & Hrun3 & Hp3 & Hr3).
      eexists r', s3, _. split.
      * eapply bind_ret_elim; [exact Hc|].
        eapply bind_ret_elim; [reflexivity | exact Hrun3].
      * cbn [app]. split; [lia|]. destruct r' as [v|]; intuition lia.
Qed.

(** X10: [HomeZ] always terminates by returning, after at most
    [(ZMax + 500) * 2601 + 1000] pulses.  When it confirms the switch it
    returns an index below [ZMax + 500] with the Z position reset to 0, the
    axis having made at least the 1200 steps up and the 1000 steps back
    down; when the bound runs out it returns [None] after at least
    [ZMax + 500] steps. *)
Theorem HomeZ_bounded (env : environment) (s : rig) :
  exists r s1 e1,
    HomeZ env s = (Ret r, s1, e1) /\
    (pulses AxZ e1 <= Z.to_nat (ZMax + 500) * 2601 + 1000)%nat /\
    match r with
    | Some i => (i < Z.to_nat (ZMax + 500))%nat /\ GlobalZ s1 = 0 /\
                (2200 <= pulses AxZ e1)%nat
    | None => (Z.to_nat (ZMax + 500) <= pulses AxZ e1)%nat
    end.
Proof.
  unfold HomeZ, range.
  destruct (HomeZ_seek_spec env (Z.to_nat (ZMax + 500)) 0%nat s)
    as (r & s1 & e1 & Hrun & Hp & Hr).
  exists r, s1, e1. split; [exact Hrun|]. split; [exact Hp|].
  destruct r as [i|]; intuition lia.
Qed.

(** ** Debounce *)

Lemma CheckPress_ignores_glitch env p s :
  never_low_twice env p ->
  exists s1,
    CheckPress env p s = (Ret false, s1, []) /\
    GlobalX s1 = GlobalX s /\ GlobalY s1 = GlobalY s /\
    GlobalZ s1 = GlobalZ s /\ GlobalR s1 = GlobalR s.
Proof.
  intros Hglitch. unfold CheckPress, bind, GPIO_input, ret.
  destruct (gpio_level env p (gpio_reads s)) eqn:E; cbn.
  - eexists. repeat split.
  - rewrite (Hglitch _ E). cbn. eexists. repeat split.
Qed.

Lemma HomeX_seek_glitches env l : forall s,
  never_low_twice env XLimit ->
  exists s1 e1,
    HomeX_seek env l s = (Ret None, s1, e1) /\
    GlobalX s1 = GlobalX s - Z.of_nat (length l) /\
    pulses AxX e1 = length l.
Proof.
  induction l as [|i l IH]; intros s Hg; cbn [HomeX_seek length].
  - exists s, []. repeat split. lia.
  - destruct (CheckPress_ignores_glitch env XLimit s Hg) as (s1 & Hc & HX & _).
    destruct (IH (state_of (MoveX XBACKWARD 1 FASTER s1)) Hg)
      as (s2 & e2 & Hrun & Hpos & Hp).
    eexists s2, _. split; [|split].
    + eapply bind_ret_elim; [exact Hc|].
      eapply bind_ret_elim; [reflexivity|].
      eapply bind_ret_elim; [apply MoveX_run | exact Hrun].
    + rewrite Hpos, MoveX_run. cbn. lia.
    + rewrite !app_nil_l, pulses_app, pulses_move by apply readout_not_step.
      rewrite Hp. lia.
Qed.

Lemma HomeY_seek_glitches env l : forall s,
  never_low_twice env YLimit ->
  exists s1 e1,
    HomeY_seek env l s = (Ret None, s1, e1) /\
    GlobalY s1 = GlobalY s - Z.of_nat (length l) /\
    pulses AxY e1 = length l.
Proof.
  induction l as [|i l IH]; intros s Hg; cbn [HomeY_seek length].
  - exists s, []. repeat split. lia.
  - destruct (CheckPress_ignores_glitch env YLimit s Hg) as (s1 & Hc & _ & HY & _).
    destruct (IH (state_of (MoveY YBACKWARD 1 FASTER s1)) Hg)
      as (s2 & e2 & Hrun & Hpos & Hp).
    eexists s2, _. split; [|split].
    + eapply bind_ret_elim; [exact Hc|].
      eapply bind_ret_elim; [reflexivity|].
      eapply bind_ret_elim; [apply MoveY_run | exact Hrun].
    + rewrite Hpos, MoveY_run. cbn. lia.
    + rewrite !app_nil_l, pulses_app, pulses_move by apply readout_not_step.
      rewrite Hp. lia.
Qed.

Lemma HomeZ_seek_glitches env l : forall s,
  never_low_twice env ZLimit ->
  exists s1 e1,
    HomeZ_seek env l s = (Ret None, s1, e1) /\
    GlobalZ s1 = GlobalZ s - Z.of_nat (length l) /\
    pulses AxZ e1 = length l.
Proof.
  induction l as [|i l IH]; intros s Hg; cbn [HomeZ_seek length].
  - exists s, []. repeat split. lia.
  - destruct (CheckPress_ignores_glitch env ZLimit s Hg)
      as (s1 & Hc & _ & _ & HZ & _).
    destruct (IH (state_of (MoveZ ZBACKWARD 1 FAST s1)) Hg)
      as (s2 & e2 & Hrun & Hpos & Hp).
    eexists s2, _. split; [|split].
    + eapply bind_ret_elim; [exact Hc|].
      eapply bind_ret_elim; [reflexivity|].
      eapply bind_ret_elim; [apply MoveZ_run | exact Hrun].
    + rewrite Hpos, MoveZ_run. cbn. lia.
    + rewrite !app_nil_l, pulses_app, pulses_move by apply readout_not_step.
      rewrite Hp. lia.
Qed.

(** X8: the debounce of [CheckPress] makes homing blind to glitches.  When
    a limit input is never low on two reads in a row, the homing of that
    axis never takes it for a press: it steps backward through its whole
    bound (2000 steps on X, 2200 on Y, 3500 on Z), returns [None] and leaves
    the tracked position that many steps below where it started. *)
Theorem homing_ignores_glitches (env : environment) (s : rig) :
  never_low_twice env XLimit -> never_low_twice env YLimit ->
  never_low_twice env ZLimit ->
  (result_of (HomeX env s) = Ret None /\
   pulses AxX (events_of (HomeX env s)) = 2000%nat /\
   GlobalX (state_of (HomeX env s)) = GlobalX s - 2000) /\
  (result_of (HomeY env s) = Ret None /\
   pulses AxY (events_of (HomeY env s)) = 2200%nat /\
   GlobalY (state_of (HomeY env s)) = GlobalY s - 2200) /\
  (result_of (HomeZ env s) = Ret None /\
   pulses AxZ (events_of (HomeZ env s)) = 3500%nat /\
   GlobalZ (state_of (HomeZ env s)) = GlobalZ s - 3500).
Proof.
  intros HX HY HZ.
  destruct (HomeX_seek_glitches env (range (Z.to_nat (XMax + 200))) s HX)
    as (sx & ex & Hx & Px & Nx).
  destruct (HomeY_seek_glitches env (range (Z.to_nat (YMax + 200))) s HY)
    as (sy & ey & Hy & Py & Ny).
  destruct (HomeZ_seek_glitches env (range (Z.to_nat (ZMax + 500))) s HZ)
    as (sz & ez & Hz & Pz & Nz).
  unfold HomeX, HomeY, HomeZ. rewrite Hx, Hy, Hz.
  cbn [result_of state_of events_of fst snd].
  rewrite Px, Py, Pz, Nx, Ny, Nz, !length_range.
  repeat split.
Qed.

Lemma homing_ignores_glitches_bouncing :
  result_of (HomeX bouncing_switch rig0) = Ret None /\
  GlobalX (state_of (HomeX bouncing_switch rig0)) = -2000.
Proof.
  assert (H : forall p, never_low_twice bouncing_switch p).
  { intros p k Hk. cbn in *. rewrite Nat.odd_succ, <- Nat.negb_odd, Hk.
    reflexivity. }
  destruct (homing_ignores_glitches bouncing_switch rig0
              (H XLimit) (H YLimit) (H ZLimit)) as ((Hr & _ & Hp) & _).
  split; [exact Hr | exact Hp].
Defined.

(** * Further properties of the scan *)

(** X11: a scan over an X range whose maximum is below its minimum does not
    pass silently.  [DefineScan] returns the empty plan, and [GridScan] on
    it fails with [ValueError] (the maximum of no rotation values) right
    after reading the clock, before any message, move or capture. *)
Theorem scan_of_empty_range_fails
    (XMin XMax YMin YMax ZMin ZMax RMin RMax XSteps YSteps ZSteps RSteps : Z) :
  0 < XSteps -> 0 < YSteps -> 0 < ZSteps -> 0 < RSteps ->
  XMax < XMin -> YMin <= YMax ->
  exists loc,
    DefineScan XMin XMax YMin YMax ZMin ZMax RMin RMax
               XSteps YSteps ZSteps RSteps = Ret loc /\
    forall env cond s,
      GridScan env loc cond s = (Raise ValueError, tick_clock s, []).
Proof.
  intros HX HY HZ HR Hx Hy. exists (mkLocations [] [] [] []).
  split; [apply DefineScan_no_columns; assumption|].
  intros env cond s. unfold GridScan. rewrite time_time_bind. reflexivity.
Qed.

Lemma scan_of_empty_range_fails_example :
  exists loc,
    DefineScan 5 2 0 1 0 0 0 0 1 1 1 1 = Ret loc /\
    GridScan quiet_world loc None rig0 = (Raise ValueError, tick_clock rig0, []).
Proof.
  destruct (scan_of_empty_range_fails 5 2 0 1 0 0 0 0 1 1 1 1) as (loc & Hrun & Hscan);
    try lia.
  exists loc. split; [exact Hrun | apply Hscan].
Defined.

(** Start-up with a checkpoint whose scan first fails three times at index
    [j]. *)
Lemma startup_first_failure env (p : scan_params) s j :
  same_lengths (fst p) -> (j < length (locX (fst p)))%nat ->
  (forall k, (k < j)%nat -> ~ fails_three_times env k) ->
  fails_three_times env j ->
  exists s1 ev rest,
    startup env (Some p) s = (Ret tt, s1, ev) /\
    milestones ev =
      repeat Settle (S j) ++
      PickleDump (checkpoint_at env (fst p) (Some (snd p)) (clock_reads s) j) ::
      Shutdown :: rest /\
    visits ev = length (locX (fst p)).
Proof.
  intros Hsame Hj Hbefore Hfail. destruct p as [locations c]. cbn [fst snd] in *.
  destruct (startup_scans env locations c s) as (s1 & e1 & R1 & C1 & E1).
  destruct (GridScan_first_failure env locations (Some c) s1 j Hsame Hj Hbefore Hfail)
    as (s2 & e2 & rest & Hrun & Hm & Hv).
  exists s2, (e1 ++ e2), rest. split; [|split].
  - rewrite E1, Hrun. reflexivity.
  - rewrite milestones_app, Hm, (routine_milestones e1 R1), C1. reflexivity.
  - rewrite visits_app, Hv, (routine_visits e1 R1). reflexivity.
Qed.

(** X12: first checkpoints compose across a restart.  Let the first
    three-fold failure of a run be at index [i], and let the run resumed
    from the checkpoint written there have its first three-fold failure at
    its index [j].  The checkpoint the resumed run writes there holds the
    plan from index [i + j] of the original plan on and the rotation value
    of that index, counts two failures more than the first run started
    with, has the labels of pictures [i] and [i + j] and the times of the
    two failures appended, in that order, and carries the original picture
    count, start time and plan of the first checkpoint unchanged. *)
Theorem checkpoints_compose env env' loc cond s s' i j :
  same_lengths loc -> (i + j < length (locX loc))%nat ->
  (forall k, (k < i)%nat -> ~ fails_three_times env k) ->
  fails_three_times env i ->
  (forall k, (k < j)%nat -> ~ fails_three_times env' k) ->
  fails_three_times env' j ->
  exists (p1 p2 : scan_params) (rest1 rest2 : list event),
    milestones (events_of (GridScan env loc cond s)) =
      repeat Settle (S i) ++ PickleDump p1 :: Shutdown :: rest1 /\
    milestones (events_of (startup env' (Some p1) s')) =
      repeat Settle (S j) ++ PickleDump p2 :: Shutdown :: rest2 /\
    fst p2 = suffix (i + j) loc /\
    R_Location (snd p2) = nth (i + j) (locR loc) 0 /\
    num_failures (snd p2) = prior_failures cond + 2 /\
    failed_pics (snd p2) =
      prior_failed_pics cond ++
      [label_at env loc cond (clock env (clock_reads s)) i;
       picture_name (restored_session (snd p1))
                    (count_distinct (skipn i (locR loc)))
                    (nth (i + j) (locX loc) 0) (nth (i + j) (locY loc) 0)
                    (nth (i + j) (locZ loc) 0) (nth (i + j) (locR loc) 0)] /\
    failure_times (snd p2) =
      prior_failure_times cond ++
      [clock env (S (clock_reads s)); clock env' (S (clock_reads s'))] /\
    original_pics (snd p2) = original_pics (snd p1) /\
    original_time (snd p2) = original_time (snd p1) /\
    original_locations (snd p2) = original_locations (snd p1) /\
    original_pics (snd p1) =
      match cond with
      | None => length (locX loc)
      | Some c => original_pics c
      end.
Proof.
  intros Hsame Hij Hbefore Hfail Hbefore' Hfail'.
  destruct (GridScan_first_failure env loc cond s i Hsame ltac:(lia) Hbefore Hfail)
    as (s1 & ev1 & rest1 & Hrun1 & Hm1 & _).
  destruct (length_suffix loc i Hsame) as [Hsame1 Hlen1].
  set (p1 := checkpoint_at env loc cond (clock_reads s) i) in *.
  destruct (startup_first_failure env' p1 s' j)
    as (s2 & ev2 & rest2 & Hrun2 & Hm2 & _); try assumption.
  { unfold p1. cbn [checkpoint_at fst]. lia. }
  exists p1, (checkpoint_at env' (fst p1) (Some (snd p1)) (clock_reads s') j),
         rest1, rest2.
  rewrite Hrun1, Hrun2. cbn [result_of events_of fst snd].
  split; [exact Hm1|]. split; [exact Hm2|].
  unfold p1.
  cbn [checkpoint_at fst snd open_session restored_session
       s_save_location s_filetype s_resolution s_num_failures
       s_original_pics s_original_time s_original_locations
       s_failed_pics s_failure_times num_failures failed_pics
       failure_times original_pics original_time original_locations
       R_Location save_location filetype resolution].
  unfold label_at, suffix.
  cbn [open_session locX locY locZ locR]. rewrite !skipn_skipn, !nth_skipn.
  rewrite (Nat.add_comm j i).
  split; [reflexivity|]. split; [reflexivity|].
  split; [destruct cond; cbn; lia|].
  split; [rewrite <- app_assoc; destruct cond; reflexivity|].
  split; [rewrite <- app_assoc; destruct cond; reflexivity|].
  repeat split. destruct cond; reflexivity.
Qed.

Lemma checkpoints_compose_example :
  exists (p1 p2 : scan_params) (rest1 : list event),
    milestones (events_of (GridScan unplugged_at_1 plan_3x2 None rig0)) =
      repeat Settle 2 ++ PickleDump p1 :: Shutdown :: rest1 /\
    locX (fst p2) = [2; 2; 1; 0] /\ num_failures (snd p2) = 2 /\
    failed_pics (snd p2) =
      ["X0001Y0000Z0000R000of001.jpg"; "X0002Y0000Z0000R000of001.jpg"]%string /\
    original_pics (snd p2) = 6%nat.
Proof.
  assert (Hsame : same_lengths plan_3x2) by (repeat split).
  assert (Hij : (1 + 1 < length (locX plan_3x2))%nat) by (cbn; lia).
  assert (Hbefore : forall k, (k < 1)%nat -> ~ fails_three_times unplugged_at_1 k).
  { intros k Hk (H0 & _). destruct k; [discriminate H0 | lia]. }
  assert (Hfail : fails_three_times unplugged_at_1 1) by (repeat split).
  destruct (checkpoints_compose unplugged_at_1 unplugged_at_1 plan_3x2 None
              rig0 rig0 1 1 Hsame Hij Hbefore Hfail Hbefore Hfail)
    as (p1 & p2 & rest1 & rest2 & Hm1 & Hm2 & Hfst & _ & Hnum & Hpics & _ &
        Horig & _ & _ & Hp1).
  exists p1, p2, rest1. split; [exact Hm1|]. split; [rewrite Hfst; reflexivity|].
  split; [exact Hnum|]. split; [|rewrite Horig, Hp1; reflexivity].
  rewrite Hpics.
  assert (Hp : p1 = checkpoint_at unplugged_at_1 plan_3x2 None 0 1).
  { apply (f_equal (fun l => nth 2 l Settle)) in Hm1.
    vm_compute in Hm1. injection Hm1 as <-. reflexivity. }
  rewrite Hp. reflexivity.
Defined.


(** ** The scan after a restart request *)











(** ** Properties that hold of every event of a run *)

Section Always.
Variable Q : list event -> Prop.
Hypothesis Q_nil : Q [].
Hypothesis Q_app : forall e1 e2, Q e1 -> Q e2 -> Q (e1 ++ e2).

Lemma always_ret {A : Type} (a : A) : always Q (ret a).
Proof. intros s. exact Q_nil. Qed.

Lemma always_raise {A : Type} (e : exn) : always Q (@raise A e).
Proof. intros s. exact Q_nil. Qed.

Lemma always_emit (e : event) : Q [e] -> always Q (emit e).
Proof. intros H s. exact H. Qed.

Lemma always_time_time env : always Q (time_time env).
Proof. intros s. exact Q_nil. Qed.

Lemma always_bind {A B : Type} (m : M A) (k : A -> M B) :
  always Q m -> (forall a, always Q (k a)) -> always Q (bind m k).
Proof.
  intros Hm Hk s. unfold bind. specialize (Hm s).
  destruct (m s) as [[[a|e] s1] e1]; cbn [events_of snd] in *; try exact Hm.
  specialize (Hk a s1). destruct (k a s1) as [[r s2] e2].
  cbn [events_of snd] in *. apply Q_app; assumption.
Qed.

Lemma always_index {B : Type} (l : list Z) (i : nat) (k : Z -> M B) :
  (forall v, nth_error l i = Some v -> always Q (k v)) ->
  always Q (bind (index l i) k).
Proof.
  intros Hk. unfold index. destruct (nth_error l i) as [v|].
  - intros s. rewrite ret_bind. apply (Hk v eq_refl).
  - intros s. exact Q_nil.
Qed.

Lemma always_for_fold {A S : Type} (l : list A) (body : S -> A -> M S) :
  (forall acc a, In a l -> always Q (body acc a)) ->
  forall acc, always Q (for_fold l body acc).
Proof.
  induction l as [|a l IH]; intros Hbody acc; cbn [for_fold].
  - apply always_ret.
  - apply always_bind; [apply Hbody, in_eq|].
    intros acc'. apply IH. intros acc'' b Hb. apply Hbody, in_cons, Hb.
Qed.

Lemma always_routine {A : Type} (m : M A) :
  (forall l, routine_events l -> Q l) -> routine m -> always Q m.
Proof.
  intros HQ Hm s. destruct (Hm s) as (a & s1 & e1 & Hrun & Hev & _).
  rewrite Hrun. apply HQ, Hev.
Qed.

Lemma always_after {A : Type} (e : list event)
    (x : outcome A * rig * list event) :
  Q e -> Q (events_of x) -> Q (events_of (after e x)).
Proof. intros He Hx. unfold after. cbn [events_of snd]. apply Q_app; assumption. Qed.
End Always.

(** ** A scan within the limits of the axes *)

Lemma in_range_only_app (e1 e2 : list event) :
  in_range_only e1 -> in_range_only e2 -> in_range_only (e1 ++ e2).
Proof.
  unfold in_range_only, reports_out_of_range. intros H1 H2.
  rewrite existsb_app, H1, H2. reflexivity.
Qed.

Lemma in_range_only_XGoTo (d : Z) :
  0 <= d <= XMax -> always in_range_only (XGoTo (PyInt d) 0).
Proof.
  intros H s. rewrite XGoTo_in_range by exact H.
  apply move_not_reported. reflexivity.
Qed.

Lemma in_range_only_YGoTo (d : Z) :
  0 <= d <= YMax -> always in_range_only (YGoTo (PyInt d) 0).
Proof.
  intros H s. rewrite YGoTo_in_range by exact H.
  apply move_not_reported. reflexivity.
Qed.

Lemma in_range_only_ZGoTo (d : Z) :
  0 <= d <= ZMax -> always in_range_only (ZGoTo (PyInt d) 0).
Proof.
  intros H s. rewrite ZGoTo_in_range by exact H.
  apply move_not_reported. reflexivity.
Qed.

Lemma in_range_only_RGoTo (d : Z) :
  0 <= d <= StepsPerRotation -> always in_range_only (RGoTo (PyInt d) 0).
Proof.
  intros H s. rewrite RGoTo_in_range by exact H. cbn [events_of snd].
  rewrite <- (app_nil_r (repeat _ _)). apply move_not_reported. reflexivity.
Qed.

Lemma in_range_only_capture env loc ss i folder name :
  always in_range_only (capture_with_retries env loc ss i folder name).
Proof.
  intros s. unfold capture_with_retries, try_except, range. cbn [seq attempts].
  unfold checkpoint_and_restart, index.
  destruct (camera env i 0), (camera env i 1), (camera env i 2),
           (nth_error (locR loc) i); reflexivity.
Qed.

Lemma nth_error_Forall (P : Z -> Prop) (l : list Z) (i : nat) (v : Z) :
  Forall P l -> nth_error l i = Some v -> P v.
Proof.
  intros H Hv. rewrite Forall_forall in H. apply H.
  eapply nth_error_In, Hv.
Qed.

Lemma in_range_only_scan_body env loc ss num_pictures NumberOfRotations i :
  within_limits loc ->
  always in_range_only (scan_body env loc ss num_pictures NumberOfRotations i).
Proof.
  intros (LX & LY & LZ & LR). unfold scan_body.
  pose proof in_range_only_app as Happ.
  assert (Hnil : in_range_only []) by reflexivity.
  apply (always_bind _ Happ).
  { destruct (i mod 100 =? 0)%nat; [|apply always_ret, Hnil].
    apply (always_bind _ Happ); [intros s; reflexivity|].
    intros _ s. reflexivity. }
  intros _. apply (always_index _ Hnil). intros zf Hzf.
  apply (always_index _ Hnil). intros rf Hrf.
  apply (always_bind _ Happ); [intros s; reflexivity|]. intros _.
  apply (always_index _ Hnil). intros xi Hxi.
  apply (always_bind _ Happ);
    [apply in_range_only_XGoTo, (nth_error_Forall _ _ _ _ LX Hxi)|]. intros _.
  apply (always_index _ Hnil). intros yi Hyi.
  apply (always_bind _ Happ);
    [apply in_range_only_YGoTo, (nth_error_Forall _ _ _ _ LY Hyi)|]. intros _.
  apply (always_index _ Hnil). intros zi Hzi.
  apply (always_bind _ Happ);
    [apply in_range_only_ZGoTo, (nth_error_Forall _ _ _ _ LZ Hzi)|]. intros _.
  apply (always_index _ Hnil). intros ri Hri.
  apply (always_bind _ Happ);
    [apply in_range_only_RGoTo, (nth_error_Forall _ _ _ _ LR Hri)|]. intros _.
  apply (always_bind _ Happ); [intros s; reflexivity|]. intros _.
  apply in_range_only_capture.
Qed.

(** X13: a plan whose coordinates all lie within the limits of their axes
    is scanned without a single out-of-range report: every GoTo of the run
    is carried out, whatever the camera does and however the run ends. *)
Theorem scan_within_limits_never_reports env loc cond s :
  within_limits loc ->
  reports_out_of_range (events_of (GridScan env loc cond s)) = false.
Proof.
  intros Hlim. pose proof Hlim as (LX & LY & LZ & LR).
  pose proof in_range_only_app as Happ.
  assert (Hnil : in_range_only []) by reflexivity.
  revert s. change (always in_range_only (GridScan env loc cond)).
  unfold GridScan.
  apply (always_bind _ Happ); [apply always_time_time, Hnil|].
  intros start_time. cbv zeta.
  apply (always_bind _ Happ).
  { destruct (locR loc); [apply always_raise | apply always_ret]; exact Hnil. }
  intros _. apply (always_bind _ Happ); [intros s; reflexivity|]. intros _.
  apply (always_index _ Hnil). intros x0 Hx0.
  apply (always_bind _ Happ);
    [apply in_range_only_XGoTo, (nth_error_Forall _ _ _ _ LX Hx0)|]. intros _.
  apply (always_index _ Hnil). intros y0 Hy0.
  apply (always_bind _ Happ);
    [apply in_range_only_YGoTo, (nth_error_Forall _ _ _ _ LY Hy0)|]. intros _.
  apply (always_index _ Hnil). intros z0 Hz0.
  apply (always_bind _ Happ);
    [apply in_range_only_ZGoTo, (nth_error_Forall _ _ _ _ LZ Hz0)|]. intros _.
  apply (always_index _ Hnil). intros r0 Hr0.
  apply (always_bind _ Happ);
    [apply in_range_only_RGoTo, (nth_error_Forall _ _ _ _ LR Hr0)|]. intros _.
  apply (always_bind _ Happ).
  { apply (always_for_fold _ Hnil Happ). intros ss i _.
    apply in_range_only_scan_body, Hlim. }
  intros ss s. reflexivity.
Qed.

Lemma scan_within_limits_never_reports_3x2 :
  reports_out_of_range
    (events_of (GridScan unplugged_at_1 plan_3x2 None rig0)) = false.
Proof.
  apply scan_within_limits_never_reports.
  unfold within_limits, plan_3x2, XMax, YMax, ZMax, StepsPerRotation.
  cbn [locX locY locZ locR].
  repeat split; repeat (constructor; [lia|]); constructor.
Defined.

(** ** Camera invocations *)

Lemma three_shots_per_visit_app (e1 e2 : list event) :
  three_shots_per_visit e1 -> three_shots_per_visit e2 ->
  three_shots_per_visit (e1 ++ e2).
Proof.
  unfold three_shots_per_visit. rewrite shots_app, visits_app. lia.
Qed.

Lemma capture_counts env loc ss i folder name s :
  (1 <= shots (events_of (capture_with_retries env loc ss i folder name s)) <= 3)%nat /\
  visits (events_of (capture_with_retries env loc ss i folder name s)) = 0%nat.
Proof.
  unfold capture_with_retries, try_except, range. cbn [seq attempts].
  unfold checkpoint_and_restart, index.
  destruct (camera env i 0), (camera env i 1), (camera env i 2),
           (nth_error (locR loc) i); cbn; lia.
Qed.

Lemma scan_body_counts env loc ss num_pictures NumberOfRotations i s :
  same_lengths loc -> (i < length (locX loc))%nat ->
  (1 <= shots (events_of
                 (scan_body env loc ss num_pictures NumberOfRotations i s)) <= 3)%nat /\
  visits (events_of
            (scan_body env loc ss num_pictures NumberOfRotations i s)) = 1%nat.
Proof.
  intros Hsame Hi.
  destruct (in_bounds loc i Hsame Hi) as (HX & HY & HZ & HR).
  destruct (scan_body_run env loc ss num_pictures NumberOfRotations i _ _ _ _ s
              HX HY HZ HR) as (s1 & e1 & R1 & C1 & E1).
  rewrite E1. unfold after. cbn [events_of snd].
  rewrite !shots_app, !visits_app, (routine_shots e1 R1), (routine_visits e1 R1).
  destruct (capture_counts env loc ss i
              (folder_name ss (nth i (locZ loc) 0) (nth i (locR loc) 0))
              (picture_name ss NumberOfRotations (nth i (locX loc) 0)
                 (nth i (locY loc) 0) (nth i (locZ loc) 0) (nth i (locR loc) 0))
              s1) as [Hs Hv].
  rewrite Hv. change (shots [Settle]) with 0%nat.
  change (visits [Settle]) with 1%nat. lia.
Qed.

Lemma for_fold_visits {A S : Type} (l : list A) (body : S -> A -> M S) :
  forall acc s,
  (forall acc' a s', In a l -> (visits (events_of (body acc' a s')) <= 1)%nat) ->
  (visits (events_of (for_fold l body acc s)) <= length l)%nat.
Proof.
  induction l as [|a l IH]; intros acc s Hbody; cbn [for_fold length].
  - cbn. lia.
  - unfold bind. pose proof (Hbody acc a s (in_eq a l)) as Ha.
    destruct (body acc a s) as [[[u|e] s1] e1]; cbn [events_of snd] in *; try lia.
    specialize (IH u s1 (fun acc' b s' Hb => Hbody acc' b s' (in_cons a b l Hb))).
    destruct (for_fold l body u s1) as [[r s2] e2]. cbn [events_of snd] in *.
    rewrite visits_app. lia.
Qed.

(** X14: the camera is tried at most three times per coordinate.  In any
    run over a plan with four lists of one length, whatever the camera does
    and however the run ends, the number of camera invocations is at most
    three times the number of coordinates visited, and no more coordinates
    are visited than the plan holds. *)
Theorem at_most_three_shots_per_coordinate env loc cond s :
  same_lengths loc ->
  (shots (events_of (GridScan env loc cond s)) <=
   3 * visits (events_of (GridScan env loc cond s)))%nat /\
  (visits (events_of (GridScan env loc cond s)) <= length (locX loc))%nat.
Proof.
  intros Hsame.
  destruct (Nat.eq_dec (length (locX loc)) 0) as [Hzero|Hpos].
  - assert (HR : locR loc = []).
    { destruct Hsame as (_ & _ & HR). apply length_zero_iff_nil. lia. }
    assert (Hrun : GridScan env loc cond s = (Raise ValueError, tick_clock s, [])).
    { unfold GridScan. rewrite time_time_bind. cbv zeta. rewrite HR. reflexivity. }
    rewrite Hrun. cbn. lia.
  - destruct (GridScan_prelude env loc cond s Hsame ltac:(lia))
      as (s1 & e1 & R1 & C1 & E1).
    rewrite E1. unfold after. cbn [events_of snd].
    rewrite shots_app, visits_app, (routine_shots e1 R1), (routine_visits e1 R1).
    set (ss := open_session env loc cond (clock env (clock_reads s))).
    set (body := fun (ss : session) (i : nat) =>
                   scan_body env loc ss (length (locX loc))
                             (count_distinct (locR loc)) i).
    assert (Hloop : always three_shots_per_visit
                      (for_fold (range (length (locX loc))) body ss)).
    { apply always_for_fold;
        [unfold three_shots_per_visit; cbn; lia
        | apply three_shots_per_visit_app |].
      intros ss' i Hi s'. apply in_range in Hi.
      destruct (scan_body_counts env loc ss' (length (locX loc))
                  (count_distinct (locR loc)) i s' Hsame Hi) as [Hs Hv].
      unfold three_shots_per_visit, body. lia. }
    assert (Hvis : forall s', (visits (events_of
                     (for_fold (range (length (locX loc))) body ss s')) <=
                     length (locX loc))%nat).
    { intros s'. rewrite <- (length_range (length (locX loc))) at 2.
      apply for_fold_visits. intros ss' i s'' Hi. apply in_range in Hi.
      destruct (scan_body_counts env loc ss' (length (locX loc))
                  (count_distinct (locR loc)) i s'' Hsame Hi) as [_ Hv].
      unfold body. lia. }
    specialize (Hloop s1). specialize (Hvis s1).
    unfold three_shots_per_visit in Hloop. unfold bind.
    destruct (for_fold (range (length (locX loc))) body ss s1)
      as [[[ss2|e] s2] e2];
      cbn [events_of snd] in *; try lia.
    destruct (finish_scan_run env ss2 s2) as (e3 & Hrun3 & Hm3).
    rewrite Hrun3. cbn [events_of snd].
    assert (H3 : shots e3 = 0%nat /\ visits e3 = 0%nat).
    { unfold finish_scan in Hrun3. rewrite time_time_bind in Hrun3.
      injection Hrun3 as <-. split; reflexivity. }
    destruct H3 as [Hs3 Hv3]. rewrite shots_app, visits_app, Hs3, Hv3. lia.
Qed.

Lemma at_most_three_shots_per_coordinate_3x2 :
  (shots (events_of (GridScan unplugged_at_1 plan_3x2 None rig0)) <= 3 * 6)%nat.
Proof.
  assert (Hsame : same_lengths plan_3x2) by (repeat split).
  destruct (at_most_three_shots_per_coordinate unplugged_at_1 plan_3x2 None rig0
              Hsame) as [Hs Hv].
  cbn [plan_3x2 locX length] in Hv. lia.
Defined.

(** ** Where a completed scan leaves the stage *)

Lemma then_after {A B : Type} (m : M A) (k : M B) s a s1 e1 :
  m s = (Ret a, s1, e1) -> (m ;; k) s = after e1 (k s1).
Proof.
  intros Hm. unfold bind, after. rewrite Hm.
  destruct (k s1) as [[r s2] e2]. reflexivity.
Qed.

Lemma routine_move_events (a : axis) (d : Z) (delay : speed) (n : nat)
    (tail : list event) :
  routine_events tail ->
  routine_events (SetDir a d :: repeat (Step a delay) n ++ tail).
Proof.
  intros Ht. constructor; [reflexivity|].
  apply Forall_app. split; [apply routine_steps | exact Ht].
Qed.

Lemma RGoTo_keeps_state (dest : pyarg) (lo : Z) (s : rig) :
  exists a e, RGoTo dest lo s = (Ret a, s, e) /\ routine_events e.
Proof.
  destruct dest as [d|].
  - assert (Hdec : lo <= d <= StepsPerRotation \/ ~ (lo <= d <= StepsPerRotation))
      by lia.
    destruct Hdec as [H|H].
    + rewrite RGoTo_in_range by exact H. do 2 eexists. split; [reflexivity|].
      rewrite <- (app_nil_r (repeat _ _)). apply routine_move_events. constructor.
    + rewrite RGoTo_out_of_range by exact H. do 2 eexists. split; [reflexivity|].
      constructor; [reflexivity | constructor].
  - do 2 eexists. split; [reflexivity | constructor].
Qed.

(** With its coordinate within the limits, an iteration reaches the
    coordinate on X, Y and Z before it settles. *)
Lemma scan_body_arrives env loc ss num_pictures NumberOfRotations i xi yi zi ri s :
  nth_error (locX loc) i = Some xi -> nth_error (locY loc) i = Some yi ->
  nth_error (locZ loc) i = Some zi -> nth_error (locR loc) i = Some ri ->
  0 <= xi <= XMax -> 0 <= yi <= YMax -> 0 <= zi <= ZMax ->
  exists e1,
    routine_events e1 /\
    scan_body env loc ss num_pictures NumberOfRotations i s =
    after (e1 ++ [Settle])
          (capture_with_retries env loc ss i (folder_name ss zi ri)
             (picture_name ss NumberOfRotations xi yi zi ri)
             (set_GlobalZ zi (set_GlobalY yi (set_GlobalX xi s)))).
Proof.
  intros HX HY HZ HR LX LY LZ.
  assert (Hprog : exists e0, routine_events e0 /\
            forall (B : Type) (k : M B),
              ((if (i mod 100 =? 0)%nat
                then print (PicturesRemaining (num_pictures - i) (s_original_pics ss)) ;;
                     emit (Beep 3)
                else ret tt) ;; k) s = after e0 (k s)).
  { destruct (i mod 100 =? 0)%nat.
    - eexists. split; [|intros B k; apply (then_after _ _ _ tt); reflexivity].
      repeat constructor.
    - exists []. split; [constructor|].
      intros B k. apply (then_after _ _ _ tt). reflexivity. }
  destruct Hprog as (e0 & R0 & E0).
  set (sx := set_GlobalX xi s). set (sy := set_GlobalY yi sx).
  set (sz := set_GlobalZ zi sy).
  destruct (RGoTo_keeps_state (PyInt ri) 0 sz) as (ar & er & Hr & Rr).
  eexists. split; [|].
  2: { unfold scan_body.
       rewrite (index_run _ _ _ HX), (index_run _ _ _ HY),
               (index_run _ _ _ HZ), (index_run _ _ _ HR).
       rewrite E0, !ret_bind, emit_bind, ret_bind.
       rewrite (then_after _ _ _ _ _ _ (XGoTo_in_range xi 0 s LX)), ret_bind.
       fold sx.
       rewrite (then_after _ _ _ _ _ _ (YGoTo_in_range yi 0 sx LY)), ret_bind.
       fold sy.
       rewrite (then_after _ _ _ _ _ _ (ZGoTo_in_range zi 0 sy LZ)), ret_bind.
       fold sz.
       rewrite (then_after _ _ _ _ _ _ Hr), emit_bind.
       rewrite !after_after, ?app_assoc. reflexivity. }
  repeat (apply Forall_app; split); try assumption;
    try (apply routine_move_events; repeat constructor);
    repeat constructor.
Qed.

Lemma last_range (n : nat) : last (range (S n)) 0%nat = n.
Proof. unfold range. rewrite seq_S. apply last_last. Qed.

Section Arrival.
Variable env : environment.
Variable loc : ScanLocations.
Variable ss : session.
Variables num_pictures NumberOfRotations : nat.
Hypothesis Hsame : same_lengths loc.
Hypothesis Hlimits : within_limits loc.

Let body := fun (ss : session) (i : nat) =>
  scan_body env loc ss num_pictures NumberOfRotations i.

Lemma loop_arrives (l : list nat) : forall s,
  (forall k, In k l -> (k < length (locX loc))%nat /\ ~ fails_three_times env k) ->
  exists s1 ev,
    for_fold l body ss s = (Ret ss, s1, ev) /\
    (l <> [] ->
     GlobalX s1 = nth (last l 0%nat) (locX loc) 0 /\
     GlobalY s1 = nth (last l 0%nat) (locY loc) 0 /\
     GlobalZ s1 = nth (last l 0%nat) (locZ loc) 0).
Proof.
  induction l as [|a l IH]; intros s Hl; cbn [for_fold].
  - exists s, []. split; [reflexivity | intros H; contradiction].
  - destruct (Hl a (in_eq a l)) as [Ha Hnot].
    destruct (in_bounds loc a Hsame Ha) as (HX & HY & HZ & HR).
    destruct Hlimits as (LX & LY & LZ & _).
    destruct (scan_body_arrives env loc ss num_pictures NumberOfRotations a
                _ _ _ _ s HX HY HZ HR
                (nth_error_Forall _ _ _ _ LX HX)
                (nth_error_Forall _ _ _ _ LY HY)
                (nth_error_Forall _ _ _ _ LZ HZ)) as (e1 & R1 & E1).
    set (sa := set_GlobalZ (nth a (locZ loc) 0)
                 (set_GlobalY (nth a (locY loc) 0)
                    (set_GlobalX (nth a (locX loc) 0) s))) in *.
    destruct (capture_goes_on env loc ss a
                (folder_name ss (nth a (locZ loc) 0) (nth a (locR loc) 0))
                (picture_name ss NumberOfRotations (nth a (locX loc) 0)
                   (nth a (locY loc) 0) (nth a (locZ loc) 0) (nth a (locR loc) 0))
                sa Hnot) as (ev & Hrun & _).
    destruct (IH sa (fun k Hk => Hl k (in_cons a k l Hk)))
      as (s2 & e2 & Hrun2 & Hpos).
    exists s2, (((e1 ++ [Settle]) ++ ev) ++ e2). split.
    + eapply bind_ret_elim; [|exact Hrun2].
      unfold body. rewrite E1, Hrun. reflexivity.
    + intros _. destruct l as [|b l].
      * cbn [for_fold] in Hrun2. injection Hrun2 as <- _. cbn [last].
        unfold sa. repeat split.
      * change (last (a :: b :: l) 0%nat) with (last (b :: l) 0%nat).
        apply Hpos. discriminate.
Qed.
End Arrival.

(** X15: a completed scan leaves the stage at the last coordinate of the
    plan.  When every coordinate lies within the limits of its axis and no
    capture fails three times, the run ends normally with the tracked X, Y
    and Z positions equal to the last X, Y and Z of the plan. *)
Theorem completed_scan_rests_at_last_coordinate env loc cond s :
  same_lengths loc -> (0 < length (locX loc))%nat -> within_limits loc ->
  (forall k, (k < length (locX loc))%nat -> ~ fails_three_times env k) ->
  result_of (GridScan env loc cond s) = Ret tt /\
  GlobalX (state_of (GridScan env loc cond s)) =
    nth (length (locX loc) - 1) (locX loc) 0 /\
  GlobalY (state_of (GridScan env loc cond s)) =
    nth (length (locX loc) - 1) (locY loc) 0 /\
  GlobalZ (state_of (GridScan env loc cond s)) =
    nth (length (locX loc) - 1) (locZ loc) 0.
Proof.
  intros Hsame Hpos Hlim Hnot.
  destruct (GridScan_prelude env loc cond s Hsame Hpos)
    as (s1 & e1 & R1 & C1 & E1).
  destruct (loop_arrives env loc
              (open_session env loc cond (clock env (clock_reads s)))
              (length (locX loc)) (count_distinct (locR loc)) Hsame Hlim
              (range (length (locX loc))) s1)
    as (s2 & e2 & Hrun2 & Hpos2).
  { intros k Hk. apply in_range in Hk. split; [exact Hk | apply Hnot, Hk]. }
  destruct (finish_scan_run env
              (open_session env loc cond (clock env (clock_reads s))) s2)
    as (e3 & Hrun3 & _).
  assert (Hrun : GridScan env loc cond s =
                 (Ret tt, tick_clock s2, e1 ++ e2 ++ e3)).
  { rewrite E1. erewrite bind_ret_elim by eassumption. reflexivity. }
  rewrite Hrun. cbn [result_of state_of fst snd].
  split; [reflexivity|].
  destruct (length (locX loc)) as [|n] eqn:En; [lia|].
  rewrite last_range in Hpos2.
  replace (S n - 1)%nat with n by lia.
  apply Hpos2. unfold range. cbn. discriminate.
Qed.

Lemma completed_scan_rests_at_last_coordinate_3x2 :
  GlobalX (state_of (GridScan quiet_world plan_3x2 None rig0)) = 0 /\
  GlobalY (state_of (GridScan quiet_world plan_3x2 None rig0)) = 1.
Proof.
  assert (Hsame : same_lengths plan_3x2) by (repeat split).
  assert (Hpos : (0 < length (locX plan_3x2))%nat) by (cbn; lia).
  assert (Hlim : within_limits plan_3x2).
  { unfold within_limits, plan_3x2, XMax, YMax, ZMax, StepsPerRotation.
    cbn [locX locY locZ locR].
    repeat split; repeat (constructor; [lia|]); constructor. }
  assert (Hnot : forall k, (k < length (locX plan_3x2))%nat ->
                   ~ fails_three_times quiet_world k).
  { intros k _ (H0 & _). discriminate H0. }
  destruct (completed_scan_rests_at_last_coordinate quiet_world plan_3x2 None rig0
              Hsame Hpos Hlim Hnot) as (_ & HX & HY & _).
  split; [exact HX | exact HY].
Defined.

(** * The scan settings *)

Lemma rotation_choice_facts (n : Z) :
  In n FactorsOf160 ->
  valid_triple 0 StepsPerRotation (160 / n) /\
  point_count 0 StepsPerRotation (160 / n) = S (Z.to_nat n) /\
  0 + Z.of_nat (Z.to_nat n) * (160 / n) = StepsPerRotation.
Proof.
  unfold FactorsOf160. intros Hn. cbn [In] in Hn.
  repeat (destruct Hn as [<-|Hn];
          [unfold valid_triple; vm_compute; repeat split; discriminate|]).
  contradiction.
Qed.

Lemma last_plan_index (nx ny nz n : nat) :
  (0 < nx)%nat -> (0 < ny)%nat -> (0 < nz)%nat ->
  plan_index nx ny nz n (nz - 1) (ny - 1) (nx - 1) =
  (S n * (nz * (ny * nx)) - 1)%nat.
Proof.
  intros Hx Hy Hz. unfold plan_index.
  destruct nx as [|nx]; [lia|]. destruct ny as [|ny]; [lia|].
  destruct nz as [|nz]; [lia|].
  cbn [Nat.sub]. rewrite !Nat.sub_0_r.
  assert (H : (S n * (S nz * (S ny * S nx)) =
               S (n * (S nz * (S ny * S nx)) +
                  (nz * (S ny * S nx) + (ny * S nx + nx))))%nat) by lia.
  rewrite H. cbn [Nat.sub]. rewrite Nat.sub_0_r. reflexivity.
Qed.

(** X16: the rotation values of a plan built from the panel.  For a number
    of rotations [n] chosen in the dropdown and valid X, Y and Z settings,
    the plan has [n + 1] rotation values, not [n]: it starts at rotation 0
    and ends at rotation [StepsPerRotation], a full turn away, so its length
    is [(n + 1)] times the number of X-Y-Z points. *)
Theorem GuiScan_plan_rotations (g : scan_settings) :
  In (RScanNumber g) FactorsOf160 -> RScanMin g = 0 ->
  valid_triple (XScanMin g) (XScanMax g) (XScanStep g) ->
  valid_triple (YScanMin g) (YScanMax g) (YScanStep g) ->
  valid_triple (ZScanMin g) (ZScanMax g) (ZScanStep g) ->
  let nx := point_count (XScanMin g) (XScanMax g) (XScanStep g) in
  let ny := point_count (YScanMin g) (YScanMax g) (YScanStep g) in
  let nz := point_count (ZScanMin g) (ZScanMax g) (ZScanStep g) in
  let n := Z.to_nat (RScanNumber g) in
  exists loc,
    GuiScan_plan g = Ret loc /\
    length (locR loc) = (S n * (nz * (ny * nx)))%nat /\
    nth 0 (locR loc) 0 = 0 /\
    nth (S n * (nz * (ny * nx)) - 1) (locR loc) 0 = StepsPerRotation.
Proof.
  intros Hn HRmin HX HY HZ nx ny nz n.
  destruct (rotation_choice_facts _ Hn) as (HR & Hcount & Hlast).
  unfold GuiScan_plan. cbv zeta. rewrite HRmin.
  pose proof (length_grid _ _ _ HX) as Lx. pose proof (length_grid _ _ _ HY) as Ly.
  pose proof (length_grid _ _ _ HZ) as Lz. pose proof (length_grid _ _ _ HR) as Lr.
  fold nx in Lx. fold ny in Ly. fold nz in Lz. rewrite Hcount in Lr. fold n in Lr.
  pose proof (point_count_positive _ _ _ HX) as Px.
  pose proof (point_count_positive _ _ _ HY) as Py.
  pose proof (point_count_positive _ _ _ HZ) as Pz.
  fold nx in Px. fold ny in Py. fold nz in Pz.
  rewrite DefineScan_on_grids by (destruct HX, HY, HZ, HR; lia).
  destruct (build_scan (grid (XScanMin g) (XScanMax g) (XScanStep g))
              (grid (YScanMin g) (YScanMax g) (YScanStep g))
              (grid (ZScanMin g) (ZScanMax g) (ZScanStep g))
              (grid 0 StepsPerRotation (160 / RScanNumber g)))
    as [loc|e] eqn:Hrun.
  - exists loc. split; [reflexivity|].
    pose proof (build_scan_lengths _ _ _ _ _ Hrun) as Hlen. cbv zeta in Hlen.
    rewrite Lx, Ly, Lz, Lr in Hlen. destruct Hlen as (_ & _ & _ & HlenR).
    split; [exact HlenR|].
    pose proof (build_scan_positions _ _ _ _ loc 0 0 0 0 Hrun) as First.
    pose proof (build_scan_positions _ _ _ _ loc n (nz - 1) (ny - 1) (nx - 1) Hrun)
      as Last.
    rewrite Lx, Ly, Lz, Lr in First, Last.
    specialize (First ltac:(lia) ltac:(lia) ltac:(lia) ltac:(lia)).
    specialize (Last ltac:(lia) ltac:(lia) ltac:(lia) ltac:(lia)).
    cbv zeta in First, Last.
    destruct First as (_ & _ & _ & First). destruct Last as (_ & _ & _ & Last).
    replace (plan_index nx ny nz 0 0 0 0) with 0%nat in First
      by (unfold plan_index; lia).
    rewrite last_plan_index in Last by assumption.
    rewrite First, Last.
    rewrite !nth_grid by (rewrite Lr; lia).
    split; [reflexivity | exact Hlast].
  - exfalso. rewrite build_scan_normal in Hrun by (apply grid_nonempty, HY).
    discriminate Hrun.
Qed.

Lemma GuiScan_plan_rotations_initial :
  exists loc,
    GuiScan_plan initial_settings = Ret loc /\
    length (locR loc) = 2%nat /\
    nth 0 (locR loc) 0 = 0 /\ nth 1 (locR loc) 0 = 160.
Proof.
  assert (Hn : In (RScanNumber initial_settings) FactorsOf160) by (left; reflexivity).
  assert (HX : valid_triple 0 0 150) by (unfold valid_triple; lia).
  assert (HZ : valid_triple 0 0 1) by (unfold valid_triple; lia).
  destruct (GuiScan_plan_rotations initial_settings Hn eq_refl HX HX HZ)
    as (loc & Hrun & Hlen & Hfirst & Hlast).
  exists loc. split; [exact Hrun|]. split; [exact Hlen|].
  split; [exact Hfirst | exact Hlast].
Defined.

(** X17: a step button pressed while its axis stands at position 0 sets
    the step to 0, and the next scan fails: the plan [GuiScan] asks for is
    refused with the zero-step error, whatever the other settings are. *)
Theorem step_set_at_zero_breaks_scan (s : rig) (g : scan_settings) :
  (GlobalX s = 0 -> GuiScan_plan (fst (SetXStep s g)) = Raise ZeroStepError) /\
  (GlobalY s = 0 -> GuiScan_plan (fst (SetYStep s g)) = Raise ZeroStepError) /\
  (GlobalZ s = 0 -> GuiScan_plan (fst (SetZStep s g)) = Raise ZeroStepError).
Proof.
  repeat split; intros H; unfold GuiScan_plan; apply zero_step_rejected;
    cbn [fst SetXStep SetYStep SetZStep XScanStep YScanStep ZScanStep]; auto.
Qed.

Lemma step_set_at_zero_breaks_scan_initial :
  GuiScan_plan (fst (SetXStep rig0 initial_settings)) = Raise ZeroStepError.
Proof.
  destruct (step_set_at_zero_breaks_scan rig0 initial_settings) as (HX & _).
  apply HX. reflexivity.
Defined.

(** X18: the volume marked on the panel is the volume scanned.  Moving X
    to [a] and pressing the lower-bound button, then moving X to [b] and
    pressing the upper-bound button, sets the X range to [a, b]; with valid
    settings otherwise, the plan of the next scan starts at X = [a] and all
    its X values lie within [a, b]. *)
Theorem marked_volume_is_scanned (a b : Z) (s : rig) (g : scan_settings) :
  0 <= a <= b -> b <= XMax -> 0 < XScanStep g ->
  valid_triple (YScanMin g) (YScanMax g) (YScanStep g) ->
  valid_triple (ZScanMin g) (ZScanMax g) (ZScanStep g) ->
  In (RScanNumber g) FactorsOf160 -> RScanMin g = 0 ->
  let s1 := state_of (XGoTo (PyInt a) 0 s) in
  let g1 := fst (SetXLowerBound s1 g) in
  let s2 := state_of (XGoTo (PyInt b) 0 s1) in
  let g2 := fst (SetXUpperBound s2 g1) in
  XScanMin g2 = a /\ XScanMax g2 = b /\
  exists loc,
    GuiScan_plan g2 = Ret loc /\
    Forall (fun x => a <= x <= b) (locX loc) /\
    nth 0 (locX loc) 0 = a.
Proof.
  intros Hab Hb Hstep HY HZ Hn HRmin s1 g1 s2 g2.
  assert (Ha : 0 <= a <= XMax) by lia.
  assert (Hb' : 0 <= b <= XMax) by lia.
  assert (Hmin : XScanMin g2 = a).
  { unfold g2, g1, s2, s1. rewrite !XGoTo_in_range by assumption. reflexivity. }
  assert (Hmax : XScanMax g2 = b).
  { unfold g2, g1, s2, s1. rewrite !XGoTo_in_range by assumption. reflexivity. }
  split; [exact Hmin|]. split; [exact Hmax|].
  destruct (rotation_choice_facts _ Hn) as (HR & Hcount & _).
  assert (HX : valid_triple a b (XScanStep g)) by (split; lia).
  unfold GuiScan_plan. cbv zeta. rewrite Hmin, Hmax.
  change (XScanStep g2) with (XScanStep g). change (YScanMin g2) with (YScanMin g).
  change (YScanMax g2) with (YScanMax g). change (YScanStep g2) with (YScanStep g).
  change (ZScanMin g2) with (ZScanMin g). change (ZScanMax g2) with (ZScanMax g).
  change (ZScanStep g2) with (ZScanStep g). change (RScanMin g2) with (RScanMin g).
  change (RScanNumber g2) with (RScanNumber g). rewrite HRmin.
  rewrite DefineScan_on_grids by (destruct HX, HY, HZ, HR; lia).
  destruct (build_scan (grid a b (XScanStep g))
              (grid (YScanMin g) (YScanMax g) (YScanStep g))
              (grid (ZScanMin g) (ZScanMax g) (ZScanStep g))
              (grid 0 StepsPerRotation (160 / RScanNumber g)))
    as [loc|e] eqn:Hrun.
  - exists loc. split; [reflexivity|]. split.
    + apply (build_scan_values (fun x => a <= x <= b) (fun _ => True)
               (fun _ => True) (fun _ => True) _ _ _ _ _ Hrun);
        try (apply Forall_forall; intros; exact I).
      apply Forall_grid, HX.
    + pose proof (build_scan_positions _ _ _ _ loc 0 0 0 0 Hrun) as First.
      rewrite !length_grid in First by assumption.
      specialize (First (point_count_positive _ _ _ HR)
                        (point_count_positive _ _ _ HZ)
                        (point_count_positive _ _ _ HY)
                        (point_count_positive _ _ _ HX)).
      cbv zeta in First. destruct First as (First & _).
      replace (plan_index _ _ _ 0 0 0 0) with 0%nat in First
        by (unfold plan_index; lia).
      rewrite First. unfold serpentine_column. cbn [Nat.even].
      rewrite nth_grid
        by (rewrite length_grid by exact HX; apply point_count_positive, HX).
      cbn. lia.
  - exfalso. rewrite build_scan_normal in Hrun by (apply grid_nonempty, HY).
    discriminate Hrun.
Qed.

Lemma marked_volume_is_scanned_example :
  exists loc,
    GuiScan_plan
      (fst (SetXUpperBound
              (state_of (XGoTo (PyInt 700) 0 (state_of (XGoTo (PyInt 100) 0 rig0))))
              (fst (SetXLowerBound (state_of (XGoTo (PyInt 100) 0 rig0))
                                   initial_settings)))) = Ret loc /\
    Forall (fun x => 100 <= x <= 700) (locX loc) /\
    nth 0 (locX loc) 0 = 100.
Proof.
  assert (Hab : 0 <= 100 <= 700) by lia.
  assert (Hb : 700 <= XMax) by (unfold XMax; lia).
  assert (Hstep : 0 < XScanStep initial_settings) by (cbn; lia).
  assert (HY : valid_triple 0 0 150) by (unfold valid_triple; lia).
  assert (HZ : valid_triple 0 0 1) by (unfold valid_triple; lia).
  assert (Hn : In (RScanNumber initial_settings) FactorsOf160) by (left; reflexivity).
  destruct (marked_volume_is_scanned 100 700 rig0 initial_settings
              Hab Hb Hstep HY HZ Hn eq_refl) as (_ & _ & Hplan).
  exact Hplan.
Defined.

(** * The repeatability test *)

Lemma XRepeat_trials_spec (randrange : nat -> Z) (l : list nat) : forall t s,
  GlobalX s = t_ranlocold t ->
  (forall k, In k l -> 0 <= randrange k <= XMax) ->
  exists t1 s1 e1,
    XRepeat_trials randrange l t s = (Ret t1, s1, e1) /\
    t_total_steps t1 = t_total_steps t + Z.of_nat (pulses AxX e1) /\
    GlobalX s1 = t_ranlocold t1 /\
    t_ListOfLoc t1 = t_ListOfLoc t ++ map randrange l /\
    t_ranloc t1 = match l with
                  | [] => t_ranloc t
                  | _ => Some (randrange (last l 0%nat))
                  end /\
    t_ranlocold t1 = match l with
                     | [] => t_ranlocold t
                     | _ => randrange (last l 0%nat)
                     end /\
    reports_out_of_range e1 = false.
Proof.
  induction l as [|i l IH]; intros t s Hpos Hdraws; cbn [XRepeat_trials].
  - exists t, s, []. cbn [map]. rewrite app_nil_r, Z.add_0_r. repeat split. exact Hpos.
  - pose proof (Hdraws i (in_eq i l)) as Hi.
    set (t' := mkTrial (t_total_steps t + Z.abs (t_ranlocold t - randrange i))
                       (randrange i) (t_ListOfLoc t ++ [randrange i])
                       (Some (randrange i))).
    destruct (IH t' (set_GlobalX (randrange i) s) eq_refl
                (fun k Hk => Hdraws k (in_cons i k l Hk)))
      as (t1 & s1 & e1 & Hrun & Htot & Hp & Hlist & Hlast & Hold & Hrep).
    eexists t1, s1, _. split.
    { eapply bind_ret_elim; [apply XGoTo_in_range, Hi | exact Hrun]. }
    rewrite pulses_app, pulses_move by apply readout_not_step.
    split; [rewrite Htot; unfold t'; cbn [t_total_steps]; lia|].
    split; [exact Hp|].
    split; [rewrite Hlist; unfold t'; cbn [t_ListOfLoc map];
            rewrite <- app_assoc; reflexivity|].
    split; [rewrite Hlast; destruct l; reflexivity|].
    split; [rewrite Hold; destruct l; reflexivity|].
    + unfold reports_out_of_range in *.
      rewrite existsb_app, Hrep, orb_false_r.
      cbn [existsb is_out_of_range_report orb].
      rewrite existsb_app. cbn [existsb is_out_of_range_report orb].
      rewrite orb_false_r.
      clear. induction (Z.abs_nat (randrange i - GlobalX s)); [reflexivity|].
      cbn. assumption.
Qed.

(** X19: the repeatability test counts the steps it sends.  Started from
    X position 0, as after a successful home, with every random location
    within the X range, the loop of [XRepeatTest] ends with [total_steps]
    equal to the number of X pulses it has sent, with the tracked position
    at the last location drawn (at 0 when there was no trial), which is also
    what [ranlocold] and [ranloc] hold ([ranloc] unassigned when there was
    no trial), and with [ListOfLoc] holding 0 followed by the locations
    drawn in order; no move is refused. *)
Theorem XRepeat_trials_count_steps (randrange : nat -> Z) (n : nat) (s : rig) :
  GlobalX s = 0 ->
  (forall k, (k < n)%nat -> 100 <= randrange k < XMax - 100) ->
  exists t1 s1 e1,
    XRepeat_trials randrange (range n) (mkTrial 0 0 [0] None) s = (Ret t1, s1, e1) /\
    t_total_steps t1 = Z.of_nat (pulses AxX e1) /\
    GlobalX s1 = match n with
                 | O => 0
                 | S m => randrange m
                 end /\
    t_ranlocold t1 = GlobalX s1 /\
    t_ranloc t1 = match n with
                  | O => None
                  | S m => Some (randrange m)
                  end /\
    t_ListOfLoc t1 = 0 :: map randrange (range n) /\
    reports_out_of_range e1 = false.
Proof.
  intros Hpos Hdraws.
  destruct (XRepeat_trials_spec randrange (range n) (mkTrial 0 0 [0] None) s Hpos)
    as (t1 & s1 & e1 & Hrun & Htot & Hp & Hlist & Hlast & Hold & Hrep).
  { intros k Hk. apply in_range in Hk. specialize (Hdraws k Hk).
    unfold XMax in *. lia. }
  assert (Hshape : match range n with
                   | [] => n = 0%nat
                   | _ => exists m, n = S m /\ last (range n) 0%nat = m
                   end).
  { destruct n as [|m]; [reflexivity|].
    pose proof (last_range m) as Hl. unfold range in *. rewrite seq_S in *.
    destruct (seq 0 m ++ [(0 + m)%nat]) eqn:E.
    - destruct (seq 0 m); discriminate E.
    - exists m. split; [reflexivity | exact Hl]. }
  exists t1, s1, e1. split; [exact Hrun|].
  split; [rewrite Htot; reflexivity|].
  destruct (range n) as [|a l] eqn:Er.
  - subst n. cbn [t_ranlocold t_ranloc] in *.
    repeat split; try assumption; congruence.
  - destruct Hshape as (m & -> & Hm). rewrite Hm in Hlast, Hold.
    repeat split; try assumption; congruence.
Qed.

Lemma XRepeat_trials_count_steps_example :
  exists t1 s1 e1,
    XRepeat_trials (fun k => 200 + 100 * Z.of_nat k) (range 3)
                   (mkTrial 0 0 [0] None) rig0 = (Ret t1, s1, e1) /\
    t_total_steps t1 = Z.of_nat (pulses AxX e1) /\
    GlobalX s1 = 400 /\
    t_ListOfLoc t1 = [0; 200; 300; 400].
Proof.
  assert (Hd : forall k, (k < 3)%nat ->
                 100 <= 200 + 100 * Z.of_nat k < XMax - 100)
    by (intros k Hk; unfold XMax; lia).
  destruct (XRepeat_trials_count_steps (fun k => 200 + 100 * Z.of_nat k) 3 rig0
              eq_refl Hd) as (t1 & s1 & e1 & Hrun & Htot & Hpos & _ & _ & Hlist & _).
  exists t1, s1, e1. split; [exact Hrun|]. split; [exact Htot|].
  split; [exact Hpos | exact Hlist].
Defined.

Lemma HomeX_then env s :
  exists r s1 e1,
    HomeX env s = (Ret r, s1, e1) /\
    forall (B : Type) (k : M B), (HomeX env ;; k) s = after e1 (k s1).
Proof.
  destruct (routine_Home env) as (RX & _).
  destruct (RX s) as (r & s1 & e1 & Hrun & _).
  exists r, s1, e1. split; [exact Hrun|].
  intros B k. apply (then_after _ _ _ _ _ _ Hrun).
Qed.

(** X20: when the repeatability test cannot give a result.  Called with no
    trial at all, [XRepeatTest] always stops with [UnboundLocalError], as
    [ranloc] was never assigned; and when the X limit input is never low on
    two reads in a row, so that homing never confirms, a test with at least
    one trial stops with [TypeError] at the subtraction of [None], whatever
    locations are drawn. *)
Theorem XRepeatTest_without_result (env : environment) (randrange : nat -> Z)
    (n : nat) (s : rig) :
  result_of (XRepeatTest env randrange 0 s) = Ret RepeatUnboundLocalError /\
  (never_low_twice env XLimit -> (0 < n)%nat ->
   result_of (XRepeatTest env randrange n s) = Ret RepeatTypeError).
Proof.
  split.
  - destruct (HomeX_then env s) as (r1 & s1 & e1 & _ & E1).
    destruct (HomeX_then env s1) as (r2 & s2 & e2 & _ & E2).
    destruct (HomeX_then env s2) as (r3 & s3 & e3 & _ & E3).
    destruct (HomeX_then env s3) as (r4 & s4 & e4 & H4 & _).
    unfold XRepeatTest. rewrite E1, E2, E3. cbn [range seq XRepeat_trials].
    rewrite ret_bind. cbn [t_ranloc].
    erewrite bind_ret_elim; [|exact H4|reflexivity]. reflexivity.
  - intros Hglitch Hn.
    destruct (HomeX_then env s) as (r1 & s1 & e1 & _ & E1).
    destruct (HomeX_then env s1) as (r2 & s2 & e2 & _ & E2).
    destruct (HomeX_then env s2) as (r3 & s3 & e3 & _ & E3).
    assert (Htrials : exists t1 s4 e4,
              XRepeat_trials randrange (range n) (mkTrial 0 0 [0] None) s3 =
                (Ret t1, s4, e4) /\ t_ranloc t1 <> None).
    { clear - Hn. revert s3. generalize (mkTrial 0 0 [0] None).
      unfold range. generalize 0%nat.
      destruct n as [|n]; [lia|]. clear Hn.
      induction n as [|n IH]; intros a t s3.
      - cbn [seq XRepeat_trials].
        destruct (routine_XGoTo (PyInt (randrange a)) 0 s3)
          as (r & s4 & e4 & Hrun & _).
        eexists _, s4, _. split.
        + eapply bind_ret_elim; [exact Hrun | reflexivity].
        + discriminate.
      - cbn [seq XRepeat_trials].
        destruct (routine_XGoTo (PyInt (randrange a)) 0 s3)
          as (r & s4 & e4 & Hrun & _).
        destruct (IH (S a)
                    (mkTrial (t_total_steps t + Z.abs (t_ranlocold t - randrange a))
                             (randrange a) (t_ListOfLoc t ++ [randrange a])
                             (Some (randrange a))) s4)
          as (t1 & s5 & e5 & Hrun5 & Hsome).
        eexists t1, s5, _. split; [|exact Hsome].
        eapply bind_ret_elim; [exact Hrun | exact Hrun5]. }
    destruct Htrials as (t1 & s4 & e4 & Hrun4 & Hsome).
    destruct (HomeX_seek_glitches env (range (Z.to_nat (XMax + 200))) s4 Hglitch)
      as (s5 & e5 & Hrun5 & _).
    unfold XRepeatTest. rewrite E1, E2, E3.
    erewrite bind_ret_elim; [|exact Hrun4|].
    2: { eapply bind_ret_elim; [exact Hrun5|].
         destruct (t_ranloc t1) as [v|]; [reflexivity | contradiction]. }
    reflexivity.
Qed.

Lemma XRepeatTest_without_result_bouncing :
  result_of (XRepeatTest bouncing_switch (fun _ => 500) 2 rig0) =
  Ret RepeatTypeError.
Proof.
  assert (H : never_low_twice bouncing_switch XLimit).
  { intros k Hk. cbn in *. rewrite Nat.odd_succ, <- Nat.negb_odd, Hk.
    reflexivity. }
  destruct (XRepeatTest_without_result bouncing_switch (fun _ => 500) 2 rig0)
    as (_ & Hfail).
  apply Hfail; [exact H | lia].
Defined.
